(** * winmake: a shallow embedding of [scripts/internal/winmake.py]

    The script is a "make"-like command dispatcher: it parses a command
    name, resolves the interpreter to use, and runs the task of that name,
    which spawns child processes and cleans the working tree.

    The embedding is a state-and-outcome monad over a [World] that holds
    what the script can observe or change: the environment (both Python's
    [os.environ] mapping and the environment block of the process), the
    module global [PYTHON], the file tree below the current directory,
    what was printed, and the children spawned so far.  What the platform
    decides (exit codes of children, [fnmatch], [os.path.isabs], ...) is
    read from an immutable [host] record. *)

From Stdlib Require Import ZArith String Ascii List Lia DecimalString.
From stdpp Require Import base option list strings gmap.

Local Open Scope string_scope.
Local Open Scope list_scope.
Local Open Scope stdpp_scope.
Import ListNotations.

(** ** Python strings *)

Module Str.

(** [needle in hay] *)
Fixpoint contains (needle hay : string) : bool :=
  String.prefix needle hay ||
  match hay with
  | EmptyString => false
  | String _ hay' => contains needle hay'
  end.

(** [s.replace(c, '')] for a one-character [c] *)
Fixpoint remove_char (c : ascii) (s : string) : string :=
  match s with
  | EmptyString => EmptyString
  | String x s' =>
      if Ascii.eqb x c then remove_char c s' else String x (remove_char c s')
  end.

(** [s.replace(a, b)] for one-character [a] and [b] *)
Fixpoint replace_char (a b : ascii) (s : string) : string :=
  match s with
  | EmptyString => EmptyString
  | String x s' =>
      String (if Ascii.eqb x a then b else x) (replace_char a b s')
  end.

(** [c in s] for a character [c] *)
Fixpoint has_char (c : ascii) (s : string) : bool :=
  match s with
  | EmptyString => false
  | String x s' => Ascii.eqb x c || has_char c s'
  end.

(** [str(n)] for a natural number *)
Definition of_nat (n : nat) : string := NilZero.string_of_uint (Nat.to_uint n).

(** truth value of a string: [bool(s)] *)
Definition truthy (s : string) : bool :=
  match s with EmptyString => false | _ => true end.

End Str.

(** ** Exceptions, exit requests and outcomes *)

Inductive exn :=
| FileNotFoundError (filename : string)
| PermissionError (filename : string)
| NotADirectoryError (filename : string)
| IsADirectoryError (filename : string)
| OSError (filename : string)       (* an OSError of no subclass above *)
| CalledProcessError (returncode : Z) (cmd : list string)
| AttributeError (name : string)
| TypeError (what : string)
| ForeignError (label : string).

(** [issubclass(type(e), FileNotFoundError)] *)
Definition is_FileNotFoundError (e : exn) : bool :=
  match e with FileNotFoundError _ => true | _ => false end.

(** The argument of [sys.exit]: an integer status, or a text that the
    interpreter prints on standard error before leaving with status 1.
    [ExitText t obj] stands for the text [t] followed by [repr(obj)]. *)
Inductive exit_arg :=
| ExitCode (status : Z)
| ExitText (text : string) (obj : option string).

Inductive outcome (A : Type) :=
| Ret (a : A)                 (* normal completion *)
| SysExit (arg : exit_arg)    (* SystemExit is propagating *)
| Raised (e : exn)            (* another exception is propagating *)
| Timeout.                    (* the model ran out of fuel *)
Arguments Ret {A} a.
Arguments SysExit {A} arg.
Arguments Raised {A} e.
Arguments Timeout {A}.

(** The exit status of the interpreter when the script ends with this
    outcome; [None] when the script does not end. *)
Definition exit_status {A} (r : outcome A) : option Z :=
  match r with
  | Ret _ => Some 0%Z
  | SysExit (ExitCode n) => Some n
  | SysExit (ExitText _ _) => Some 1%Z
  | Raised _ => Some 1%Z
  | Timeout => None
  end.

(** ** The file tree below the current directory *)

(** An entry is a file or a directory; [locked] entries cannot be
    removed (a file in use, a read-only entry, ...). *)
#[local] Unset Elimination Schemes.
Inductive node :=
| File (locked : bool)
| Dir (locked : bool) (entries : list (string * node)).
#[local] Set Elimination Schemes.

(** ** Console output *)

Inductive stream := Stdout | Stderr.

Inductive message :=
| Text (s : string)                  (* print(s), safe_print(s) *)
| CmdLine (cmd : list string)        (* f"cmd: {cmd}" *)
| ErrStr (e : exn)                   (* print(err) *)
| Coloured (attr : Z) (s : string)   (* print(s) under a console colour *)
| Help                               (* parser.print_help() *)
| Usage.                             (* the usage and error text of argparse *)

(** ** Child processes *)

Inductive popen_result :=
| Started (output : list string) (returncode : Z)
| NotStarted.     (* the executable could not be run: Popen raises *)

Record child := {
  c_cmd : list string;
  c_env : gmap string string;   (* the environment the child observes *)
  c_cwd : string;
  c_via_sh : bool;              (* spawned by [sh] *)
  c_returncode : option Z       (* [None]: it never started *)
}.

(** ** Host and world *)

Record host := {
  h_windows : bool;                       (* os.name == "nt" *)
  h_executable : string;                  (* sys.executable *)
  h_cpu_count : option nat;               (* os.cpu_count() *)
  h_isabs : string -> bool;               (* os.path.isabs *)
  h_isfile : string -> bool;              (* os.path.isfile, outside the tree *)
  h_isdir : string -> bool;               (* os.path.isdir, outside the tree *)
  h_site_packages : list string;          (* site.getsitepackages() *)
  h_fnmatch : string -> string -> bool;   (* fnmatch.fnmatch name pattern *)
  h_HERE : string;
  h_ROOT_DIR : string;
  h_popen : nat -> list string -> popen_result;  (* the n-th child, by command *)
  h_psutil_importable : bool;             (* can [import psutil] succeed at all *)
  h_foreign : string -> option exn        (* outcome of a step that is not modelled *)
}.

Record World := {
  w_host : host;
  w_environ : gmap string string;   (* os.environ *)
  w_penv : gmap string string;      (* environment block of the process *)
  w_PYTHON : string;                (* module global PYTHON *)
  w_cwd : string;
  w_fs : node;                      (* the tree below the initial directory *)
  w_children : list child;          (* children spawned so far, oldest first *)
  w_out : list (stream * message);  (* what was printed, oldest first *)
  w_psutil_loaded : bool            (* psutil is in sys.modules *)
}.

Definition set_penv (e : gmap string string) (w : World) : World :=
  {| w_host := w_host w; w_environ := w_environ w; w_penv := e;
     w_PYTHON := w_PYTHON w; w_cwd := w_cwd w; w_fs := w_fs w;
     w_children := w_children w; w_out := w_out w;
     w_psutil_loaded := w_psutil_loaded w |}.

Definition set_PYTHON (p : string) (w : World) : World :=
  {| w_host := w_host w; w_environ := w_environ w; w_penv := w_penv w;
     w_PYTHON := p; w_cwd := w_cwd w; w_fs := w_fs w;
     w_children := w_children w; w_out := w_out w;
     w_psutil_loaded := w_psutil_loaded w |}.

Definition set_cwd (d : string) (w : World) : World :=
  {| w_host := w_host w; w_environ := w_environ w; w_penv := w_penv w;
     w_PYTHON := w_PYTHON w; w_cwd := d; w_fs := w_fs w;
     w_children := w_children w; w_out := w_out w;
     w_psutil_loaded := w_psutil_loaded w |}.

Definition set_fs (t : node) (w : World) : World :=
  {| w_host := w_host w; w_environ := w_environ w; w_penv := w_penv w;
     w_PYTHON := w_PYTHON w; w_cwd := w_cwd w; w_fs := t;
     w_children := w_children w; w_out := w_out w;
     w_psutil_loaded := w_psutil_loaded w |}.

Definition add_child (c : child) (w : World) : World :=
  {| w_host := w_host w; w_environ := w_environ w; w_penv := w_penv w;
     w_PYTHON := w_PYTHON w; w_cwd := w_cwd w; w_fs := w_fs w;
     w_children := w_children w ++ [c]; w_out := w_out w;
     w_psutil_loaded := w_psutil_loaded w |}.

Definition add_out (o : stream * message) (w : World) : World :=
  {| w_host := w_host w; w_environ := w_environ w; w_penv := w_penv w;
     w_PYTHON := w_PYTHON w; w_cwd := w_cwd w; w_fs := w_fs w;
     w_children := w_children w; w_out := w_out w ++ [o];
     w_psutil_loaded := w_psutil_loaded w |}.

Definition set_psutil_loaded (b : bool) (w : World) : World :=
  {| w_host := w_host w; w_environ := w_environ w; w_penv := w_penv w;
     w_PYTHON := w_PYTHON w; w_cwd := w_cwd w; w_fs := w_fs w;
     w_children := w_children w; w_out := w_out w;
     w_psutil_loaded := b |}.

(** ** The monad of the script *)

Definition M (A : Type) : Type := World -> outcome A * World.

Definition ret {A} (a : A) : M A := fun w => (Ret a, w).

Definition bind {A B} (m : M A) (k : A -> M B) : M B :=
  fun w =>
    match m w with
    | (Ret a, w') => k a w'
    | (SysExit c, w') => (SysExit c, w')
    | (Raised e, w') => (Raised e, w')
    | (Timeout, w') => (Timeout, w')
    end.

#[global] Instance M_ret : MRet M := @ret.
#[global] Instance M_bind : MBind M := fun A B k m => bind m k.

Definition get : M World := fun w => (Ret w, w).
Definition modify (f : World -> World) : M unit := fun w => (Ret tt, f w).
Definition raise {A} (e : exn) : M A := fun w => (Raised e, w).
Definition timeout {A} : M A := fun w => (Timeout, w).

(** [sys.exit(arg)] *)
Definition sys_exit {A} (arg : exit_arg) : M A := fun w => (SysExit arg, w).

(** [try: m finally: fin] *)
Definition try_finally {A} (m : M A) (fin : M unit) : M A :=
  fun w =>
    match m w with
    | (r, w1) =>
        match fin w1 with
        | (Ret _, w2) => (r, w2)
        | (SysExit c, w2) => (SysExit c, w2)
        | (Raised e, w2) => (Raised e, w2)
        | (Timeout, w2) => (Timeout, w2)
        end
    end.

(** [for x in xs: body(x)] *)
Fixpoint for_each {A} (xs : list A) (body : A -> M unit) : M unit :=
  match xs with
  | [] => ret tt
  | x :: xs' => body x ;; for_each xs' body
  end.

(** ** Module constants *)

Definition GREEN : Z := 2.
Definition LIGHTBLUE : Z := 3.
Definition YELLOW : Z := 6.
Definition RED : Z := 4.
Definition DEFAULT_COLOR : Z := 7.

(** ** utils *)

Definition print (m : message) : M unit := modify (add_out (Stdout, m)).

(** [safe_print(text)]: the text goes to standard output whatever the
    console encoding. *)
Definition safe_print (text : string) : M unit := print (Text text).

(** [win_colorprint(s, color)] *)
Definition win_colorprint (s : string) (color : Z) : M unit :=
  w ← get;
  if h_windows (w_host w)
  then print (Coloured (color + 8) s)   (* color += 8; set, print, reset *)
  else print (Text s).

(** [subprocess.Popen(cmd, env=env)] followed by reading the child to its
    end.  [env = None] means that no [env] argument is given: the child
    inherits the environment block of the process. *)
Definition popen (via_sh : bool) (cmd : list string)
    (env : option (gmap string string)) : M (list string * Z) :=
  w ← get;
  let seen := match env with Some e => e | None => w_penv w end in
  let mk rc := {| c_cmd := cmd; c_env := seen; c_cwd := w_cwd w;
                  c_via_sh := via_sh; c_returncode := rc |} in
  match h_popen (w_host w) (length (w_children w)) cmd with
  | Started out rc => modify (add_child (mk (Some rc))) ;; ret (out, rc)
  | NotStarted =>
      modify (add_child (mk None)) ;;
      raise (FileNotFoundError (hd "" cmd))
  end.

(** [sh(cmd, nolog=False)] *)
Definition sh (cmd : list string) (nolog : bool) : M unit :=
  (if nolog then ret tt else print (CmdLine cmd)) ;;
  w ← get;
  p ← popen true cmd (Some (w_environ w));
  if decide (p.2 ≠ 0%Z) then sys_exit (ExitCode p.2) else ret tt.

(** ** Paths ([os.path]) *)

Module Path.

Definition is_sep (windows : bool) (c : ascii) : bool :=
  Ascii.eqb c "/" || (windows && Ascii.eqb c "\").

(** [os.sep] *)
Definition sep (windows : bool) : string := if windows then "\" else "/".

(** The pieces of a path between its separators. *)
Fixpoint split (windows : bool) (s : string) : list string :=
  match s with
  | EmptyString => [EmptyString]
  | String c s' =>
      if is_sep windows c then EmptyString :: split windows s'
      else match split windows s' with
           | x :: xs => String c x :: xs
           | [] => [String c EmptyString]
           end
  end.

Definition proper (c : string) : bool :=
  negb (String.eqb c "") && negb (String.eqb c ".").

(** The components that name something: empty pieces and [.] are
    skipped, as the operating system does when it resolves the path. *)
Definition parts (windows : bool) (s : string) : list string :=
  List.filter proper (split windows s).

Definition starts_with_sep (windows : bool) (s : string) : bool :=
  match s with
  | EmptyString => false
  | String c _ => is_sep windows c
  end.

Fixpoint ends_with_sep (windows : bool) (s : string) : bool :=
  match s with
  | EmptyString => false
  | String c EmptyString => is_sep windows c
  | String _ s' => ends_with_sep windows s'
  end.

(** [os.path.join(a, b)] (drive letters are not modelled) *)
Definition join (windows : bool) (a b : string) : string :=
  if starts_with_sep windows b then b
  else if negb (Str.truthy a) || ends_with_sep windows a then a +:+ b
  else a +:+ sep windows +:+ b.

(** The loop of [normpath] over the components: [..] cancels the
    component before it. [acc] is the result so far, last first. *)
Fixpoint collapse (absolute : bool) (acc cs : list string) : list string :=
  match cs with
  | [] => rev acc
  | c :: cs' =>
      if String.eqb c ".." then
        match acc with
        | [] => if absolute then collapse absolute [] cs'
                else collapse absolute [".."] cs'
        | x :: acc' =>
            if String.eqb x ".." then collapse absolute (".." :: acc) cs'
            else collapse absolute acc' cs'
        end
      else collapse absolute (c :: acc) cs'
  end.

(** [os.path.normpath(s)] *)
Definition normpath (windows : bool) (s : string) : string :=
  let absolute := starts_with_sep windows s in
  let body := String.concat (sep windows)
                (collapse absolute [] (parts windows s)) in
  let r := (if absolute then sep windows else "") +:+ body in
  if Str.truthy r then r else ".".

End Path.

(** ** Operations of the file tree *)

Module FS.

Definition entries := list (string * node).

Fixpoint child (es : entries) (name : string) : option node :=
  match es with
  | [] => None
  | (k, m) :: es' => if String.eqb k name then Some m else child es' name
  end.

(** The entry that a list of components names, from the node [n]. *)
Fixpoint lookup (p : list string) (n : node) : option node :=
  match p with
  | [] => Some n
  | c :: p' =>
      match n with
      | File _ => None
      | Dir _ es =>
          match child es c with
          | Some m => lookup p' m
          | None => None
          end
      end
  end.

(** Replace ([Some]) or delete ([None]) the entries called [name]. *)
Fixpoint alter_child (name : string) (f : node -> option node)
    (es : entries) : entries :=
  match es with
  | [] => []
  | (k, m) :: es' =>
      if String.eqb k name then
        match f m with
        | Some m' => (k, m') :: alter_child name f es'
        | None => alter_child name f es'
        end
      else (k, m) :: alter_child name f es'
  end.

(** Replace or delete the entry that [p] names. The root itself (the
    current directory) is never replaced. *)
Fixpoint alter (p : list string) (f : node -> option node) (n : node) : node :=
  match p with
  | [] => n
  | c :: p' =>
      match n with
      | File _ => n
      | Dir lk es =>
          Dir lk (alter_child c
                    (match p' with
                     | [] => f
                     | _ => fun m => Some (alter p' f m)
                     end) es)
      end
  end.

Fixpoint height (n : node) : nat :=
  match n with
  | File _ => 0
  | Dir _ es =>
      S ((fix go (es : entries) : nat :=
            match es with
            | [] => 0
            | (_, m) :: es' => Nat.max (height m) (go es')
            end) es)
  end.

Definition is_dir (n : node) : bool :=
  match n with Dir _ _ => true | File _ => false end.

(** What [os.scandir] gives [os.walk]: the names of the directories and
    the names of the other entries. *)
Definition dirs_of (es : entries) : list string :=
  map fst (List.filter (fun e => is_dir (snd e)) es).
Definition files_of (es : entries) : list string :=
  map fst (List.filter (fun e => negb (is_dir (snd e))) es).

(** What [shutil.rmtree] does below and at one entry whose path is
    [path]: the errors it hands to [onerror], in order, and what is left
    of the entry. A locked entry stays; a directory goes when it is
    empty and not locked. *)
Fixpoint rmtree_node (windows : bool) (path : string) (n : node)
    : list exn * option node :=
  match n with
  | File lk =>
      if lk then ([PermissionError path], Some n) else ([], None)
  | Dir lk es =>
      let '(errs, es') :=
        (fix go (es : entries) : list exn * entries :=
           match es with
           | [] => ([], [])
           | (k, m) :: es' =>
               let '(e1, r) := rmtree_node windows (Path.join windows path k) m in
               let '(e2, rest) := go es' in
               (e1 ++ e2,
                match r with Some m' => (k, m') :: rest | None => rest end)
           end) es in
      match es' with
      | [] => if lk then (errs ++ [PermissionError path], Some (Dir lk []))
              else (errs, None)
      | _ => (errs ++ [OSError path], Some (Dir lk es'))
      end
  end.

End FS.

(** ** File operations of the script *)

Definition resolve (path : string) : M (list string) :=
  w ← get; ret (Path.parts (h_windows (w_host w)) path).

(** [os.path.isdir(path)] *)
Definition isdir (path : string) : M bool :=
  w ← get; p ← resolve path;
  ret (match FS.lookup p (w_fs w) with Some (Dir _ _) => true | _ => false end).

(** [os.remove(path)] *)
Definition os_remove (path : string) : M unit :=
  w ← get; p ← resolve path;
  match FS.lookup p (w_fs w) with
  | None => raise (FileNotFoundError path)
  | Some (Dir _ _) =>
      raise (if h_windows (w_host w) then PermissionError path
             else IsADirectoryError path)
  | Some (File true) => raise (PermissionError path)
  | Some (File false) => modify (set_fs (FS.alter p (fun _ => None) (w_fs w)))
  end.

(** [shutil.rmtree(path, onerror=onerror)] *)
Definition shutil_rmtree (path : string) (onerror : exn -> M unit) : M unit :=
  w ← get; p ← resolve path;
  let windows := h_windows (w_host w) in
  match FS.lookup p (w_fs w) with
  | None =>
      (* nothing to scan and nothing to remove *)
      onerror (FileNotFoundError path) ;;
      (if windows then onerror (FileNotFoundError path) else ret tt)
  | Some (File _) =>
      (* os.scandir fails, and then os.rmdir *)
      onerror (NotADirectoryError path) ;; onerror (NotADirectoryError path)
  | Some (Dir lk es) =>
      let '(errs, remains) := FS.rmtree_node windows path (Dir lk es) in
      match p with
      | [] =>
          (* the current directory is emptied but cannot be removed *)
          modify (set_fs (match remains with Some n => n | None => Dir lk [] end)) ;;
          for_each errs onerror ;;
          (match remains with Some _ => ret tt | None => onerror (OSError path) end)
      | _ =>
          modify (set_fs (FS.alter p (fun _ => remains) (w_fs w))) ;;
          for_each errs onerror
      end
  end.

(** [try: m except ...: ...]: [handler e] is the clause that catches [e],
    if there is one *)
Definition try_except {A} (m : M A) (handler : exn -> option (M A)) : M A :=
  fun w =>
    match m w with
    | (Raised e, w') =>
        match handler e with
        | Some h => h w'
        | None => (Raised e, w')
        end
    | r => r
    end.

(** [safe_remove(path)] *)
Definition safe_remove (path : string) : M unit :=
  removed ← try_except (os_remove path ;; ret true)
    (fun e => match e with
              | FileNotFoundError _ => Some (ret false)
              | PermissionError _ => Some (print (ErrStr e) ;; ret false)
              | _ => None
              end);
  if removed : bool then safe_print ("rm " +:+ path) else ret tt.

(** [safe_rmtree(path)] *)
Definition safe_rmtree (path : string) : M unit :=
  let onerror (e : exn) : M unit :=
    if is_FileNotFoundError e then ret tt else print (ErrStr e) in
  existed ← isdir path;
  shutil_rmtree path onerror ;;
  still ← isdir path;
  if existed && negb still then safe_print ("rmdir -f " +:+ path) else ret tt.

(** [for root, dirs, files in os.walk(top): body(root, dirs, files)].
    The directory is listed when the walk reaches it, the body runs, and
    then the walk enters each listed directory; one that cannot be listed
    any more is passed over in silence. *)
Fixpoint walk_from (fuel : nat) (top : string)
    (body : string -> list string -> list string -> M unit) : M unit :=
  match fuel with
  | O => timeout
  | S fuel' =>
      w ← get; p ← resolve top;
      match FS.lookup p (w_fs w) with
      | Some (Dir _ es) =>
          body top (FS.dirs_of es) (FS.files_of es) ;;
          for_each (FS.dirs_of es)
            (fun d => walk_from fuel' (Path.join (h_windows (w_host w)) top d) body)
      | _ => ret tt
      end
  end.

(** [os.walk('.')]: the tree is finite, and its height bounds the walk. *)
Definition os_walk (body : string -> list string -> list string -> M unit)
    : M unit :=
  w ← get; walk_from (S (FS.height (w_fs w))) "." body.

(** [rm(pattern, directory=False)] *)
Definition rm (pattern : string) (directory : bool) : M unit :=
  if negb (Str.has_char "*" pattern) then
    if directory then safe_rmtree pattern else safe_remove pattern
  else
    os_walk (fun root dirs files =>
      w ← get;
      let windows := h_windows (w_host w) in
      let root := Path.normpath windows root in
      if String.prefix ".git/" root then ret tt
      else
        let found := List.filter (fun name => h_fnmatch (w_host w) name pattern)
                       (if directory then dirs else files) in
        for_each found (fun name =>
          let path := Path.join windows root name in
          if directory then
            safe_print ("rmdir -f " +:+ path) ;; safe_rmtree path
          else
            safe_print ("rm " +:+ path) ;; safe_remove path)).

(** [recursive_rm], called with the patterns as its arguments *)
Definition recursive_rm (patterns : list string) : M unit :=
  os_walk (fun root dirs files =>
    w ← get;
    let windows := h_windows (w_host w) in
    let root := Path.normpath windows root in
    if String.prefix ".git/" root then ret tt
    else
      for_each files (fun file =>
        for_each patterns (fun pattern =>
          if h_fnmatch (w_host w) file pattern
          then safe_remove (Path.join windows root file)
          else ret tt)) ;;
      for_each dirs (fun dir =>
        for_each patterns (fun pattern =>
          if h_fnmatch (w_host w) dir pattern
          then safe_rmtree (Path.join windows root dir)
          else ret tt))).

(** ** commands *)

(** The module global [PYTHON], read where a command names it. *)
Definition PYTHON : M string := w ← get; ret (w_PYTHON w).

(** A step whose effects lie outside the model (files outside the tree,
    imported code): only whether it raises is kept, as the host decides. *)
Definition foreign (label : string) : M unit :=
  w ← get;
  match h_foreign (w_host w) label with
  | Some e => raise e
  | None => ret tt
  end.

(** [os.chdir(d)] *)
Definition chdir (d : string) : M unit :=
  w ← get;
  if h_isdir (w_host w) d then modify (set_cwd d)
  else raise (FileNotFoundError d).

(** [build()] *)
Definition build : M unit :=
  py ← PYTHON;
  sh [py; "-c"; "import setuptools"] false ;;
  w ← get;
  let cmd := [py; "setup.py"; "build_ext"; "-i"] ++
             match h_cpu_count (w_host w) with
             | Some (S n) => ["--parallel"; Str.of_nat (S n)]
             | _ => []
             end in
  p ← popen false cmd None;
  try_finally
    (for_each p.1 (fun line =>
       if Str.contains "warning" line then win_colorprint line YELLOW
       else if Str.contains "error" line then win_colorprint line RED
       else print (Text line)) ;;
     if decide (p.2 ≠ 0%Z)
     then win_colorprint "failure" RED ;; sys_exit (ExitCode p.2)
     else ret tt)
    (ret tt)   (* p.terminate(); p.wait(): the child has ended *) ;;
  sh [py; "-c"; "import psutil"] false ;;
  win_colorprint "build + import successful" GREEN.

Definition wheel : M unit :=
  build ;; py ← PYTHON; sh [py; "setup.py"; "bdist_wheel"] false.

Definition upload_wheels : M unit :=
  build ;; py ← PYTHON; sh [py; "-m"; "twine"; "upload"; "dist/*.whl"] false.

Definition install_pip : M unit :=
  py ← PYTHON; w ← get;
  sh [py; Path.join (h_windows (w_host w)) (h_HERE (w_host w)) "install_pip.py"]
     false.

Definition install : M unit :=
  build ;; py ← PYTHON; sh [py; "setup.py"; "develop"; "--user"] false.

(** [clean()] *)
Definition clean : M unit :=
  recursive_rm
    ["$testfn*"; "*.bak"; "*.core"; "*.egg-info"; "*.orig"; "*.pyc"; "*.pyd";
     "*.pyo"; "*.rej"; "*.so"; "*.~"; "*__pycache__"; ".coverage";
     ".failed-tests.txt"; "pytest-cache-files*"] ;;
  safe_rmtree "build" ;;
  safe_rmtree ".coverage" ;;
  safe_rmtree "dist" ;;
  safe_rmtree "docs/_build" ;;
  safe_rmtree "htmlcov" ;;
  safe_rmtree "tmp".

(** [import psutil], as a test: a module that was imported once is found
    again in [sys.modules]. *)
Definition import_psutil : M bool :=
  w ← get;
  if w_psutil_loaded w then ret true
  else if h_psutil_importable (w_host w)
       then modify (set_psutil_loaded true) ;; ret true
       else ret false.

(** The [while True] loop of [uninstall]. *)
Fixpoint uninstall_loop (fuel : nat) : M unit :=
  match fuel with
  | O => timeout
  | S fuel' =>
      found ← import_psutil;
      if found : bool then
        py ← PYTHON;
        sh [py; "-m"; "pip"; "uninstall"; "-y"; "psutil"] false ;;
        uninstall_loop fuel'
      else ret tt
  end.

(** [uninstall()]. The last part, over [site.getsitepackages()], works
    on directories outside the tree and is a [foreign] step. *)
Definition uninstall (fuel : nat) : M unit :=
  clean ;;
  install_pip ;;
  w ← get;
  let here := w_cwd w in
  try_finally (chdir "C:\" ;; uninstall_loop fuel) (chdir here) ;;
  foreign "site-packages".

(** [install_git_hooks()]: copying the hook is a [foreign] step. *)
Definition install_git_hooks : M unit :=
  d ← isdir ".git";
  if d : bool then foreign "git_pre_commit" else ret tt.

Definition install_pydeps_test : M unit :=
  install_pip ;; install_git_hooks ;;
  py ← PYTHON;
  sh [py; "-m"; "pip"; "install"; "--user"; "-U"; "-e"; ".[test]"] false.

Definition install_pydeps_dev : M unit :=
  install_pip ;; install_git_hooks ;;
  py ← PYTHON;
  sh [py; "-m"; "pip"; "install"; "--user"; "-U"; "-e"; ".[dev]"] false.

(** [test(args=None)] *)
Definition test (args : option (list string)) : M unit :=
  build ;;
  let args := match args with Some (x :: xs) => x :: xs | _ => [] end in
  py ← PYTHON;
  sh ([py; "-m"; "pytest"; "--ignore=psutil/tests/test_memleaks.py"] ++ args)
     false.

Definition test_by_name (arg : string) : M unit :=
  build ;; py ← PYTHON; sh [py; "-m"; "pytest"; arg] false.

Definition test_by_regex (arg : string) : M unit :=
  build ;; py ← PYTHON; sh ([py; "-m"; "pytest"] ++ ["-k"; arg]) false.

Definition test_parallel : M unit :=
  test (Some ["-n"; "auto"; "--dist"; "loadgroup"]).

Definition coverage : M unit :=
  build ;;
  py ← PYTHON;
  sh [py; "-m"; "coverage"; "run"; "-m"; "pytest"] false ;;
  sh [py; "-m"; "coverage"; "report"] false ;;
  sh [py; "-m"; "coverage"; "html"] false ;;
  sh [py; "-m"; "webbrowser"; "-t"; "htmlcov/index.html"] false.

(** The commands that build and run one test file. *)
Definition pytest_k (file : string) : M unit :=
  build ;; py ← PYTHON; sh [py; "-m"; "pytest"; "-k"; file] false.

Definition test_process : M unit := pytest_k "test_process.py".
Definition test_process_all : M unit := pytest_k "test_process_all.py".
Definition test_system : M unit := pytest_k "test_system.py".
Definition test_platform : M unit := pytest_k "test_windows.py".
Definition test_misc : M unit := pytest_k "test_misc.py".
Definition test_scripts : M unit := pytest_k "test_scripts.py".
Definition test_unicode : M unit := pytest_k "test_unicode.py".
Definition test_connections : M unit := pytest_k "test_connections.py".
Definition test_contracts : M unit := pytest_k "test_contracts.py".
Definition test_testutils : M unit := pytest_k "test_testutils.py".
Definition test_sudo : M unit := pytest_k "test_sudo.py".
Definition test_memleaks : M unit := pytest_k "test_memleaks.py".

Definition test_last_failed : M unit :=
  build ;; test (Some ["--last-failed"]).

Definition bench_oneshot : M unit :=
  py ← PYTHON; sh [py; "scripts\internal\bench_oneshot.py"] false.

Definition bench_oneshot_2 : M unit :=
  py ← PYTHON; sh [py; "scripts\internal\bench_oneshot_2.py"] false.

Definition print_access_denied : M unit :=
  build ;; py ← PYTHON; sh [py; "scripts\internal\print_access_denied.py"] false.

Definition print_api_speed : M unit :=
  build ;; py ← PYTHON; sh [py; "scripts\internal\print_api_speed.py"] false.

(** [print_sysinfo()]: the imported function is a [foreign] step. *)
Definition print_sysinfo : M unit :=
  build ;; foreign "psutil.tests.print_sysinfo".

(** [open(name, "w")] and writing, for a name in the current directory. *)
Definition write_here (name : string) : M unit :=
  w ← get;
  match w_fs w with
  | File _ => raise (NotADirectoryError name)
  | Dir lk es =>
      match FS.child es name with
      | None => modify (set_fs (Dir lk (es ++ [(name, File false)])))
      | Some (File false) => ret tt
      | Some (File true) => raise (PermissionError name)
      | Some (Dir _ _) =>
          raise (if h_windows (w_host w) then PermissionError name
                 else IsADirectoryError name)
      end
  end.

(** [generate_manifest()] *)
Definition generate_manifest : M unit :=
  py ← PYTHON;
  let cmd := [py; "scripts\internal\generate_manifest.py"] in
  p ← popen false cmd None;    (* subprocess.check_output *)
  (if decide (p.2 ≠ 0%Z) then raise (CalledProcessError p.2 cmd) else ret tt) ;;
  write_here "MANIFEST.in".

(** [get_python(path)]: the loop over the known versions. *)
Definition vers : list string := ["310-64"; "311-64"; "312-64"].

Definition pypath (v : string) : string := "C:\\python" +:+ v +:+ "\python.exe".

Fixpoint get_python_loop (h : host) (path : string) (vs : list string)
    : option string :=
  match vs with
  | [] => None       (* the function ends without [return] *)
  | v :: vs' =>
      if Str.contains path (pypath v) && h_isfile h (pypath v)
      then Some (pypath v)
      else get_python_loop h path vs'
  end.

(** [get_python(path)] *)
Definition get_python (h : host) (path : option string) : option string :=
  match path with
  | None => Some (h_executable h)
  | Some path =>
      if negb (Str.truthy path) then Some (h_executable h)
      else if h_isabs h path then Some path
      else get_python_loop h (Str.remove_char "." path) vers
  end.

(** ** The command line *)

(** The command line as argparse sees it once the options are read: the
    value of [-p]/[--python] if it was given, and the positional words. *)
Record cmdline := {
  cl_python : option string;
  cl_words : list string
}.

(** What [parse_args] returns. *)
Record Namespace := {
  ns_command : option string;
  ns_python : option string;
  ns_arg : string          (* only commands that take [arg] have it *)
}.

(** The names given to [sp.add_parser], in order. *)
Definition commands : list string :=
  ["bench-oneshot"; "bench-oneshot_2"; "build"; "clean"; "coverage";
   "generate-manifest"; "help"; "install"; "install-git-hooks";
   "install-pip"; "install-pydeps-dev"; "install-pydeps-test";
   "print-access-denied"; "print-api-speed"; "print-sysinfo";
   "test-parallel"; "test"; "test-by-name"; "test-by-regex";
   "test-connections"; "test-contracts"; "test-last-failed";
   "test-memleaks"; "test-misc"; "test-scripts"; "test-platform";
   "test-process"; "test-process-all"; "test-system"; "test-sudo";
   "test-unicode"; "test-testutils"; "uninstall"; "upload-wheels"; "wheel"].

Definition mem (x : string) (l : list string) : bool :=
  existsb (String.eqb x) l.

(** The sub-parsers that were given the optional positional [arg]. *)
Definition takes_arg (c : string) : bool :=
  mem c ["test"; "test-by-name"; "test-by-regex"].

(** [parser.error(...)]: usage on standard error, status 2. *)
Definition parser_error {A} : M A :=
  modify (add_out (Stderr, Usage)) ;; sys_exit (ExitCode 2).

(** [parser.parse_args()] for this parser. *)
Definition argparse (cl : cmdline) : M Namespace :=
  match cl_words cl with
  | [] => ret {| ns_command := None; ns_python := cl_python cl; ns_arg := "" |}
  | c :: rest =>
      if negb (mem c commands) then parser_error   (* invalid choice *)
      else
        match rest with
        | [] => ret {| ns_command := Some c; ns_python := cl_python cl;
                       ns_arg := "" |}
        | [a] =>
            if takes_arg c
            then ret {| ns_command := Some c; ns_python := cl_python cl;
                        ns_arg := a |}
            else parser_error                      (* unrecognized arguments *)
        | _ => parser_error                        (* unrecognized arguments *)
        end
  end.

(** [parse_args()] *)
Definition parse_args (cl : cmdline) : M Namespace :=
  args ← argparse cl;
  match ns_command args with
  | None => modify (add_out (Stderr, Help)) ;; sys_exit (ExitCode 1)
  | Some c =>
      if String.eqb c "help"
      then modify (add_out (Stderr, Help)) ;; sys_exit (ExitCode 1)
      else ret args
  end.

(** ** The names of the module *)

Inductive attr :=
| Fn0 (run : M unit)                            (* def f(): *)
| FnTest (run : option (list string) -> M unit) (* def test(args=None): *)
| FnArg (run : string -> M unit)                (* def f(arg): *)
| Helper                                        (* a function that is no command *)
| Value.                                        (* an import or a constant *)

(** The names bound at the top of the module, in the order of the source.
    [fuel] bounds the loop of [uninstall]. *)
Definition module_names (fuel : nat) : list (string * attr) :=
  [("argparse", Value); ("atexit", Value); ("ctypes", Value);
   ("fnmatch", Value); ("os", Value); ("shutil", Value); ("site", Value);
   ("subprocess", Value); ("sys", Value);
   ("PYTHON", Value); ("HERE", Value); ("ROOT_DIR", Value);
   ("WINDOWS", Value); ("_cmds", Value);
   ("GREEN", Value); ("LIGHTBLUE", Value); ("YELLOW", Value); ("RED", Value);
   ("DEFAULT_COLOR", Value);
   ("safe_print", Helper); ("stderr_handle", Helper);
   ("win_colorprint", Helper); ("sh", Helper); ("rm", Helper);
   ("safe_remove", Helper); ("safe_rmtree", Helper); ("recursive_rm", Helper);
   ("build", Fn0 build); ("wheel", Fn0 wheel);
   ("upload_wheels", Fn0 upload_wheels); ("install_pip", Fn0 install_pip);
   ("install", Fn0 install); ("uninstall", Fn0 (uninstall fuel));
   ("clean", Fn0 clean);
   ("install_pydeps_test", Fn0 install_pydeps_test);
   ("install_pydeps_dev", Fn0 install_pydeps_dev);
   ("test", FnTest test); ("test_by_name", FnArg test_by_name);
   ("test_by_regex", FnArg test_by_regex);
   ("test_parallel", Fn0 test_parallel); ("coverage", Fn0 coverage);
   ("test_process", Fn0 test_process);
   ("test_process_all", Fn0 test_process_all);
   ("test_system", Fn0 test_system); ("test_platform", Fn0 test_platform);
   ("test_misc", Fn0 test_misc); ("test_scripts", Fn0 test_scripts);
   ("test_unicode", Fn0 test_unicode);
   ("test_connections", Fn0 test_connections);
   ("test_contracts", Fn0 test_contracts);
   ("test_testutils", Fn0 test_testutils); ("test_sudo", Fn0 test_sudo);
   ("test_last_failed", Fn0 test_last_failed);
   ("test_memleaks", Fn0 test_memleaks);
   ("install_git_hooks", Fn0 install_git_hooks);
   ("bench_oneshot", Fn0 bench_oneshot);
   ("bench_oneshot_2", Fn0 bench_oneshot_2);
   ("print_access_denied", Fn0 print_access_denied);
   ("print_api_speed", Fn0 print_api_speed);
   ("print_sysinfo", Fn0 print_sysinfo);
   ("generate_manifest", Fn0 generate_manifest);
   ("get_python", Helper); ("parse_args", Helper); ("main", Helper)].

(** The binding of [name] among [defs]: a later one replaces an earlier. *)
Fixpoint binding (defs : list (string * attr)) (name : string) : option attr :=
  match defs with
  | [] => None
  | (k, a) :: defs' =>
      match binding defs' name with
      | Some a' => Some a'
      | None => if String.eqb k name then Some a else None
      end
  end.

(** [getattr(sys.modules[__name__], name)] *)
Definition getattr (fuel : nat) (name : string) : M attr :=
  match binding (module_names fuel) name with
  | Some a => ret a
  | None => raise (AttributeError name)
  end.

(** [fun()] *)
Definition call0 (name : string) (f : attr) : M unit :=
  match f with
  | Fn0 run => run
  | FnTest run => run None
  | FnArg _ => raise (TypeError name)     (* a required argument is missing *)
  | Helper => raise (TypeError name)      (* never the target of a command *)
  | Value => raise (TypeError name)       (* not callable *)
  end.

(** [main()] *)
Definition main (fuel : nat) (cl : cmdline) : M unit :=
  args ← parse_args cl;
  w ← get;
  (* set python exe *)
  match get_python (w_host w) (ns_python args) with
  | Some py =>
      if Str.truthy py then
        modify (set_PYTHON py) ;;
        modify (fun w => set_penv (<["PYTHON" := py]> (w_penv w)) w) ;;
        win_colorprint ("using " +:+ py) LIGHTBLUE ;;
        let command := default "" (ns_command args) in
        let fname := Str.replace_char "-" "_" command in
        fn ← getattr fuel fname;    (* err if fun not defined *)
        if String.eqb command "test" && Str.truthy (ns_arg args) then
          sh [py; ns_arg args] false    (* test a script *)
        else if String.eqb command "test-by-name" then
          test_by_name (ns_arg args)
        else if String.eqb command "test-by-regex" then
          test_by_regex (ns_arg args)
        else call0 fname fn
      else
        sys_exit (ExitText "can't find any python installation matching "
                    (ns_python args))
  | None =>
      sys_exit (ExitText "can't find any python installation matching "
                  (ns_python args))
  end.

(** [import] of the module in a fresh interpreter: the environment of the
    caller is both [os.environ] and the environment block, and [PYTHON]
    is [os.getenv('PYTHON', sys.executable)]. *)
Definition start (h : host) (env : gmap string string) (cwd : string)
    (fs : node) : World :=
  {| w_host := h; w_environ := env; w_penv := env;
     w_PYTHON := default (h_executable h) (env !! "PYTHON");
     w_cwd := cwd; w_fs := fs; w_children := []; w_out := [];
     w_psutil_loaded := false |}.

(** ** A host for the examples *)

(** A matcher for patterns made of [*], [?] and plain characters. *)
Fixpoint glob (pat : string) : string -> bool :=
  match pat with
  | EmptyString => fun name => negb (Str.truthy name)
  | String c pat' =>
      if Ascii.eqb c "*" then
        fix star (name : string) : bool :=
          glob pat' name ||
          match name with
          | EmptyString => false
          | String _ name' => star name'
          end
      else
        fun name =>
          match name with
          | EmptyString => false
          | String x name' => (Ascii.eqb c "?" || Ascii.eqb x c) && glob pat' name'
          end
  end.

(** A POSIX host with four processors where every child ends with [rc]. *)
Definition demo_host (rc : nat -> list string -> Z) (isfile : string -> bool)
    : host :=
  {| h_windows := false;
     h_executable := "/usr/bin/python3";
     h_cpu_count := Some 4;
     h_isabs := String.prefix "/";
     h_isfile := isfile;
     h_isdir := fun _ => true;
     h_site_packages := [];
     h_fnmatch := fun name pat => glob pat name;
     h_HERE := "/repo/scripts/internal";
     h_ROOT_DIR := "/repo";
     h_popen := fun n cmd => Started [] (rc n cmd);
     h_psutil_importable := false;
     h_foreign := fun _ => None |}.

(** The same host under Windows conventions for paths. *)
Definition demo_host_nt (rc : nat -> list string -> Z) : host :=
  {| h_windows := true;
     h_executable := "C:\Python312\python.exe";
     h_cpu_count := Some 4;
     h_isabs := fun s => String.prefix "C:\" s;
     h_isfile := fun _ => false;
     h_isdir := fun _ => true;
     h_site_packages := [];
     h_fnmatch := fun name pat => glob pat name;
     h_HERE := "C:\repo\scripts\internal";
     h_ROOT_DIR := "C:\repo";
     h_popen := fun n cmd => Started [] (rc n cmd);
     h_psutil_importable := false;
     h_foreign := fun _ => None |}.

(** ** Notions used by the statements *)

(** A candidate version is taken when its path contains the shorthand
    and is a file. *)
Definition taken (h : host) (s v : string) : bool :=
  Str.contains s (pypath v) && h_isfile h (pypath v).

(** The name that [main] looks up for a command. *)
Definition fname (command : string) : string :=
  Str.replace_char "-" "_" command.

(** A name bound to a function that is a command of the script. *)
Definition is_task (a : attr) : bool :=
  match a with
  | Fn0 _ | FnTest _ | FnArg _ => true
  | Helper | Value => false
  end.

(** How many top-level definitions of the module bind [name]. *)
Definition count_defs (defs : list (string * attr)) (name : string) : nat :=
  length (List.filter (fun d => String.eqb (fst d) name) defs).

(** Dispatch of the command [c] finds exactly one task: its name is
    bound once in the module, and to a task. *)
Definition resolves_to_one_task (fuel : nat) (c : string) : Prop :=
  count_defs (module_names fuel) (fname c) = 1%nat /\
  exists a : attr,
    binding (module_names fuel) (fname c) = Some a /\ is_task a = true.

Definition resolves_to_one_taskb (fuel : nat) (c : string) : bool :=
  Nat.eqb (count_defs (module_names fuel) (fname c)) 1 &&
  match binding (module_names fuel) (fname c) with
  | Some a => is_task a
  | None => false
  end.

(** A working tree with compiled files inside and outside [.git]. *)
Definition demo_tree : node :=
  Dir false
    [(".git", Dir false
        [("a.pyc", File false);
         ("hooks", Dir false [("b.pyc", File false)])]);
     ("x.pyc", File false);
     ("keep.txt", File false)].

(** A child spawned by [sh] that ended with a non-zero code. *)
Definition failed_sh (c : child) : bool :=
  c_via_sh c &&
  match c_returncode c with
  | Some n => negb (Z.eqb n 0)
  | None => false
  end.

(** No child of the list is a failed [sh] child. *)
Definition quiet (new : list child) : Prop :=
  Forall (fun c => failed_sh c = false) new.

(** The list ends with an [sh] child of code [n <> 0], no earlier child
    is a failed [sh] child, and the outcome is [sys.exit(n)]. *)
Definition aborted {A} (new : list child) (r : outcome A) : Prop :=
  exists (pre : list child) (c : child) (n : Z),
    new = pre ++ [c] /\ quiet pre /\
    c_via_sh c = true /\ c_returncode c = Some n /\ n <> 0%Z /\
    r = SysExit (ExitCode n).

(** The current directory exists. *)
Definition cwd_ok (w : World) : Prop :=
  h_isdir (w_host w) (w_cwd w) = true.

(** A computation under the discipline of [sh], from the world [w]: it
    only adds children, and either none of them is a failed [sh] child or
    the last one is, and the computation ends there with that child's
    code. *)
Definition disciplined_at {A} (m : M A) (w : World) : Prop :=
  cwd_ok w ->
  exists new : list child,
    w_children (m w).2 = w_children w ++ new /\
    w_host (m w).2 = w_host w /\
    cwd_ok (m w).2 /\
    (quiet new \/ aborted new (m w).1).

Definition disciplined {A} (m : M A) : Prop :=
  forall w : World, disciplined_at m w.

(** A computation that spawns nothing and stays where it is. *)
Definition silent {A} (m : M A) : Prop :=
  forall w : World,
    w_children (m w).2 = w_children w /\
    w_host (m w).2 = w_host w /\
    w_cwd (m w).2 = w_cwd w.

(** A host whose third child ends with code 3. *)
Definition failing_host : host :=
  demo_host (fun n _ => if Nat.eqb n 2 then 3%Z else 0%Z) (fun _ => false).

(** A host on which every child ends with code 0. *)
Definition calm_host : host :=
  demo_host (fun _ _ => 0%Z) (fun _ => false).

(** Printing a list of messages, oldest first. *)
Fixpoint add_outs (os : list (stream * message)) (w : World) : World :=
  match os with
  | [] => w
  | o :: os' => add_outs os' (add_out o w)
  end.

(** Every child ends with code 0 on this host. *)
Definition calm (h : host) : Prop :=
  forall (n : nat) (cmd : list string),
    exists out : list string, h_popen h n cmd = Started out 0%Z.

(** [w'] comes after [w]: same host, interpreter, [os.environ] and
    directory, and the children with the commands [cmds] were added. *)
Definition extends (w w' : World) (cmds : list (list string)) : Prop :=
  w_host w' = w_host w /\ w_PYTHON w' = w_PYTHON w /\
  w_environ w' = w_environ w /\ w_cwd w' = w_cwd w /\
  map c_cmd (w_children w') = map c_cmd (w_children w) ++ cmds.

(** ** Well-formed trees and what cleanup does to them *)

(** A name that a directory entry can have: not empty, not [.] or [..],
    and without a separator. *)
Fixpoint no_sep (windows : bool) (s : string) : bool :=
  match s with
  | EmptyString => true
  | String c s' => negb (Path.is_sep windows c) && no_sep windows s'
  end.

Definition name_ok (windows : bool) (name : string) : bool :=
  Path.proper name && negb (String.eqb name "..") && no_sep windows name.

(** A tree as the file system keeps it: in every directory the names are
    proper and distinct. *)
Fixpoint wf (windows : bool) (n : node) : Prop :=
  match n with
  | File _ => True
  | Dir _ es =>
      List.NoDup (map fst es) /\
      (fix all (es : FS.entries) : Prop :=
         match es with
         | [] => True
         | (k, m) :: es' => name_ok windows k = true /\ wf windows m /\ all es'
         end) es
  end.

Definition good (w : World) : Prop := wf (h_windows (w_host w)) (w_fs w).

Definition same_kind (n n' : node) : Prop :=
  match n, n' with
  | File lk, File lk' => lk = lk'
  | Dir _ _, Dir _ _ => True
  | _, _ => False
  end.

(** [t'] is [t] after removals: what [t'] has, [t] has, of the same
    kind; and every locked file of [t] is still in [t']. *)
Definition shrinks (t t' : node) : Prop :=
  (forall (p : list string) (n' : node),
     FS.lookup p t' = Some n' ->
     exists n : node, FS.lookup p t = Some n /\ same_kind n n') /\
  (forall p : list string,
     FS.lookup p t = Some (File true) -> FS.lookup p t' = Some (File true)).

(** No locked file anywhere in the tree. *)
Definition unlocked (t : node) : Prop :=
  forall p : list string, FS.lookup p t <> Some (File true).

(** One or more steps of cleanup lead from [w] to [w']. *)
Definition steps (w w' : World) : Prop :=
  good w' /\
  w_host w' = w_host w /\
  w_children w' = w_children w /\
  (exists os, w_out w' = w_out w ++ os) /\
  shrinks (w_fs w) (w_fs w').

(** The path that [os.walk('.')] reports for the directory with the
    components [p]. *)
Definition walk_root (windows : bool) (p : list string) : string :=
  fold_left (Path.join windows) p ".".

(** The path that [shutil.rmtree] reports for what lies [rest] below
    [path]. *)
Definition below (windows : bool) (path : string) (rest : list string)
    : string :=
  fold_left (Path.join windows) rest path.

(** [name] matches one of the patterns. *)
Definition matches (h : host) (patterns : list string) (name : string)
    : Prop :=
  exists pat : string, In pat patterns /\ h_fnmatch h name pat = true.

(** What cleanup owes a file at the components [q]: a locked file is
    reported, with the path [line] under which cleanup reached it; any
    other file is gone. *)
Definition settled (q : list string) (line : string) (locked : bool)
    (w : World) : Prop :=
  if locked then In (Stdout, ErrStr (PermissionError line)) (w_out w)
  else FS.lookup q (w_fs w) = None.

(** The body of the loop of [recursive_rm] over [os.walk('.')]. *)
Definition recursive_rm_body (patterns : list string)
    : string -> list string -> list string -> M unit :=
  fun root dirs files =>
    w ← get;
    let windows := h_windows (w_host w) in
    let root := Path.normpath windows root in
    if String.prefix ".git/" root then ret tt
    else
      for_each files (fun file =>
        for_each patterns (fun pattern =>
          if h_fnmatch (w_host w) file pattern
          then safe_remove (Path.join windows root file)
          else ret tt)) ;;
      for_each dirs (fun dir =>
        for_each patterns (fun pattern =>
          if h_fnmatch (w_host w) dir pattern
          then safe_rmtree (Path.join windows root dir)
          else ret tt)).

(** ** Notions used by the proofs about removal *)

(** What [f] may do to the entry it is applied to. *)
Definition removes (windows : bool) (f : node -> option node) (m : node)
    : Prop :=
  match f m with
  | Some m' => shrinks m m' /\ wf windows m'
  | None => unlocked m
  end.

(** The loop of [rmtree_node] over the entries of a directory. *)
Definition rmtree_entries (windows : bool) (path : string)
    : FS.entries -> list exn * FS.entries :=
  fix go (es : FS.entries) : list exn * FS.entries :=
    match es with
    | [] => ([], [])
    | (k, m) :: es' =>
        let '(e1, r) := FS.rmtree_node windows (Path.join windows path k) m in
        let '(e2, rest) := go es' in
        (e1 ++ e2, match r with Some m' => (k, m') :: rest | None => rest end)
    end.

(** What [rmtree_node] guarantees on a well-formed entry. *)
Definition rmtree_ok (windows : bool) (path : string) (n : node) : Prop :=
  removes windows (fun _ => (FS.rmtree_node windows path n).2) n /\
  (forall q, FS.lookup q n = Some (File false) ->
     match (FS.rmtree_node windows path n).2 with
     | Some n' => FS.lookup q n' = None
     | None => True
     end) /\
  (forall q, FS.lookup q n = Some (File true) ->
     In (PermissionError (below windows path q))
        (FS.rmtree_node windows path n).1) /\
  (forall e, In e (FS.rmtree_node windows path n).1 ->
     is_FileNotFoundError e = false).

(** A path that [join] extends by adding a separator. *)
Definition joinable (windows : bool) (s : string) : Prop :=
  Str.truthy s = true /\ Path.ends_with_sep windows s = false.

(** Components that are names of entries. *)
Definition names_ok (windows : bool) (p : list string) : Prop :=
  Forall (fun c => name_ok windows c = true) p.

(** The normal form of the path of the walk. *)
Definition norm (windows : bool) (p : list string) : string :=
  match p with
  | [] => "."
  | _ => String.concat (Path.sep windows) p
  end.

(** A tree with two files that cannot be removed. *)
Definition locked_tree : node :=
  Dir false
    [("a.pyc", File true);
     ("pkg", Dir false
        [("b.pyc", File false);
         ("__pycache__", Dir false
            [("c.pyc", File true); ("d.pyc", File false)]);
         ("mod.py", File false)]);
     ("z.pyc", File false);
     ("keep.txt", File false)].

(** What [recursive_rm] leaves of [locked_tree]. *)
Definition locked_tree_after : node :=
  Dir false
    [("a.pyc", File true);
     ("pkg", Dir false
        [("__pycache__", Dir false [("c.pyc", File true)]);
         ("mod.py", File false)]);
     ("keep.txt", File false)].

(** ** Notions used by the further properties *)

(** What [win_colorprint(s, color)] puts on the console. *)
Definition tinted (windows : bool) (color : Z) (s : string)
    : stream * message :=
  (Stdout, if windows then Coloured (color + 8) s else Text s).

(** What [build] shows for one line of the compiler. *)
Definition shown (windows : bool) (line : string) : stream * message :=
  if Str.contains "warning" line then tinted windows YELLOW line
  else if Str.contains "error" line then tinted windows RED line
  else (Stdout, Text line).

(** The command line of the compile step of [build]. *)
Definition build_ext_cmd (py : string) (cpus : option nat) : list string :=
  [py; "setup.py"; "build_ext"; "-i"] ++
  match cpus with
  | Some (S n) => ["--parallel"; Str.of_nat (S n)]
  | _ => []
  end.

(** The world once [main] has resolved the interpreter [py]: the global
    and the environment block are set and the choice is announced. *)
Definition resolved (py : string) (w : World) : World :=
  (win_colorprint ("using " +:+ py) LIGHTBLUE
     (set_penv (<["PYTHON" := py]> (w_penv w)) (set_PYTHON py w))).2.

(** A POSIX host whose second child, the compiler, prints three lines and
    ends with [rc]; every other child is silent and ends with 0. *)
Definition compiler_host (rc : Z) : host :=
  {| h_windows := false;
     h_executable := "/usr/bin/python3";
     h_cpu_count := Some 4;
     h_isabs := String.prefix "/";
     h_isfile := fun _ => false;
     h_isdir := fun _ => true;
     h_site_packages := [];
     h_fnmatch := fun name pat => glob pat name;
     h_HERE := "/repo/scripts/internal";
     h_ROOT_DIR := "/repo";
     h_popen := fun n cmd =>
       if Nat.eqb n 1
       then Started ["building 'psutil._psutil_linux' extension";
                     "arch.c:10: warning: unused variable";
                     "arch.c:12: error: expected ';'"] rc
       else Started [] 0%Z;
     h_psutil_importable := false;
     h_foreign := fun _ => None |}.

(** A host on which psutil can be imported and every child ends with 0. *)
Definition psutil_host : host :=
  {| h_windows := true;
     h_executable := "C:\Python312\python.exe";
     h_cpu_count := Some 4;
     h_isabs := fun s => String.prefix "C:\" s;
     h_isfile := fun _ => false;
     h_isdir := fun _ => true;
     h_site_packages := [];
     h_fnmatch := fun name pat => glob pat name;
     h_HERE := "C:\repo\scripts\internal";
     h_ROOT_DIR := "C:\repo";
     h_popen := fun _ _ => Started [] 0%Z;
     h_psutil_importable := true;
     h_foreign := fun _ => None |}.

(** A POSIX host: there is no directory [C:\]. *)
Definition posix_host : host :=
  {| h_windows := false;
     h_executable := "/usr/bin/python3";
     h_cpu_count := Some 4;
     h_isabs := String.prefix "/";
     h_isfile := fun _ => false;
     h_isdir := String.prefix "/";
     h_site_packages := [];
     h_fnmatch := fun name pat => glob pat name;
     h_HERE := "/repo/scripts/internal";
     h_ROOT_DIR := "/repo";
     h_popen := fun _ _ => Started [] 0%Z;
     h_psutil_importable := false;
     h_foreign := fun _ => None |}.

(** The child runs the interpreter [py], and it sees the environment
    that its way of spawning gives it: [env] through [sh], [penv]
    otherwise. *)
Definition child_ok (py : string) (env penv : gmap string string)
    (c : child) : Prop :=
  hd "" (c_cmd c) = py /\ c_env c = (if c_via_sh c then env else penv).

(** A computation that leaves [PYTHON], [os.environ] and the environment
    block as they are, and spawns only children that are [child_ok]. *)
Definition orderly (py : string) (env penv : gmap string string) {A}
    (m : M A) : Prop :=
  forall w : World,
    w_PYTHON w = py -> w_environ w = env -> w_penv w = penv ->
    w_PYTHON (m w).2 = py /\ w_environ (m w).2 = env /\
    w_penv (m w).2 = penv /\
    exists new : list child,
      w_children (m w).2 = w_children w ++ new /\
      Forall (child_ok py env penv) new.

(** Nothing is locked in the entry: neither the entry nor anything
    below it. *)
Fixpoint free (n : node) : bool :=
  match n with
  | File lk => negb lk
  | Dir lk es =>
      negb lk &&
      (fix all (es : FS.entries) : bool :=
         match es with
         | [] => true
         | (_, m) :: es' => free m && all es'
         end) es
  end.

(** Two paths of which neither leads to the other. *)
Definition apart (p q : list string) : Prop :=
  ~ p `prefix_of` q /\ ~ q `prefix_of` p.

(** The body of the loop of [rm] over [os.walk('.')]. *)
Definition rm_body (pattern : string) (directory : bool)
    : string -> list string -> list string -> M unit :=
  fun root dirs files =>
    w ← get;
    let windows := h_windows (w_host w) in
    let root := Path.normpath windows root in
    if String.prefix ".git/" root then ret tt
    else
      let found := List.filter (fun name => h_fnmatch (w_host w) name pattern)
                     (if directory then dirs else files) in
      for_each found (fun name =>
        let path := Path.join windows root name in
        if directory then
          safe_print ("rmdir -f " +:+ path) ;; safe_rmtree path
        else
          safe_print ("rm " +:+ path) ;; safe_remove path).

(** From [t] to [t'] no file whose name does not match [pattern] is lost,
    and no directory. *)
Definition kept_files (h : host) (pattern : string) (t t' : node) : Prop :=
  (forall (q : list string) (name : string) (lk : bool),
     h_fnmatch h name pattern = false ->
     FS.lookup (q ++ [name]) t = Some (File lk) ->
     FS.lookup (q ++ [name]) t' = Some (File lk)) /\
  (forall (q : list string) (lk : bool) (es : FS.entries),
     FS.lookup q t = Some (Dir lk es) ->
     exists es', FS.lookup q t' = Some (Dir lk es')).

(** From [t] to [t'] no file is lost that has no directory above it whose
    name matches [pattern]. *)
Definition kept_outside (h : host) (pattern : string) (t t' : node) : Prop :=
  forall (d : list string) (name : string) (lk : bool),
    Forall (fun c => h_fnmatch h c pattern = false) d ->
    FS.lookup (d ++ [name]) t = Some (File lk) ->
    FS.lookup (d ++ [name]) t' = Some (File lk).

(** No pattern of the list matches the name. *)
Definition unmatched (h : host) (patterns : list string) (c : string)
    : Prop :=
  Forall (fun pat => h_fnmatch h c pat = false) patterns.

(** From [t] to [t'] no file is lost whose path has only unmatched
    names: neither the file nor a directory above it matches a
    pattern. *)
Definition kept_unmatched (h : host) (patterns : list string)
    (t t' : node) : Prop :=
  forall (d : list string) (name : string) (lk : bool),
    Forall (unmatched h patterns) (d ++ [name]) ->
    FS.lookup (d ++ [name]) t = Some (File lk) ->
    FS.lookup (d ++ [name]) t' = Some (File lk).

(** The patterns of [clean], and the directories that it removes by
    their paths. *)
Definition clean_patterns : list string :=
  ["$testfn*"; "*.bak"; "*.core"; "*.egg-info"; "*.orig"; "*.pyc"; "*.pyd";
   "*.pyo"; "*.rej"; "*.so"; "*.~"; "*__pycache__"; ".coverage";
   ".failed-tests.txt"; "pytest-cache-files*"].

Definition clean_dirs : list (list string) :=
  [["build"]; [".coverage"]; ["dist"]; ["docs"; "_build"]; ["htmlcov"];
   ["tmp"]].

(** A source tree with build products. *)
Definition source_tree : node :=
  Dir false
    [("psutil", Dir false
        [("__init__.py", File false);
         ("__pycache__", Dir false [("__init__.cpython-312.pyc", File false)]);
         ("_psutil_windows.pyd", File true)]);
     ("build", Dir false [("lib", Dir false [("psutil.py", File false)])]);
     ("docs", Dir false
        [("index.rst", File false);
         ("_build", Dir false [("index.html", File false)])]);
     ("setup.py", File false)].

(** * Properties *)

(** ** Strings *)

Lemma append_nil (b : string) : "" +:+ b = b.
Proof. reflexivity. Qed.

Lemma append_cons (c : ascii) (a b : string) :
  String c a +:+ b = String c (a +:+ b).
Proof. reflexivity. Qed.

Lemma prefix_spec (a s : string) :
  String.prefix a s = true <-> exists b, s = a +:+ b.
Proof.
  revert s; induction a as [|x a IH]; intros s.
  - destruct s; simpl; (split; [intros _; eexists; reflexivity | reflexivity]).
  - destruct s as [|y s]; simpl.
    + split; [discriminate | intros [b Hb]; discriminate].
    + destruct (ascii_dec x y) as [->|Hne].
      * rewrite IH. split; intros [b Hb]; exists b;
          rewrite append_cons in *; congruence.
      * split; [discriminate | intros [b Hb]; rewrite append_cons in Hb; congruence].
Qed.

(** [needle in hay] holds exactly when [hay] is some text, then [needle],
    then some text. *)
Lemma contains_spec (needle hay : string) :
  Str.contains needle hay = true <-> exists a b, hay = a +:+ needle +:+ b.
Proof.
  induction hay as [|y hay IH]; cbn [Str.contains].
  - rewrite orb_false_r, prefix_spec. split.
    + intros [b Hb]. exists "", b. exact Hb.
    + intros (a & b & H). destruct a; [eauto | discriminate].
  - rewrite orb_true_iff, prefix_spec, IH. split.
    + intros [[b Hb] | (a & b & Hb)].
      * exists "", b. exact Hb.
      * exists (String y a), b. rewrite append_cons. congruence.
    + intros (a & b & Hb). destruct a as [|x a].
      * left. eauto.
      * right. exists a, b. rewrite append_cons in Hb. congruence.
Qed.

Lemma remove_char_spec (c : ascii) (s : string) :
  list_ascii_of_string (Str.remove_char c s)
  = List.filter (fun x => negb (Ascii.eqb x c)) (list_ascii_of_string s).
Proof.
  induction s as [|x s IH]; simpl; [reflexivity|].
  destruct (Ascii.eqb x c); simpl; congruence.
Qed.

Lemma remove_char_gone (c : ascii) (s : string) :
  Str.has_char c (Str.remove_char c s) = false.
Proof.
  induction s as [|x s IH]; simpl; [reflexivity|].
  destruct (Ascii.eqb x c) eqn:E; simpl; [assumption|].
  rewrite E. assumption.
Qed.

(** ** Interpreter resolution *)

Section GetPython.

Variable h : host.

Lemma get_python_loop_some (s : string) (vs : list string) (p : string) :
  get_python_loop h s vs = Some p <->
  exists (i : nat) (v : string),
    vs !! i = Some v /\ p = pypath v /\ taken h s v = true /\
    forall (j : nat) (v' : string),
      (j < i)%nat -> vs !! j = Some v' -> taken h s v' = false.
Proof.
  induction vs as [|v0 vs IH]; cbn [get_python_loop].
  - split; [discriminate | intros (i & v & H & _); destruct i; discriminate].
  - fold (taken h s v0). destruct (taken h s v0) eqn:E.
    + split.
      * intros [= <-]. exists 0%nat, v0. repeat split; auto. intros; lia.
      * intros (i & v & Hi & -> & Ht & Hfirst).
        destruct i as [|i]; simpl in Hi; [congruence|].
        specialize (Hfirst 0%nat v0 ltac:(lia) eq_refl). congruence.
    + rewrite IH. split.
      * intros (i & v & Hi & -> & Ht & Hfirst).
        exists (S i), v. repeat split; auto.
        intros [|j] v' Hj Hv'; simpl in Hv'; [congruence|].
        apply (Hfirst j); [lia | assumption].
      * intros (i & v & Hi & -> & Ht & Hfirst).
        destruct i as [|i]; simpl in Hi; [congruence|].
        exists i, v. repeat split; auto.
        intros j v' Hj Hv'. apply (Hfirst (S j)); [lia | assumption].
Qed.

Lemma get_python_loop_none (s : string) (vs : list string) :
  get_python_loop h s vs = None <->
  forall v : string, In v vs -> taken h s v = false.
Proof.
  induction vs as [|v0 vs IH]; cbn [get_python_loop].
  - split; [intros _ v [] | reflexivity].
  - fold (taken h s v0). destruct (taken h s v0) eqn:E.
    + split; [discriminate | intros H; specialize (H v0 (or_introl eq_refl)); congruence].
    + rewrite IH. split.
      * intros H v [<-|Hv]; auto.
      * intros H v Hv. apply H. right. assumption.
Qed.

End GetPython.

(** C10: for a shorthand (a non-empty path that is not absolute) the
    dots are stripped first; the result is the path of the first version
    of ['310-64', '311-64', '312-64'], in that order, whose path contains
    the stripped shorthand and is a file; there is no result exactly when
    no version qualifies. So a shorthand found in several paths resolves
    to the earliest one that exists. *)
Theorem get_python_shorthand (h : host) (path : string) :
  Str.truthy path = true -> h_isabs h path = false ->
  let s := Str.remove_char "." path in
  Str.has_char "." s = false /\
  list_ascii_of_string s
    = List.filter (fun x => negb (Ascii.eqb x ".")) (list_ascii_of_string path) /\
  vers = ["310-64"; "311-64"; "312-64"] /\
  (forall p : string,
     get_python h (Some path) = Some p <->
     exists (i : nat) (v : string),
       vers !! i = Some v /\ p = pypath v /\
       Str.contains s p = true /\ h_isfile h p = true /\
       forall (j : nat) (v' : string),
         (j < i)%nat -> vers !! j = Some v' ->
         Str.contains s (pypath v') && h_isfile h (pypath v') = false) /\
  (get_python h (Some path) = None <->
   forall v : string, In v vers ->
     Str.contains s (pypath v) && h_isfile h (pypath v) = false).
Proof.
  intros Ht Habs s.
  assert (Hgp : get_python h (Some path) = get_python_loop h s vers).
  { unfold get_python. rewrite Ht, Habs. reflexivity. }
  split; [apply remove_char_gone|].
  split; [apply remove_char_spec|].
  split; [reflexivity|].
  rewrite Hgp. split.
  - intros p. rewrite get_python_loop_some. unfold taken.
    split; intros (i & v & Hi & -> & Hc & Hfirst); exists i, v.
    + apply andb_true_iff in Hc. tauto.
    + repeat split; try tauto. apply andb_true_iff. tauto.
  - apply get_python_loop_none.
Qed.

Lemma get_python_shorthand_witness :
  get_python
    (demo_host (fun _ _ => 0%Z)
       (fun p => String.eqb p (pypath "311-64") || String.eqb p (pypath "312-64")))
    (Some "3.1")
  = Some "C:\\python311-64\python.exe".
Proof.
  apply (get_python_shorthand
           (demo_host (fun _ _ => 0%Z)
              (fun p => String.eqb p (pypath "311-64")
                        || String.eqb p (pypath "312-64")))
           "3.1" eq_refl eq_refl).
  exists 1%nat, "311-64".
  repeat split.
  intros [|j] v' Hj Hv'; [|lia].
  injection Hv' as <-. reflexivity.
Defined.

(** ** The parser *)

Ltac run :=
  unfold mbind, M_bind, bind, ret, get, modify, raise, sys_exit, timeout in *;
  cbn beta iota in *.

(** [parse_args] either returns a command of the enumeration other than
    [help] and leaves the world as it was, or prints on standard error
    and exits with status 1 or 2. *)
Lemma parse_args_cases (cl : cmdline) (w : World) :
  (exists args c,
     parse_args cl w = (Ret args, w) /\
     ns_python args = cl_python cl /\
     ns_command args = Some c /\ String.eqb c "help" = false /\
     mem c commands = true /\
     (cl_words cl = [c] /\ ns_arg args = "" \/
      cl_words cl = [c; ns_arg args] /\ takes_arg c = true)) \/
  (exists o, parse_args cl w = (SysExit (ExitCode 1), add_out (Stderr, o) w)) \/
  (exists o, parse_args cl w = (SysExit (ExitCode 2), add_out (Stderr, o) w)).
Proof.
  unfold parse_args, argparse, parser_error.
  destruct (cl_words cl) as [|c rest] eqn:Hw; run.
  - right; left; eauto.
  - destruct (mem c commands) eqn:Hc; simpl; [|right; right; eauto].
    destruct rest as [|a [|b rest]]; simpl.
    + destruct (String.eqb c "help") eqn:Hh; simpl.
      * right; left; eauto.
      * left. eexists _, c. repeat split; eauto.
    + destruct (takes_arg c) eqn:Ha; simpl; [|right; right; eauto].
      destruct (String.eqb c "help") eqn:Hh; simpl.
      * right; left; eauto.
      * left. eexists _, c. repeat split; eauto.
    + right; right; eauto.
Qed.

(** C4: interpreter resolution returns an absolute path as it is given;
    for a shorthand of which some known installation qualifies it returns
    one that qualifies; with no argument (missing or empty) it returns the
    running interpreter; and when a non-empty argument resolves to
    nothing the dispatcher exits with a text that names the argument and
    a non-zero status, without spawning a child, touching the tree or
    the environment. *)
Theorem get_python_resolution (h : host) :
  (forall path : string,
     Str.truthy path = true -> h_isabs h path = true ->
     get_python h (Some path) = Some path) /\
  (forall path v : string,
     Str.truthy path = true -> h_isabs h path = false ->
     In v vers ->
     Str.contains (Str.remove_char "." path) (pypath v) = true ->
     h_isfile h (pypath v) = true ->
     exists v' : string,
       In v' vers /\ get_python h (Some path) = Some (pypath v') /\
       Str.contains (Str.remove_char "." path) (pypath v') = true /\
       h_isfile h (pypath v') = true) /\
  get_python h None = Some (h_executable h) /\
  get_python h (Some "") = Some (h_executable h) /\
  (forall (fuel : nat) (cl : cmdline) (w : World) (path : string),
     w_host w = h -> cl_python cl = Some path -> Str.truthy path = true ->
     get_python h (Some path) = None ->
     let r := main fuel cl w in
     w_children r.2 = w_children w /\ w_fs r.2 = w_fs w /\
     w_penv r.2 = w_penv w /\
     (exists s : Z, exit_status r.1 = Some s /\ s <> 0%Z) /\
     (forall args : Namespace,
        (parse_args cl w).1 = Ret args ->
        r = (SysExit (ExitText "can't find any python installation matching "
                        (Some path)), w))).
Proof.
  split; [|split; [|split; [|split]]].
  - intros path Ht Habs. unfold get_python. rewrite Ht, Habs. reflexivity.
  - intros path v Ht Habs Hv Hc Hf.
    destruct (get_python_shorthand h path Ht Habs)
      as (_ & _ & _ & Hsome & Hnone).
    destruct (get_python h (Some path)) as [p|] eqn:Hgp.
    + destruct (proj1 (Hsome p) eq_refl) as (i & v' & Hi & -> & Hc' & Hf' & _).
      exists v'. repeat split; auto.
      apply list_elem_of_In. eapply list_elem_of_lookup_2. exact Hi.
    + pose proof (proj1 Hnone eq_refl v Hv) as Hno.
      rewrite Hc, Hf in Hno. discriminate.
  - reflexivity.
  - reflexivity.
  - intros fuel cl w path Hh Hp Ht Hnone r. subst r h.
    unfold main.
    destruct (parse_args_cases cl w)
      as [(args & c & Hpa & Hpy & _) | [(o & Hpa) | (o & Hpa)]];
      run; rewrite Hpa; cbn beta iota.
    + rewrite Hpy, Hp, Hnone. cbn.
      repeat split; auto.
      exists 1%Z. split; [reflexivity | discriminate].
    + cbn. repeat split; auto.
      * exists 1%Z. split; [reflexivity | discriminate].
      * discriminate.
    + cbn. repeat split; auto.
      * exists 2%Z. split; [reflexivity | discriminate].
      * discriminate.
Qed.

Lemma get_python_resolution_witness :
  main 0 {| cl_python := Some "9.9"; cl_words := ["build"] |}
    (start (demo_host (fun _ _ => 0%Z) (fun _ => false)) ∅ "/repo" (Dir false []))
  = (SysExit (ExitText "can't find any python installation matching "
                (Some "9.9")),
     start (demo_host (fun _ _ => 0%Z) (fun _ => false)) ∅ "/repo" (Dir false [])).
Proof.
  apply (proj2 (proj2 (proj2 (proj2
           (get_python_resolution (demo_host (fun _ _ => 0%Z) (fun _ => false))))))
           0%nat {| cl_python := Some "9.9"; cl_words := ["build"] |}
           (start (demo_host (fun _ _ => 0%Z) (fun _ => false)) ∅ "/repo"
              (Dir false []))
           "9.9" eq_refl eq_refl eq_refl eq_refl)
    with (args := {| ns_command := Some "build"; ns_python := Some "9.9";
                     ns_arg := "" |}).
  reflexivity.
Defined.

(** C8: with no command, or with the command [help], the dispatcher
    prints the help on standard error and exits with status 1; nothing
    else changes: no interpreter is resolved and no task runs. *)
Theorem no_command_or_help (fuel : nat) (cl : cmdline) (w : World) :
  cl_words cl = [] \/ cl_words cl = ["help"] ->
  main fuel cl w = (SysExit (ExitCode 1), add_out (Stderr, Help) w) /\
  exit_status (main fuel cl w).1 = Some 1%Z /\
  w_PYTHON (main fuel cl w).2 = w_PYTHON w /\
  w_penv (main fuel cl w).2 = w_penv w /\
  w_children (main fuel cl w).2 = w_children w /\
  w_fs (main fuel cl w).2 = w_fs w.
Proof.
  intros H.
  assert (E : main fuel cl w = (SysExit (ExitCode 1), add_out (Stderr, Help) w)).
  { unfold main, parse_args, argparse. destruct H as [-> | ->]; reflexivity. }
  rewrite E. repeat split.
Qed.

Lemma no_command_or_help_witness :
  main 0 {| cl_python := None; cl_words := ["help"] |}
    (start (demo_host (fun _ _ => 0%Z) (fun _ => false)) ∅ "/repo" (Dir false []))
  = (SysExit (ExitCode 1),
     add_out (Stderr, Help)
       (start (demo_host (fun _ _ => 0%Z) (fun _ => false)) ∅ "/repo"
          (Dir false []))).
Proof.
  apply (no_command_or_help 0 {| cl_python := None; cl_words := ["help"] |}).
  right. reflexivity.
Defined.

(** ** Dispatch *)

Lemma resolves_to_one_taskb_spec (fuel : nat) (c : string) :
  resolves_to_one_taskb fuel c = true <-> resolves_to_one_task fuel c.
Proof.
  unfold resolves_to_one_taskb, resolves_to_one_task.
  rewrite andb_true_iff, Nat.eqb_eq.
  destruct (binding (module_names fuel) (fname c)) as [a|].
  - split.
    + intros [H1 H2]. eauto.
    + intros [H1 (a' & [= <-] & H2)]. auto.
  - split; [intros [_ H]; discriminate | intros [_ (a & H & _)]; discriminate].
Qed.

Lemma commands_resolve (fuel : nat) :
  forallb (fun c => String.eqb c "help" || resolves_to_one_taskb fuel c)
    commands = true.
Proof. vm_compute. reflexivity. Qed.

Lemma mem_In (x : string) (l : list string) : mem x l = true <-> In x l.
Proof.
  unfold mem. rewrite existsb_exists. split.
  - intros (y & Hy & E). apply String.eqb_eq in E. subst. assumption.
  - intros H. exists x. split; [assumption | apply String.eqb_refl].
Qed.

Lemma NoDup_map_inj {A B} (f : A -> B) (l : list A) (x y : A) :
  List.NoDup (map f l) -> In x l -> In y l -> f x = f y -> x = y.
Proof.
  induction l as [|a l IH]; simpl; [tauto|].
  intros Hnd Hx Hy E. inversion Hnd as [|? ? Hnot Hnd']; subst.
  destruct Hx as [->|Hx], Hy as [->|Hy]; auto.
  - exfalso. apply Hnot. rewrite E. apply in_map. assumption.
  - exfalso. apply Hnot. rewrite <- E. apply in_map. assumption.
Qed.

Lemma fnames_distinct : List.NoDup (map fname commands).
Proof.
  apply NoDup_ListNoDup. apply (bool_decide_unpack _). vm_compute. exact I.
Qed.

(** C7, as stated, fails at [help]: it is one of the names the parser
    accepts, and the module binds no function of that name. *)
Lemma help_has_no_task :
  In "help" commands /\ ~ resolves_to_one_task 0 "help".
Proof.
  split.
  - apply mem_In. reflexivity.
  - intros H. apply resolves_to_one_taskb_spec in H. discriminate.
Qed.

(** C7, amended: every command of the enumeration other than [help]
    resolves, by its name with [-] replaced by [_], to exactly one task,
    and two commands never resolve to the same name; [help] is answered
    by the parser (help on standard error, status 1); a word outside the
    enumeration is refused by the parser (status 2); so a command that
    reaches dispatch is in the enumeration and is not [help]. *)
Theorem dispatch_resolves_commands (fuel : nat) :
  (forall c : string,
     In c commands -> c <> "help" -> resolves_to_one_task fuel c) /\
  (forall c c' : string,
     In c commands -> In c' commands -> fname c = fname c' -> c = c') /\
  (forall (cl : cmdline) (w : World),
     cl_words cl = ["help"] ->
     main fuel cl w = (SysExit (ExitCode 1), add_out (Stderr, Help) w)) /\
  (forall (cl : cmdline) (w : World) (c : string) (rest : list string),
     cl_words cl = c :: rest -> ~ In c commands ->
     main fuel cl w = (SysExit (ExitCode 2), add_out (Stderr, Usage) w)) /\
  (forall (cl : cmdline) (w : World) (args : Namespace),
     (parse_args cl w).1 = Ret args ->
     exists c : string,
       ns_command args = Some c /\ In c commands /\ c <> "help").
Proof.
  split; [|split; [|split; [|split]]].
  - intros c Hc Hne.
    pose proof (proj1 (forallb_forall _ _) (commands_resolve fuel) c Hc) as H.
    apply orb_true_iff in H. destruct H as [H|H].
    + apply String.eqb_eq in H. contradiction.
    + apply resolves_to_one_taskb_spec. exact H.
  - intros c c'. apply NoDup_map_inj. exact fnames_distinct.
  - intros cl w H. unfold main, parse_args, argparse. rewrite H. reflexivity.
  - intros cl w c rest H Hc.
    assert (Hm : mem c commands = false).
    { destruct (mem c commands) eqn:E; [|reflexivity].
      apply mem_In in E. contradiction. }
    unfold main, parse_args, argparse, parser_error. rewrite H. run.
    rewrite Hm. reflexivity.
  - intros cl w args H.
    destruct (parse_args_cases cl w)
      as [(args' & c & Hpa & _ & Hcmd & Hh & Hm & _) | [(o & Hpa) | (o & Hpa)]];
      rewrite Hpa in H; simpl in H; try discriminate.
    injection H as <-. exists c. repeat split; auto.
    + apply mem_In. exact Hm.
    + intros ->. discriminate.
Qed.

Lemma dispatch_resolves_commands_witness :
  resolves_to_one_task 0 "test-by-name".
Proof.
  apply (proj1 (dispatch_resolves_commands 0) "test-by-name").
  - apply mem_In. reflexivity.
  - discriminate.
Defined.

(** ** Cleanup of what does not exist *)



(** ** Computations that spawn nothing *)

Lemma silent_ret {A} (a : A) : silent (ret a).
Proof. intros w. repeat split. Qed.

Lemma silent_get : silent get.
Proof. intros w. repeat split. Qed.

Lemma silent_raise {A} (e : exn) : silent (@raise A e).
Proof. intros w. repeat split. Qed.

Lemma silent_sys_exit {A} (c : exit_arg) : silent (@sys_exit A c).
Proof. intros w. repeat split. Qed.

Lemma silent_timeout {A} : silent (@timeout A).
Proof. intros w. repeat split. Qed.

Lemma silent_modify (f : World -> World) :
  (forall w, w_children (f w) = w_children w /\ w_host (f w) = w_host w /\
             w_cwd (f w) = w_cwd w) ->
  silent (modify f).
Proof. intros H w. apply H. Qed.

Lemma silent_bind {A B} (m : M A) (k : A -> M B) :
  silent m -> (forall a, silent (k a)) -> silent (m ≫= k).
Proof.
  intros Hm Hk w. specialize (Hm w).
  unfold mbind, M_bind, bind. destruct (m w) as [[a| | |] w1]; simpl in *;
    try exact Hm.
  destruct Hm as (H1 & H2 & H3). destruct (Hk a w1) as (K1 & K2 & K3).
  repeat split; congruence.
Qed.

Lemma silent_for_each {A} (xs : list A) (body : A -> M unit) :
  (forall x, silent (body x)) -> silent (for_each xs body).
Proof.
  intros H. induction xs as [|x xs IH]; simpl.
  - apply silent_ret.
  - apply silent_bind; auto.
Qed.

Lemma silent_try_except {A} (m : M A) (handler : exn -> option (M A)) :
  silent m -> (forall e h, handler e = Some h -> silent h) ->
  silent (try_except m handler).
Proof.
  intros Hm Hh w. specialize (Hm w). unfold try_except.
  destruct (m w) as [[a| |e|] w1]; simpl in *; try exact Hm.
  destruct (handler e) as [h|] eqn:E; [|exact Hm].
  destruct Hm as (H1 & H2 & H3). destruct (Hh e h E w1) as (K1 & K2 & K3).
  repeat split; congruence.
Qed.

Lemma silent_try_finally {A} (m : M A) (fin : M unit) :
  silent m -> silent fin -> silent (try_finally m fin).
Proof.
  intros Hm Hf w. specialize (Hm w). unfold try_finally.
  destruct (m w) as [r w1]. specialize (Hf w1).
  destruct (fin w1) as [[[]| | |] w2]; simpl in *;
    destruct Hm as (H1 & H2 & H3), Hf as (K1 & K2 & K3);
    repeat split; congruence.
Qed.

Create HintDb silent_db.

Ltac silence :=
  repeat first
    [ solve [eauto with silent_db]
    | apply silent_ret | apply silent_get | apply silent_raise
    | apply silent_sys_exit | apply silent_timeout
    | apply silent_modify; intros ?; repeat split; reflexivity
    | apply silent_for_each; intros ?
    | apply silent_try_finally
    | apply silent_bind; [|intros ?]
    | match goal with
      | |- silent (if ?b then _ else _) => destruct b
      | |- silent (match ?x with _ => _ end) => destruct x
      end ].

Lemma silent_print (m : message) : silent (print m).
Proof. unfold print. silence. Qed.
#[local] Hint Resolve silent_print : silent_db.

Lemma silent_safe_print (s : string) : silent (safe_print s).
Proof. unfold safe_print. silence. Qed.
#[local] Hint Resolve silent_safe_print : silent_db.

Lemma silent_win_colorprint (s : string) (c : Z) : silent (win_colorprint s c).
Proof. unfold win_colorprint. silence. Qed.
#[local] Hint Resolve silent_win_colorprint : silent_db.

Lemma silent_resolve (path : string) : silent (resolve path).
Proof. unfold resolve. silence. Qed.
#[local] Hint Resolve silent_resolve : silent_db.

Lemma silent_isdir (path : string) : silent (isdir path).
Proof. unfold isdir. silence. Qed.
#[local] Hint Resolve silent_isdir : silent_db.

Lemma silent_os_remove (path : string) : silent (os_remove path).
Proof. unfold os_remove. silence. Qed.
#[local] Hint Resolve silent_os_remove : silent_db.

Lemma silent_shutil_rmtree (path : string) (onerror : exn -> M unit) :
  (forall e, silent (onerror e)) -> silent (shutil_rmtree path onerror).
Proof.
  intros H. unfold shutil_rmtree.
  apply silent_bind; [silence|intros w].
  apply silent_bind; [silence|intros p].
  destruct (FS.lookup p (w_fs w)) as [[lk|lk es]|]; [silence | | silence].
  destruct (FS.rmtree_node _ _ _) as [errs rest]. silence.
Qed.

Lemma silent_safe_remove (path : string) : silent (safe_remove path).
Proof.
  unfold safe_remove. apply silent_bind; [|intros b; silence].
  apply silent_try_except; [silence|].
  intros e h E. destruct e; inversion E; subst; silence.
Qed.
#[local] Hint Resolve silent_safe_remove : silent_db.

Lemma silent_safe_rmtree (path : string) : silent (safe_rmtree path).
Proof.
  unfold safe_rmtree. apply silent_bind; [silence|intros b].
  apply silent_bind; [|intros []; silence].
  apply silent_shutil_rmtree. intros e. silence.
Qed.
#[local] Hint Resolve silent_safe_rmtree : silent_db.

Lemma silent_walk_from (fuel : nat) (top : string)
    (body : string -> list string -> list string -> M unit) :
  (forall r d f, silent (body r d f)) -> silent (walk_from fuel top body).
Proof.
  intros H. revert top. induction fuel as [|fuel IH]; intros top; simpl.
  - apply silent_timeout.
  - silence.
Qed.

Lemma silent_os_walk (body : string -> list string -> list string -> M unit) :
  (forall r d f, silent (body r d f)) -> silent (os_walk body).
Proof.
  intros H. unfold os_walk. apply silent_bind; [silence|intros w].
  apply silent_walk_from. exact H.
Qed.

Lemma silent_rm (pattern : string) (directory : bool) :
  silent (rm pattern directory).
Proof.
  unfold rm. destruct (negb _); [silence|].
  apply silent_os_walk. intros r d f. silence.
Qed.
#[local] Hint Resolve silent_rm : silent_db.

Lemma silent_recursive_rm (patterns : list string) :
  silent (recursive_rm patterns).
Proof.
  unfold recursive_rm. apply silent_os_walk. intros r d f. silence.
Qed.
#[local] Hint Resolve silent_recursive_rm : silent_db.

Lemma silent_clean : silent clean.
Proof. unfold clean. silence. Qed.
#[local] Hint Resolve silent_clean : silent_db.

Lemma silent_PYTHON : silent PYTHON.
Proof. unfold PYTHON. silence. Qed.
#[local] Hint Resolve silent_PYTHON : silent_db.

Lemma silent_foreign (label : string) : silent (foreign label).
Proof. unfold foreign. silence. Qed.
#[local] Hint Resolve silent_foreign : silent_db.

Lemma silent_import_psutil : silent import_psutil.
Proof. unfold import_psutil. silence. Qed.
#[local] Hint Resolve silent_import_psutil : silent_db.

Lemma silent_write_here (name : string) : silent (write_here name).
Proof. unfold write_here. silence. Qed.
#[local] Hint Resolve silent_write_here : silent_db.

Lemma silent_install_git_hooks : silent install_git_hooks.
Proof. unfold install_git_hooks. silence. Qed.
#[local] Hint Resolve silent_install_git_hooks : silent_db.

Lemma silent_parse_args (cl : cmdline) : silent (parse_args cl).
Proof. unfold parse_args, argparse, parser_error. silence. Qed.
#[local] Hint Resolve silent_parse_args : silent_db.

Lemma silent_getattr (fuel : nat) (name : string) : silent (getattr fuel name).
Proof. unfold getattr. silence. Qed.
#[local] Hint Resolve silent_getattr : silent_db.

(** ** The discipline of [sh] *)

(** What [sh] does, by the way its child ends. *)
Lemma sh_run (cmd : list string) (nolog : bool) (w : World) :
  let w1 := if nolog then w else add_out (Stdout, CmdLine cmd) w in
  let mk rc := {| c_cmd := cmd; c_env := w_environ w; c_cwd := w_cwd w;
                  c_via_sh := true; c_returncode := rc |} in
  sh cmd nolog w =
  match h_popen (w_host w) (length (w_children w)) cmd with
  | Started out rc =>
      (if decide (rc ≠ 0%Z) then SysExit (ExitCode rc) else Ret tt,
       add_child (mk (Some rc)) w1)
  | NotStarted =>
      (Raised (FileNotFoundError (hd "" cmd)), add_child (mk None) w1)
  end.
Proof.
  unfold sh, popen. run.
  destruct nolog; cbn;
    destruct (h_popen (w_host w) (length (w_children w)) cmd) as [out rc|];
    cbn; try reflexivity;
    destruct (decide (rc ≠ 0%Z)); reflexivity.
Qed.

Lemma silent_disciplined {A} (m : M A) : silent m -> disciplined m.
Proof.
  intros H w Hok. destruct (H w) as (H1 & H2 & H3).
  exists []. rewrite app_nil_r. repeat split; auto.
  - unfold cwd_ok. rewrite H2, H3. exact Hok.
  - left. constructor.
Qed.

Lemma disciplined_at_bind {A B} (m : M A) (k : A -> M B) (w : World) :
  disciplined_at m w ->
  (forall a w1, m w = (Ret a, w1) -> disciplined_at (k a) w1) ->
  disciplined_at (m ≫= k) w.
Proof.
  intros Hm Hk Hok.
  destruct (Hm Hok) as (new1 & Hc1 & Hh1 & Hok1 & Hq1).
  unfold mbind, M_bind, bind.
  destruct (m w) as [[a|c|e|] w1]; simpl in *;
    try (exists new1; repeat split; try assumption;
         destruct Hq1 as [Q|(pre & c' & n & E & Qp & Hv & Hr & Hn & Er)];
         [left; exact Q | try discriminate];
         right; exists pre, c', n; repeat split; auto; congruence).
  destruct (Hk a w1 eq_refl Hok1) as (new2 & Hc2 & Hh2 & Hok2 & Hq2).
  assert (Q1 : quiet new1).
  { destruct Hq1 as [Q|(pre & c & n & _ & _ & _ & _ & _ & E)];
      [exact Q | discriminate]. }
  exists (new1 ++ new2). repeat split.
  - rewrite Hc2, Hc1, app_assoc. reflexivity.
  - congruence.
  - exact Hok2.
  - destruct Hq2 as [Q2|(pre & c & n & E & Qp & Hv & Hr & Hn & Er)].
    + left. apply Forall_app. split; assumption.
    + right. exists (new1 ++ pre), c, n. repeat split; auto.
      * rewrite E, app_assoc. reflexivity.
      * apply Forall_app. split; assumption.
Qed.

Lemma disciplined_bind {A B} (m : M A) (k : A -> M B) :
  disciplined m -> (forall a, disciplined (k a)) -> disciplined (m ≫= k).
Proof.
  intros Hm Hk w. apply disciplined_at_bind; [apply Hm|].
  intros a w1 _. apply Hk.
Qed.

Lemma disciplined_sh (cmd : list string) (nolog : bool) :
  disciplined (sh cmd nolog).
Proof.
  intros w Hok. rewrite sh_run.
  destruct (h_popen (w_host w) (length (w_children w)) cmd) as [out rc|].
  - eexists [_]. cbn [snd fst].
    split; [destruct nolog; reflexivity|].
    split; [destruct nolog; reflexivity|].
    split; [destruct nolog; exact Hok|].
    destruct (decide (rc ≠ 0%Z)) as [Hn|Hz].
    + right. eexists [], _, rc. repeat split; auto. constructor.
    + left. constructor; [|constructor].
      unfold failed_sh. cbn.
      destruct (Z.eqb_spec rc 0); [reflexivity | contradiction].
  - eexists [_]. cbn [snd fst].
    split; [destruct nolog; reflexivity|].
    split; [destruct nolog; reflexivity|].
    split; [destruct nolog; exact Hok|].
    left. constructor; [reflexivity | constructor].
Qed.

(** A child spawned without [sh] is never an [sh] failure. *)
Lemma disciplined_popen (cmd : list string) :
  disciplined (popen false cmd None).
Proof.
  intros w Hok. unfold popen. run.
  destruct (h_popen (w_host w) (length (w_children w)) cmd) as [out rc|];
    cbn; eexists [_]; repeat split; auto; left;
    (constructor; [reflexivity | constructor]).
Qed.

Lemma disciplined_chdir (d : string) : disciplined (chdir d).
Proof.
  intros w Hok. unfold chdir. run.
  destruct (h_isdir (w_host w) d) eqn:E; cbn;
    exists []; rewrite app_nil_r; repeat split; auto; left; constructor.
Qed.

(** [try: m finally: os.chdir(here)] when [here] exists. *)
Lemma disciplined_finally_chdir {A} (m : M A) (here : string) (w : World) :
  disciplined m -> h_isdir (w_host w) here = true ->
  disciplined_at (try_finally m (chdir here)) w.
Proof.
  intros Hm Hhere Hok.
  destruct (Hm w Hok) as (new & Hc & Hh & Hok1 & Hq).
  unfold try_finally, chdir. destruct (m w) as [r w1]. run. simpl in *.
  rewrite Hh, Hhere. cbn.
  exists new. repeat split; auto.
  unfold cwd_ok. cbn. rewrite Hh. exact Hhere.
Qed.

Create HintDb disc_db.
#[local] Hint Resolve disciplined_sh disciplined_popen disciplined_chdir : disc_db.

Ltac discipline :=
  repeat first
    [ solve [eauto with disc_db]
    | solve [apply silent_disciplined; silence]
    | apply disciplined_bind; [|intros ?]
    | match goal with
      | |- disciplined (if ?b then _ else _) => destruct b
      | |- disciplined (match ?x with _ => _ end) => destruct x
      end ].

Lemma disciplined_build : disciplined build.
Proof. unfold build. discipline. Qed.
#[local] Hint Resolve disciplined_build : disc_db.

Lemma disciplined_wheel : disciplined wheel.
Proof. unfold wheel. discipline. Qed.

Lemma disciplined_upload_wheels : disciplined upload_wheels.
Proof. unfold upload_wheels. discipline. Qed.

Lemma disciplined_install_pip : disciplined install_pip.
Proof. unfold install_pip. discipline. Qed.
#[local] Hint Resolve disciplined_install_pip : disc_db.

Lemma disciplined_install : disciplined install.
Proof. unfold install. discipline. Qed.

Lemma disciplined_uninstall_loop (fuel : nat) : disciplined (uninstall_loop fuel).
Proof.
  induction fuel as [|fuel IH]; simpl.
  - apply silent_disciplined. silence.
  - apply disciplined_bind; [discipline|intros [|]]; [|discipline].
    apply disciplined_bind; [discipline|intros py].
    apply disciplined_bind; [discipline|intros _]. exact IH.
Qed.

Lemma disciplined_uninstall (fuel : nat) : disciplined (uninstall fuel).
Proof.
  unfold uninstall.
  apply disciplined_bind; [discipline|intros _].
  apply disciplined_bind; [discipline|intros _].
  intros w.
  change (disciplined_at
            (try_finally (chdir "C:\" ;; uninstall_loop fuel) (chdir (w_cwd w)) ;;
             foreign "site-packages") w).
  intros Hok. refine (disciplined_at_bind _ _ w _ _ Hok).
  - apply disciplined_finally_chdir.
    + apply disciplined_bind; [discipline|intros _].
      apply disciplined_uninstall_loop.
    + exact Hok.
  - intros _ w1 _. apply silent_disciplined. silence.
Qed.

Lemma disciplined_test (args : option (list string)) : disciplined (test args).
Proof. unfold test. discipline. Qed.
#[local] Hint Resolve disciplined_test : disc_db.

Lemma disciplined_test_by_name (arg : string) : disciplined (test_by_name arg).
Proof. unfold test_by_name. discipline. Qed.

Lemma disciplined_test_by_regex (arg : string) : disciplined (test_by_regex arg).
Proof. unfold test_by_regex. discipline. Qed.

Lemma disciplined_pytest_k (file : string) : disciplined (pytest_k file).
Proof. unfold pytest_k. discipline. Qed.

Lemma disciplined_coverage : disciplined coverage.
Proof. unfold coverage. discipline. Qed.

Lemma disciplined_generate_manifest : disciplined generate_manifest.
Proof. unfold generate_manifest. discipline. Qed.

#[local] Hint Resolve disciplined_wheel disciplined_upload_wheels
  disciplined_install disciplined_uninstall disciplined_test_by_name
  disciplined_test_by_regex disciplined_pytest_k disciplined_coverage
  disciplined_generate_manifest : disc_db.

Lemma binding_In (defs : list (string * attr)) (name : string) (a : attr) :
  binding defs name = Some a -> exists k, In (k, a) defs.
Proof.
  induction defs as [|[k a0] defs IH]; simpl; [discriminate|].
  destruct (binding defs name) as [a'|].
  - intros [= <-]. destruct (IH eq_refl) as [k' Hk]. eauto.
  - destruct (String.eqb k name); [|discriminate].
    intros [= <-]. eauto.
Qed.

(** Calling any name of the module keeps the discipline. *)
Lemma disciplined_call0 (fuel : nat) (name : string) (k : string) (a : attr) :
  In (k, a) (module_names fuel) -> disciplined (call0 name a).
Proof.
  unfold module_names. intros H.
  repeat (destruct H as [[= <- <-]|H];
          [unfold call0, install_pydeps_test, install_pydeps_dev,
             test_parallel, test_process, test_process_all, test_system,
             test_platform, test_misc, test_scripts, test_unicode,
             test_connections, test_contracts, test_testutils, test_sudo,
             test_memleaks, test_last_failed, bench_oneshot, bench_oneshot_2,
             print_access_denied, print_api_speed, print_sysinfo;
           discipline|]).
  destruct H.
Qed.

Lemma disciplined_dispatch (fuel : nat) (command name py arg : string) :
  disciplined
    (fn ← getattr fuel name;
     if String.eqb command "test" && Str.truthy arg then sh [py; arg] false
     else if String.eqb command "test-by-name" then test_by_name arg
     else if String.eqb command "test-by-regex" then test_by_regex arg
     else call0 name fn).
Proof.
  intros w. apply disciplined_at_bind; [apply silent_disciplined; silence|].
  intros fn w1 E. unfold getattr in E.
  destruct (binding (module_names fuel) name) as [a|] eqn:B;
    [|discriminate].
  injection E as -> _.
  destruct (binding_In _ _ _ B) as [k Hk].
  destruct (_ && _); [apply disciplined_sh|].
  destruct (String.eqb command "test-by-name"); [apply disciplined_test_by_name|].
  destruct (String.eqb command "test-by-regex"); [apply disciplined_test_by_regex|].
  exact (disciplined_call0 fuel name k fn Hk w1).
Qed.

Lemma disciplined_main (fuel : nat) (cl : cmdline) : disciplined (main fuel cl).
Proof.
  unfold main.
  apply disciplined_bind; [discipline|intros args].
  apply disciplined_bind; [discipline|intros w].
  destruct (get_python (w_host w) (ns_python args)) as [py|]; [|discipline].
  destruct (Str.truthy py); [|discipline].
  apply disciplined_bind; [discipline|intros _].
  apply disciplined_bind; [discipline|intros _].
  apply disciplined_bind; [discipline|intros _].
  cbv zeta. apply disciplined_dispatch.
Qed.

Lemma failed_sh_true (c : child) (n : Z) :
  c_via_sh c = true -> c_returncode c = Some n -> n <> 0%Z ->
  failed_sh c = true.
Proof.
  intros Hv Hr Hn. unfold failed_sh. rewrite Hv, Hr. cbn.
  destruct (Z.eqb_spec n 0); [contradiction | reflexivity].
Qed.

(** Where a failed [sh] child can stand in a disciplined run. *)
Lemma disciplined_failure_is_last {A} (new : list child) (r : outcome A)
    (pre post : list child) (c : child) (n : Z) :
  quiet new \/ aborted new r ->
  new = pre ++ c :: post ->
  c_via_sh c = true -> c_returncode c = Some n -> n <> 0%Z ->
  post = [] /\ r = SysExit (ExitCode n) /\ quiet pre.
Proof.
  intros Hq E Hv Hr Hn.
  pose proof (failed_sh_true c n Hv Hr Hn) as Hf.
  destruct Hq as [Q|(pre' & c' & n' & E' & Qp & Hv' & Hr' & Hn' & Er)].
  - subst new. apply Forall_app in Q. destruct Q as [_ Q].
    inversion Q; subst. congruence.
  - subst new. destruct post as [|p post].
    + apply app_inj_tail in E. destruct E as [-> ->].
      repeat split; auto. congruence.
    + destruct (@exists_last _ (p :: post) ltac:(discriminate)) as (l & a & El).
      rewrite El in E.
      change (pre ++ c :: l ++ [a]) with (pre ++ (c :: l) ++ [a]) in E.
      rewrite app_assoc in E. apply app_inj_tail in E. destruct E as [E _].
      subst pre'. apply Forall_app in Qp. destruct Qp as [_ Q].
      inversion Q; subst. congruence.
Qed.



(** ** The environment of the children *)

(** [sh] hands its child [os.environ], whatever the environment block of
    the process holds. *)
Lemma sh_child_environment (cmd : list string) (nolog : bool) (w : World) :
  exists c : child,
    w_children (sh cmd nolog w).2 = w_children w ++ [c] /\
    c_cmd c = cmd /\ c_env c = w_environ w.
Proof.
  rewrite sh_run.
  destruct (h_popen (w_host w) (length (w_children w)) cmd) as [out rc|];
    eexists; repeat split; destruct nolog; reflexivity.
Qed.

(** C2, run on two inputs. With an empty environment and the command
    [install-pip], the interpreter resolves to the running one and is put
    into the environment block of the process, yet the child spawned by
    [sh] has no variable [PYTHON]. With [PYTHON=/opt/py] in the
    environment and [-p /usr/local/bin/python3], the child still sees
    [/opt/py], not the resolved path. *)
Theorem sh_child_does_not_see_resolved_python :
  let r := main 0 {| cl_python := None; cl_words := ["install-pip"] |}
             (start calm_host ∅ "/repo" demo_tree) in
  let r' := main 0 {| cl_python := Some "/usr/local/bin/python3";
                      cl_words := ["install-pip"] |}
              (start calm_host (<["PYTHON" := "/opt/py"]> ∅) "/repo"
                 demo_tree) in
  r.1 = Ret tt /\
  w_PYTHON r.2 = "/usr/bin/python3" /\
  w_penv r.2 !! "PYTHON" = Some "/usr/bin/python3" /\
  map c_cmd (w_children r.2)
    = [["/usr/bin/python3"; "/repo/scripts/internal/install_pip.py"]] /\
  map (fun c => c_env c !! "PYTHON") (w_children r.2) = [None] /\
  r'.1 = Ret tt /\
  w_PYTHON r'.2 = "/usr/local/bin/python3" /\
  w_penv r'.2 !! "PYTHON" = Some "/usr/local/bin/python3" /\
  map (fun c => c_env c !! "PYTHON") (w_children r'.2) = [Some "/opt/py"].
Proof. vm_compute. repeat split. Qed.

(** ** Cleanup by pattern *)

(** C3, run on a tree with [x.pyc], [.git/a.pyc] and [.git/hooks/b.pyc]:
    [rm "*.pyc"] and [recursive_rm ["*.pyc"]] remove [.git/a.pyc], which
    lies inside [.git]; only what lies in a directory below [.git] is
    passed over, and under Windows separators not even that. *)
Theorem rm_removes_inside_git :
  let w := start calm_host ∅ "/repo" demo_tree in
  let w_nt := start (demo_host_nt (fun _ _ => 0%Z)) ∅ "C:\repo" demo_tree in
  FS.lookup [".git"; "a.pyc"] (w_fs w) = Some (File false) /\
  h_fnmatch calm_host "a.pyc" "*.pyc" = true /\
  FS.lookup [".git"; "a.pyc"] (w_fs (rm "*.pyc" false w).2) = None /\
  FS.lookup [".git"; "a.pyc"] (w_fs (recursive_rm ["*.pyc"] w).2) = None /\
  FS.lookup [".git"; "hooks"; "b.pyc"] (w_fs (rm "*.pyc" false w).2)
    = Some (File false) /\
  FS.lookup ["x.pyc"] (w_fs (rm "*.pyc" false w).2) = None /\
  FS.lookup ["keep.txt"] (w_fs (rm "*.pyc" false w).2) = Some (File false) /\
  FS.lookup [".git"; "a.pyc"] (w_fs (rm "*.pyc" false w_nt).2) = None /\
  FS.lookup [".git"; "hooks"; "b.pyc"] (w_fs (rm "*.pyc" false w_nt).2) = None.
Proof. vm_compute. repeat split. Qed.

(** ** Runs on which every child succeeds *)

Lemma extends_refl (w : World) : extends w w [].
Proof. unfold extends. rewrite app_nil_r. repeat split. Qed.

Lemma extends_trans (w w1 w2 : World) (c1 c2 : list (list string)) :
  extends w w1 c1 -> extends w1 w2 c2 -> extends w w2 (c1 ++ c2).
Proof.
  intros (A1 & A2 & A3 & A4 & A5) (B1 & B2 & B3 & B4 & B5).
  unfold extends. rewrite B5, A5, app_assoc. repeat split; congruence.
Qed.

Lemma extends_add_out (o : stream * message) (w : World) :
  extends w (add_out o w) [].
Proof. unfold extends. cbn. rewrite app_nil_r. repeat split. Qed.

Lemma bind_runs {A B} (m : M A) (k : A -> M B) (w w1 : World) (a : A) :
  m w = (Ret a, w1) -> (m ≫= k) w = k a w1.
Proof. intros E. unfold mbind, M_bind, bind. rewrite E. reflexivity. Qed.

Lemma sh_calm (cmd : list string) (w : World) :
  calm (w_host w) ->
  exists w', sh cmd false w = (Ret tt, w') /\ extends w w' [cmd].
Proof.
  intros Hc. destruct (Hc (length (w_children w)) cmd) as [out E].
  rewrite sh_run, E. destruct (decide (0%Z ≠ 0%Z)); [contradiction|].
  eexists. split; [reflexivity|].
  unfold extends. cbn. rewrite map_app. repeat split.
Qed.

Lemma popen_calm (cmd : list string) (w : World) :
  calm (w_host w) ->
  exists out w',
    popen false cmd None w = (Ret (out, 0%Z), w') /\ extends w w' [cmd].
Proof.
  intros Hc. destruct (Hc (length (w_children w)) cmd) as [out E].
  unfold popen. run. rewrite E. cbn.
  eexists out, _. split; [reflexivity|].
  unfold extends. cbn. rewrite map_app. repeat split.
Qed.

Lemma win_colorprint_runs (s : string) (c : Z) (w : World) :
  exists w', win_colorprint s c w = (Ret tt, w') /\ extends w w' [].
Proof.
  unfold win_colorprint, print. run.
  destruct (h_windows (w_host w)); eexists; (split; [reflexivity|]);
    apply extends_add_out.
Qed.

(** The loop of [build] over the lines of the compiler only prints. *)
Lemma build_lines_run (lines : list string) (w : World) :
  exists w',
    for_each lines (fun line =>
      if Str.contains "warning" line then win_colorprint line YELLOW
      else if Str.contains "error" line then win_colorprint line RED
      else print (Text line)) w = (Ret tt, w') /\ extends w w' [].
Proof.
  revert w. induction lines as [|l lines IH]; intros w; cbn [for_each].
  - exists w. split; [reflexivity | apply extends_refl].
  - assert (H : exists w1,
             (if Str.contains "warning" l then win_colorprint l YELLOW
              else if Str.contains "error" l then win_colorprint l RED
              else print (Text l)) w = (Ret tt, w1) /\ extends w w1 []).
    { destruct (Str.contains "warning" l); [apply win_colorprint_runs|].
      destruct (Str.contains "error" l); [apply win_colorprint_runs|].
      eexists. split; [reflexivity | apply extends_add_out]. }
    destruct H as (w1 & E1 & X1). destruct (IH w1) as (w2 & E2 & X2).
    exists w2. split.
    + rewrite (bind_runs _ _ _ _ _ E1). exact E2.
    + exact (extends_trans _ _ _ [] [] X1 X2).
Qed.

Lemma build_succeeds (w : World) :
  calm (w_host w) ->
  exists w',
    build w = (Ret tt, w') /\
    extends w w'
      [[w_PYTHON w; "-c"; "import setuptools"];
       [w_PYTHON w; "setup.py"; "build_ext"; "-i"] ++
         match h_cpu_count (w_host w) with
         | Some (S n) => ["--parallel"; Str.of_nat (S n)]
         | _ => []
         end;
       [w_PYTHON w; "-c"; "import psutil"]].
Proof.
  intros Hc.
  destruct (sh_calm [w_PYTHON w; "-c"; "import setuptools"] w Hc)
    as (w1 & E1 & X1).
  assert (H1 : w_host w1 = w_host w) by apply X1.
  destruct (popen_calm
              ([w_PYTHON w; "setup.py"; "build_ext"; "-i"] ++
                 match h_cpu_count (w_host w1) with
                 | Some (S n) => ["--parallel"; Str.of_nat (S n)]
                 | _ => []
                 end) w1 ltac:(rewrite H1; exact Hc))
    as (out & w2 & E2 & X2).
  destruct (build_lines_run out w2) as (w3 & E3 & X3).
  assert (H3 : w_host w3 = w_host w)
    by (destruct X2 as [B _], X3 as [C _]; congruence).
  destruct (sh_calm [w_PYTHON w; "-c"; "import psutil"] w3
              ltac:(rewrite H3; exact Hc)) as (w4 & E4 & X4).
  destruct (win_colorprint_runs "build + import successful" GREEN w4)
    as (w5 & E5 & X5).
  exists w5. split.
  - unfold build.
    rewrite (bind_runs PYTHON _ w w (w_PYTHON w) eq_refl).
    rewrite (bind_runs _ _ _ _ _ E1).
    rewrite (bind_runs get _ w1 w1 w1 eq_refl). cbn beta zeta.
    rewrite (bind_runs _ _ _ _ _ E2).
    assert (E3' : try_finally
              (for_each (out, 0%Z).1 (fun line =>
                 if Str.contains "warning" line then win_colorprint line YELLOW
                 else if Str.contains "error" line then win_colorprint line RED
                 else print (Text line)) ;;
               if decide ((out, 0%Z).2 ≠ 0%Z)
               then win_colorprint "failure" RED ;; sys_exit (ExitCode (out, 0%Z).2)
               else ret tt) (ret tt) w2 = (Ret tt, w3)).
    { unfold try_finally. cbn [fst snd].
      rewrite (bind_runs _ _ _ _ _ E3).
      destruct (decide (0%Z ≠ 0%Z)); [contradiction | reflexivity]. }
    rewrite (bind_runs _ _ _ _ _ E3').
    rewrite (bind_runs _ _ _ _ _ E4). exact E5.
  - pose proof (extends_trans _ _ _ _ _
                  (extends_trans _ _ _ _ _
                     (extends_trans _ _ _ _ _
                        (extends_trans _ _ _ _ _ X1 X2) X3) X4) X5) as X.
    rewrite H1 in X. cbn [app] in X |- *. exact X.
Qed.

(** ** The command [test] *)

(** C9: once the interpreter [py] is resolved, [test] with a non-empty
    argument runs [sh [py; arg]] and nothing else: one child, neither the
    build nor pytest; [test] without argument (or with an empty one) runs
    the task [test], which is the build followed by pytest; when every
    child succeeds the children are the three of the build and then
    pytest. *)
Theorem test_with_and_without_argument
    (fuel : nat) (cl : cmdline) (w : World) (py : string) :
  get_python (w_host w) (cl_python cl) = Some py -> Str.truthy py = true ->
  let w1 := (win_colorprint ("using " +:+ py) LIGHTBLUE
               (set_penv (<["PYTHON" := py]> (w_penv w)) (set_PYTHON py w))).2 in
  (forall a : string,
     Str.truthy a = true -> cl_words cl = ["test"; a] ->
     main fuel cl w = sh [py; a] false w1 /\
     exists c : child,
       w_children (main fuel cl w).2 = w_children w ++ [c] /\
       c_cmd c = [py; a] /\ c_via_sh c = true) /\
  (cl_words cl = ["test"] \/ cl_words cl = ["test"; ""] ->
   main fuel cl w = test None w1 /\
   test None
   = (build ;;
      py' ← PYTHON;
      sh [py'; "-m"; "pytest"; "--ignore=psutil/tests/test_memleaks.py"] false) /\
   (calm (w_host w) ->
    (main fuel cl w).1 = Ret tt /\
    map c_cmd (w_children (main fuel cl w).2)
    = map c_cmd (w_children w) ++
      [[py; "-c"; "import setuptools"];
       [py; "setup.py"; "build_ext"; "-i"] ++
         match h_cpu_count (w_host w) with
         | Some (S n) => ["--parallel"; Str.of_nat (S n)]
         | _ => []
         end;
       [py; "-c"; "import psutil"];
       [py; "-m"; "pytest"; "--ignore=psutil/tests/test_memleaks.py"]])).
Proof.
  intros Hgp Hty w1.
  assert (Hw1 : w_host w1 = w_host w /\ w_PYTHON w1 = py /\
                w_children w1 = w_children w /\ w_environ w1 = w_environ w /\
                w_cwd w1 = w_cwd w).
  { subst w1. unfold win_colorprint, print. run. cbn.
    destruct (h_windows (w_host w)); repeat split. }
  destruct Hw1 as (Hh & Hp & Hch & Henv & Hcwd).
  split.
  - intros a Ha Hw.
    assert (E : main fuel cl w = sh [py; a] false w1).
    { unfold main, parse_args, argparse. rewrite Hw. run. cbn.
      rewrite Hgp, Hty. subst w1. unfold win_colorprint, print. run. cbn.
      destruct a; [discriminate|].
      destruct (h_windows (w_host w)); reflexivity. }
    split; [exact E|]. rewrite E.
    destruct (sh_child_environment [py; a] false w1) as (c & Hc & Hcmd & _).
    rewrite sh_run in Hc |- *.
    destruct (h_popen (w_host w1) (length (w_children w1)) [py; a]);
      cbn in Hc |- *; rewrite Hch; eexists; repeat split.
  - intros Hw.
    assert (E : main fuel cl w = test None w1).
    { unfold main, parse_args, argparse.
      destruct Hw as [Hw|Hw]; rewrite Hw; run; cbn;
        rewrite Hgp, Hty; subst w1; unfold win_colorprint, print; run; cbn;
        destruct (h_windows (w_host w)); reflexivity. }
    split; [exact E|]. split; [reflexivity|].
    intros Hc. rewrite E.
    destruct (build_succeeds w1 ltac:(rewrite Hh; exact Hc)) as (w2 & E2 & X2).
    assert (Hh2 : w_host w2 = w_host w) by (destruct X2 as [B _]; congruence).
    assert (Hp2 : w_PYTHON w2 = py) by (destruct X2 as (_ & B & _); congruence).
    destruct (sh_calm
                [py; "-m"; "pytest"; "--ignore=psutil/tests/test_memleaks.py"]
                w2 ltac:(rewrite Hh2; exact Hc)) as (w3 & E3 & X3).
    assert (Et : test None w1 = (Ret tt, w3)).
    { unfold test. rewrite (bind_runs _ _ _ _ _ E2). cbv zeta.
      rewrite (bind_runs PYTHON _ w2 w2 (w_PYTHON w2) eq_refl).
      rewrite Hp2. exact E3. }
    rewrite Et. split; [reflexivity|]. cbn [snd].
    destruct X2 as (_ & _ & _ & _ & C2), X3 as (_ & _ & _ & _ & C3).
    rewrite C3, C2, Hp, Hh, Hch, <- app_assoc. reflexivity.
Qed.

Lemma test_with_and_without_argument_witness :
  map c_cmd
    (w_children
       (main 0 {| cl_python := None; cl_words := ["test"; "scripts/foo.py"] |}
          (start calm_host ∅ "/repo" demo_tree)).2)
  = [["/usr/bin/python3"; "scripts/foo.py"]].
Proof.
  destruct (proj1 (test_with_and_without_argument 0
              {| cl_python := None; cl_words := ["test"; "scripts/foo.py"] |}
              (start calm_host ∅ "/repo" demo_tree) "/usr/bin/python3"
              eq_refl eq_refl) "scripts/foo.py" eq_refl eq_refl)
    as (_ & c & Hc & Hcmd & _).
  rewrite Hc, <- Hcmd. reflexivity.
Defined.

(** ** The file tree *)

Lemma node_induction (P : node -> Prop) :
  (forall lk, P (File lk)) ->
  (forall lk es, Forall (fun e => P (snd e)) es -> P (Dir lk es)) ->
  forall n, P n.
Proof.
  intros HF HD.
  refine (fix IH (n : node) : P n :=
            match n with
            | File lk => HF lk
            | Dir lk es =>
                HD lk es
                  ((fix go (es : FS.entries) : Forall (fun e => P (snd e)) es :=
                      match es with
                      | [] => @List.Forall_nil _ _
                      | e :: es' =>
                          match e as e0
                                return Forall (fun e => P (snd e)) (e0 :: es')
                          with
                          | (k, m) => @List.Forall_cons _ _ (k, m) es' (IH m) (go es')
                          end
                      end) es)
            end).
Qed.

Section Tree.

Variable windows : bool.

Lemma wf_dir (lk : bool) (es : FS.entries) :
  wf windows (Dir lk es) <->
  List.NoDup (map fst es) /\
  Forall (fun e => name_ok windows (fst e) = true /\ wf windows (snd e)) es.
Proof.
  cbn [wf]. apply and_iff_compat_l.
  induction es as [|[k m] es IH].
  - split; [constructor | trivial].
  - rewrite Forall_cons_iff, <- IH. cbn [fst snd]. tauto.
Qed.

Lemma child_In (es : FS.entries) (k : string) (m : node) :
  FS.child es k = Some m -> In (k, m) es.
Proof.
  induction es as [|[k0 m0] es IH]; cbn [FS.child]; [discriminate|].
  destruct (String.eqb_spec k0 k) as [->|Hne].
  - intros [= ->]. left. reflexivity.
  - intros H. right. auto.
Qed.

Lemma child_None (es : FS.entries) (k : string) :
  ~ In k (map fst es) -> FS.child es k = None.
Proof.
  induction es as [|[k0 m0] es IH]; cbn [FS.child map fst]; [reflexivity|].
  intros H. destruct (String.eqb_spec k0 k) as [->|Hne].
  - exfalso. apply H. left. reflexivity.
  - apply IH. intros Hin. apply H. right. exact Hin.
Qed.

Lemma In_child (es : FS.entries) (k : string) (m : node) :
  List.NoDup (map fst es) -> In (k, m) es -> FS.child es k = Some m.
Proof.
  induction es as [|[k0 m0] es IH]; cbn [FS.child map fst]; [intros _ []|].
  intros Hnd [[= -> ->]|Hin].
  - rewrite String.eqb_refl. reflexivity.
  - apply NoDup_cons_iff in Hnd. destruct Hnd as [Hnot Hnd].
    destruct (String.eqb_spec k0 k) as [->|Hne].
    + exfalso. apply Hnot. apply (in_map fst) in Hin. exact Hin.
    + apply IH; assumption.
Qed.

Lemma alter_child_names (c : string) (f : node -> option node)
    (es : FS.entries) (k : string) :
  In k (map fst (FS.alter_child c f es)) -> In k (map fst es).
Proof.
  induction es as [|[k0 m0] es IH]; cbn [FS.alter_child map fst]; [tauto|].
  destruct (String.eqb k0 c); [destruct (f m0)|]; cbn [map fst In]; tauto.
Qed.

Lemma alter_child_NoDup (c : string) (f : node -> option node)
    (es : FS.entries) :
  List.NoDup (map fst es) -> List.NoDup (map fst (FS.alter_child c f es)).
Proof.
  induction es as [|[k0 m0] es IH]; cbn [FS.alter_child map fst]; [trivial|].
  intros Hnd. apply NoDup_cons_iff in Hnd. destruct Hnd as [Hnot Hnd].
  assert (Hn : ~ In k0 (map fst (FS.alter_child c f es))).
  { intros H. apply Hnot. eapply alter_child_names. exact H. }
  destruct (String.eqb k0 c); [destruct (f m0)|]; cbn [map fst];
    try (apply NoDup_cons_iff; split); auto.
Qed.

Lemma child_alter_child (c : string) (f : node -> option node)
    (es : FS.entries) (k : string) :
  List.NoDup (map fst es) ->
  FS.child (FS.alter_child c f es) k
  = if String.eqb k c
    then match FS.child es c with Some m => f m | None => None end
    else FS.child es k.
Proof.
  induction es as [|[k0 m0] es IH]; cbn [FS.alter_child FS.child map fst].
  - intros _. destruct (String.eqb k c); reflexivity.
  - intros Hnd. apply NoDup_cons_iff in Hnd. destruct Hnd as [Hnot Hnd].
    specialize (IH Hnd).
    destruct (String.eqb_spec k0 c) as [E0|Hne].
    + subst k0. destruct (f m0) as [m'|] eqn:Ef; cbn [FS.child].
      * destruct (String.eqb_spec c k) as [E|Hk].
        -- subst k. rewrite String.eqb_refl. reflexivity.
        -- rewrite IH. destruct (String.eqb_spec k c); [congruence|reflexivity].
      * rewrite IH. rewrite (child_None es c Hnot).
        destruct (String.eqb_spec k c) as [E|Hk]; [reflexivity|].
        destruct (String.eqb_spec c k); [congruence|reflexivity].
    + cbn [FS.child]. destruct (String.eqb_spec k0 k) as [E|Hk].
      * subst k0. destruct (String.eqb_spec k c); [congruence|reflexivity].
      * exact IH.
Qed.

Lemma alter_child_wf (c : string) (f : node -> option node) (es : FS.entries) :
  Forall (fun e => name_ok windows (fst e) = true /\ wf windows (snd e)) es ->
  (forall m m', In (c, m) es -> f m = Some m' -> wf windows m') ->
  Forall (fun e => name_ok windows (fst e) = true /\ wf windows (snd e))
    (FS.alter_child c f es).
Proof.
  induction es as [|[k0 m0] es IH]; cbn [FS.alter_child]; [trivial|].
  intros Hall Hf. apply Forall_cons_iff in Hall. destruct Hall as [[H1 H2] Hall].
  assert (IH' := IH Hall (fun m m' Hin => Hf m m' (or_intror Hin))).
  destruct (String.eqb_spec k0 c) as [->|Hne].
  - destruct (f m0) as [m'|] eqn:Ef; [|exact IH'].
    constructor; [|exact IH']. split; [exact H1|].
    apply (Hf m0 m'); [left; reflexivity | exact Ef].
  - constructor; [split; assumption | exact IH'].
Qed.

Lemma lookup_app (p q : list string) (n : node) :
  FS.lookup (p ++ q) n
  = match FS.lookup p n with Some m => FS.lookup q m | None => None end.
Proof.
  revert n. induction p as [|c p IH]; intros n; cbn [FS.lookup app];
    [reflexivity|].
  destruct n as [lk|lk es]; [reflexivity|].
  destruct (FS.child es c); [apply IH | reflexivity].
Qed.

Lemma wf_child (lk : bool) (es : FS.entries) (k : string) (m : node) :
  wf windows (Dir lk es) -> FS.child es k = Some m ->
  name_ok windows k = true /\ wf windows m.
Proof.
  intros Hwf Hc. apply wf_dir in Hwf. destruct Hwf as [_ Hall].
  apply child_In in Hc. rewrite List.Forall_forall in Hall.
  exact (Hall (k, m) Hc).
Qed.

Lemma wf_lookup (p : list string) (n m : node) :
  wf windows n -> FS.lookup p n = Some m -> wf windows m.
Proof.
  revert n. induction p as [|c p IH]; intros n Hwf; cbn [FS.lookup].
  - intros [= <-]. exact Hwf.
  - destruct n as [lk|lk es]; [discriminate|].
    destruct (FS.child es c) as [m0|] eqn:Ec; [|discriminate].
    apply IH. eapply wf_child; eauto.
Qed.

End Tree.

Lemma same_kind_refl (n : node) : same_kind n n.
Proof. destruct n; cbn; auto. Qed.

Lemma same_kind_trans (a b c : node) :
  same_kind a b -> same_kind b c -> same_kind a c.
Proof. destruct a, b, c; cbn; intros; try tauto; congruence. Qed.

Lemma shrinks_refl (t : node) : shrinks t t.
Proof.
  split; [|auto]. intros p n' H. exists n'. split; [exact H | apply same_kind_refl].
Qed.

Lemma shrinks_trans (a b c : node) : shrinks a b -> shrinks b c -> shrinks a c.
Proof.
  intros [A1 A2] [B1 B2]. split.
  - intros p n' H. destruct (B1 p n' H) as (n1 & H1 & K1).
    destruct (A1 p n1 H1) as (n0 & H0 & K0).
    exists n0. split; [exact H0 | eapply same_kind_trans; eauto].
  - intros p H. apply B2, A2, H.
Qed.

(** What was a file is afterwards the same file or gone; what was gone
    stays gone. *)
Lemma shrinks_file (t t' : node) (p : list string) (lk : bool) :
  shrinks t t' -> FS.lookup p t = Some (File lk) ->
  FS.lookup p t' = None \/ FS.lookup p t' = Some (File lk).
Proof.
  intros [H1 _] Hp. destruct (FS.lookup p t') as [n'|] eqn:E; [|left; reflexivity].
  destruct (H1 p n' E) as (n & Hn & K). rewrite Hp in Hn. injection Hn as <-.
  destruct n'; cbn in K; [subst; right; reflexivity | contradiction].
Qed.

Lemma shrinks_gone (t t' : node) (p : list string) :
  shrinks t t' -> FS.lookup p t = None -> FS.lookup p t' = None.
Proof.
  intros [H1 _] Hp. destruct (FS.lookup p t') as [n'|] eqn:E; [|reflexivity].
  destruct (H1 p n' E) as (n & Hn & _). congruence.
Qed.

Lemma shrinks_not_dir (t t' : node) (p : list string) :
  shrinks t t' ->
  (forall lk es, FS.lookup p t <> Some (Dir lk es)) ->
  (forall lk es, FS.lookup p t' <> Some (Dir lk es)).
Proof.
  intros [H1 _] Hp lk es E. destruct (H1 p _ E) as (n & Hn & K).
  destruct n; cbn in K; [contradiction|]. exact (Hp _ _ Hn).
Qed.

Section Alter.

Variable windows : bool.

Lemma alter_child_shrinks (lk : bool) (es : FS.entries) (c : string)
    (g : node -> option node) :
  List.NoDup (map fst es) ->
  (forall m, FS.child es c = Some m -> removes windows g m) ->
  shrinks (Dir lk es) (Dir lk (FS.alter_child c g es)).
Proof.
  intros Hnd Hg. split.
  - intros [|c' r] n'; cbn [FS.lookup].
    + intros [= <-]. eexists. split; [reflexivity | exact I].
    + rewrite (child_alter_child c g es c' Hnd).
      destruct (String.eqb_spec c' c) as [E|Hne]; [subst c'|].
      * destruct (FS.child es c) as [m|] eqn:Ec; [|discriminate].
        specialize (Hg m eq_refl). unfold removes in Hg.
        destruct (g m) as [m'|]; [|discriminate].
        intros H. destruct Hg as [[S1 _] _]. exact (S1 r n' H).
      * destruct (FS.child es c') as [m|]; [|discriminate].
        intros H. exists n'. split; [exact H | apply same_kind_refl].
  - intros [|c' r]; cbn [FS.lookup]; [discriminate|].
    rewrite (child_alter_child c g es c' Hnd).
    destruct (String.eqb_spec c' c) as [E|Hne]; [subst c'|].
    + destruct (FS.child es c) as [m|] eqn:Ec; [|discriminate].
      specialize (Hg m eq_refl). unfold removes in Hg.
      destruct (g m) as [m'|].
      * destruct Hg as [[_ S2] _]. apply S2.
      * intros H. exfalso. exact (Hg r H).
    + auto.
Qed.

Lemma alter_removes (p : list string) (f : node -> option node) (n : node) :
  wf windows n ->
  (forall m, FS.lookup p n = Some m -> removes windows f m) ->
  shrinks n (FS.alter p f n) /\ wf windows (FS.alter p f n).
Proof.
  revert n. induction p as [|c p IH]; intros n Hwf Hf; cbn [FS.alter].
  - split; [apply shrinks_refl | exact Hwf].
  - destruct n as [lk|lk es]; [split; [apply shrinks_refl | exact Hwf]|].
    pose proof (proj1 (wf_dir windows lk es) Hwf) as [Hnd Hall].
    set (g := match p with
              | [] => f
              | _ :: _ => fun m => Some (FS.alter p f m)
              end).
    assert (Hg : forall m, FS.child es c = Some m -> removes windows g m).
    { intros m Hc. destruct (wf_child windows lk es c m Hwf Hc) as [_ Hwm].
      assert (Hfm : forall m', FS.lookup p m = Some m' -> removes windows f m').
      { intros m' Hm'. apply Hf. cbn [FS.lookup]. rewrite Hc. exact Hm'. }
      subst g. destruct p as [|c2 p'].
      - apply Hfm. reflexivity.
      - unfold removes. apply IH; assumption. }
    split.
    + apply alter_child_shrinks; assumption.
    + apply wf_dir. split.
      * apply alter_child_NoDup. exact Hnd.
      * apply alter_child_wf; [exact Hall|].
        intros m m' Hin Hgm. apply (In_child es c m Hnd) in Hin.
        specialize (Hg m Hin). unfold removes in Hg. rewrite Hgm in Hg.
        apply Hg.
Qed.

Lemma lookup_alter_below (p q : list string) (f : node -> option node)
    (n : node) :
  p <> [] -> wf windows n ->
  FS.lookup (p ++ q) (FS.alter p f n)
  = match FS.lookup p n with
    | Some m => match f m with Some m' => FS.lookup q m' | None => None end
    | None => None
    end.
Proof.
  revert n. induction p as [|c p IH]; intros n Hne Hwf; [contradiction|].
  cbn [FS.alter FS.lookup app].
  destruct n as [lk|lk es]; [reflexivity|].
  pose proof (proj1 (wf_dir windows lk es) Hwf) as [Hnd _].
  rewrite (child_alter_child c _ es c Hnd), String.eqb_refl.
  destruct (FS.child es c) as [m|] eqn:Ec; [|reflexivity].
  destruct (wf_child windows lk es c m Hwf Ec) as [_ Hwm].
  destruct p as [|c2 p'].
  - cbn [app FS.lookup]. reflexivity.
  - apply IH; [discriminate | exact Hwm].
Qed.

End Alter.

Lemma child_height (es : FS.entries) (k : string) (m : node) (lk : bool) :
  FS.child es k = Some m -> (FS.height m < FS.height (Dir lk es))%nat.
Proof.
  cbn [FS.height]. induction es as [|[k0 m0] es IH]; cbn [FS.child];
    [discriminate|].
  destruct (String.eqb k0 k).
  - intros [= ->]. lia.
  - intros H. specialize (IH H). lia.
Qed.

(** A directory of the tree lies less deep than the tree is high. *)
Lemma lookup_dir_depth (p : list string) (n : node) (lk : bool)
    (es : FS.entries) :
  FS.lookup p n = Some (Dir lk es) -> (length p < FS.height n)%nat.
Proof.
  revert n. induction p as [|c p IH]; intros n; cbn [FS.lookup length].
  - intros [= ->]. cbn. lia.
  - destruct n as [lk0|lk0 es0]; [discriminate|].
    destruct (FS.child es0 c) as [m|] eqn:Ec; [|discriminate].
    intros H. specialize (IH m H).
    pose proof (child_height es0 c m lk0 Ec). lia.
Qed.

Lemma In_dirs_of (es : FS.entries) (d : string) :
  In d (FS.dirs_of es) <-> exists lk es', In (d, Dir lk es') es.
Proof.
  unfold FS.dirs_of. rewrite in_map_iff. split.
  - intros ([k m] & E & Hin). cbn in E. subst k.
    apply filter_In in Hin. destruct Hin as [Hin Hd].
    destruct m; [discriminate|]. eauto.
  - intros (lk & es' & Hin). exists (d, Dir lk es'). split; [reflexivity|].
    apply filter_In. split; [exact Hin | reflexivity].
Qed.

Lemma In_files_of (es : FS.entries) (f : string) :
  In f (FS.files_of es) <-> exists lk, In (f, File lk) es.
Proof.
  unfold FS.files_of. rewrite in_map_iff. split.
  - intros ([k m] & E & Hin). cbn in E. subst k.
    apply filter_In in Hin. destruct Hin as [Hin Hd].
    destruct m; [|discriminate]. eauto.
  - intros (lk & Hin). exists (f, File lk). split; [reflexivity|].
    apply filter_In. split; [exact Hin | reflexivity].
Qed.

(** ** [shutil.rmtree] on one entry *)

Section Rmtree.

Variable windows : bool.

Lemma rmtree_node_dir (path : string) (lk : bool) (es : FS.entries) :
  FS.rmtree_node windows path (Dir lk es)
  = let '(errs, es') := rmtree_entries windows path es in
    match es' with
    | [] => if lk then (errs ++ [PermissionError path], Some (Dir lk []))
            else (errs, None)
    | _ => (errs ++ [OSError path], Some (Dir lk es'))
    end.
Proof. reflexivity. Qed.

Lemma rmtree_entries_spec (path : string) (es : FS.entries) :
  List.NoDup (map fst es) ->
  (forall k,
     FS.child (rmtree_entries windows path es).2 k
     = match FS.child es k with
       | Some m => (FS.rmtree_node windows (Path.join windows path k) m).2
       | None => None
       end) /\
  (forall k, In k (map fst (rmtree_entries windows path es).2) -> In k (map fst es)) /\
  List.NoDup (map fst (rmtree_entries windows path es).2) /\
  (forall e,
     In e (rmtree_entries windows path es).1 <->
     exists k m, In (k, m) es /\
       In e (FS.rmtree_node windows (Path.join windows path k) m).1) /\
  (forall k m',
     In (k, m') (rmtree_entries windows path es).2 ->
     exists m, In (k, m) es /\
       (FS.rmtree_node windows (Path.join windows path k) m).2 = Some m').
Proof.
  induction es as [|[k0 m0] es IH]; intros Hnd.
  - cbn. split; [reflexivity|]. split; [tauto|]. split; [constructor|].
    split; [|intros k m' []].
    intros e. split; [intros [] | intros (k & m & [] & _)].
  - cbn [map fst] in Hnd. apply NoDup_cons_iff in Hnd.
    destruct Hnd as [Hnot Hnd].
    destruct (IH Hnd) as (I1 & I2 & I3 & I4 & I5). clear IH.
    cbn [rmtree_entries].
    fold (rmtree_entries windows path es).
    destruct (FS.rmtree_node windows (Path.join windows path k0) m0)
      as [e1 r] eqn:E0.
    destruct (rmtree_entries windows path es) as [e2 rest] eqn:Ees.
    cbn [fst snd] in *.
    assert (Hrest : ~ In k0 (map fst rest)) by (intros H; apply Hnot, I2, H).
    repeat split.
    + intros k. cbn [FS.child].
      destruct (String.eqb_spec k0 k) as [E|Hne]; [subst k|].
      * rewrite E0. cbn [snd]. destruct r as [m'|]; cbn [FS.child].
        -- rewrite String.eqb_refl. reflexivity.
        -- apply child_None. exact Hrest.
      * rewrite <- I1. destruct r as [m'|]; cbn [FS.child]; [|reflexivity].
        destruct (String.eqb_spec k0 k); [contradiction | reflexivity].
    + intros k Hk. cbn [map fst In].
      destruct r as [m'|]; cbn [map fst In] in Hk; [|right; auto].
      destruct Hk as [Hk|Hk]; [left; exact Hk | right; auto].
    + destruct r as [m'|]; cbn [map fst]; [|exact I3].
      apply NoDup_cons_iff. split; assumption.
    + intros H. apply in_app_or in H. destruct H as [H|H].
      * exists k0, m0. split; [left; reflexivity|]. rewrite E0. exact H.
      * apply I4 in H. destruct H as (k & m & Hin & He).
        exists k, m. split; [right; exact Hin | exact He].
    + intros (k & m & [[= -> ->]|Hin] & He).
      * rewrite E0 in He. apply in_or_app. left. exact He.
      * apply in_or_app. right. apply I4. eauto.
    + intros k m' Hin.
      assert (Hr : In (k, m') rest -> exists m : node,
                 In (k, m) ((k0, m0) :: es) /\
                 (FS.rmtree_node windows (Path.join windows path k) m).2
                 = Some m').
      { intros H. destruct (I5 k m' H) as (m & Hm & Er).
        exists m. split; [right; exact Hm | exact Er]. }
      destruct r as [m1|]; [|auto].
      destruct Hin as [[= -> ->]|Hin]; [|auto].
      exists m0. split; [left; reflexivity|]. rewrite E0. reflexivity.
Qed.

Lemma rmtree_node_ok (n : node) :
  wf windows n -> forall path, rmtree_ok windows path n.
Proof.
  induction n as [lk|lk es IH] using node_induction; intros Hwf path.
  - unfold rmtree_ok, removes. destruct lk; cbn.
    + refine (conj (conj (shrinks_refl _) I) (conj _ (conj _ _))).
      * intros [|c q]; discriminate.
      * intros [|c q]; [left; reflexivity | discriminate].
      * intros e [<-|[]]. reflexivity.
    + refine (conj _ (conj _ (conj _ _))).
      * intros [|c q]; discriminate.
      * intros q _. exact I.
      * intros [|c q]; discriminate.
      * intros e [].
  - pose proof (proj1 (wf_dir windows lk es) Hwf) as [Hnd Hall].
    destruct (rmtree_entries_spec path es Hnd) as (S1 & S2 & S3 & S4 & S5).
    assert (Hch : forall k m, FS.child es k = Some m ->
              rmtree_ok windows (Path.join windows path k) m).
    { intros k m Hc. pose proof (child_In _ _ _ Hc) as Hin.
      rewrite List.Forall_forall in IH, Hall.
      apply (IH (k, m) Hin). apply (Hall (k, m) Hin). }
    (* the locked files of the directory are in what is left *)
    assert (Hlocked : forall k q,
              FS.lookup (k :: q) (Dir lk es) = Some (File true) ->
              FS.lookup (k :: q) (Dir lk (rmtree_entries windows path es).2)
              = Some (File true)).
    { intros k q. cbn [FS.lookup]. rewrite S1.
      destruct (FS.child es k) as [m|] eqn:Ec; [|discriminate].
      intros H. destruct (Hch k m Ec) as (R & _). unfold removes in R.
      destruct (FS.rmtree_node windows (Path.join windows path k) m).2
        as [m'|]; [apply R, H | exfalso; exact (R q H)]. }
    assert (Hkind : forall p n',
              FS.lookup p (Dir lk (rmtree_entries windows path es).2) = Some n' ->
              exists n0, FS.lookup p (Dir lk es) = Some n0 /\ same_kind n0 n').
    { intros [|k q] n'; cbn [FS.lookup].
      - intros [= <-]. eexists. split; [reflexivity | exact I].
      - rewrite S1. destruct (FS.child es k) as [m|] eqn:Ec; [|discriminate].
        destruct (Hch k m Ec) as (R & _). unfold removes in R.
        destruct (FS.rmtree_node windows (Path.join windows path k) m).2
          as [m'|]; [|discriminate].
        intros H. destruct R as [[R1 _] _]. exact (R1 q n' H). }
    assert (Hwf' : wf windows (Dir lk (rmtree_entries windows path es).2)).
    { apply wf_dir. split; [exact S3|]. apply List.Forall_forall.
      intros [k m'] Hin. destruct (S5 k m' Hin) as (m & Hm & Er).
      rewrite List.Forall_forall in Hall. destruct (Hall (k, m) Hm) as [Hk _].
      split; [exact Hk|]. cbn [snd].
      destruct (Hch k m (In_child es k m Hnd Hm)) as (R & _).
      unfold removes in R. rewrite Er in R. apply R. }
    assert (Hgone : forall q,
              FS.lookup q (Dir lk es) = Some (File false) ->
              FS.lookup q (Dir lk (rmtree_entries windows path es).2) = None).
    { intros [|k q]; cbn [FS.lookup]; [discriminate|]. rewrite S1.
      destruct (FS.child es k) as [m|] eqn:Ec; [|discriminate].
      intros H. destruct (Hch k m Ec) as (_ & G & _). specialize (G q H).
      destruct (FS.rmtree_node windows (Path.join windows path k) m).2;
        [exact G | reflexivity]. }
    assert (Hlog : forall q,
              FS.lookup q (Dir lk es) = Some (File true) ->
              In (PermissionError (below windows path q))
                 (rmtree_entries windows path es).1).
    { intros [|k q]; cbn [FS.lookup]; [discriminate|].
      destruct (FS.child es k) as [m|] eqn:Ec; [|discriminate].
      intros H. apply S4. exists k, m. split; [apply child_In; exact Ec|].
      destruct (Hch k m Ec) as (_ & _ & L & _). exact (L q H). }
    assert (Hnf : forall e, In e (rmtree_entries windows path es).1 ->
              is_FileNotFoundError e = false).
    { intros e He. apply S4 in He. destruct He as (k & m & Hin & He).
      destruct (Hch k m (In_child es k m Hnd Hin)) as (_ & _ & _ & N).
      exact (N e He). }
    assert (Hshr : shrinks (Dir lk es) (Dir lk (rmtree_entries windows path es).2)).
    { split; [exact Hkind|].
      intros [|k q] H; [discriminate | exact (Hlocked k q H)]. }
    unfold rmtree_ok, removes. rewrite rmtree_node_dir.
    destruct (rmtree_entries windows path es) as [errs es'] eqn:Ees. cbn [fst snd] in *.
    destruct es' as [|e' es'].
    + destruct lk; cbn [fst snd].
      * refine (conj (conj Hshr Hwf') (conj Hgone (conj _ _))).
        -- intros q H. apply in_or_app. left. exact (Hlog q H).
        -- intros e He. apply in_app_or in He.
           destruct He as [He|[<-|[]]]; [exact (Hnf e He) | reflexivity].
      * refine (conj _ (conj _ (conj Hlog Hnf))).
        -- intros [|k q] H; [discriminate|].
           specialize (Hlocked k q H). discriminate.
        -- intros q _. exact I.
    + cbn [fst snd].
      refine (conj (conj Hshr Hwf') (conj Hgone (conj _ _))).
      * intros q H. apply in_or_app. left. exact (Hlog q H).
      * intros e He. apply in_app_or in He.
        destruct He as [He|[<-|[]]]; [exact (Hnf e He) | reflexivity].
Qed.

End Rmtree.

(** ** Paths of the walk *)

Section Paths.

Variable windows : bool.

#[local] Abbreviation is_sep := (Path.is_sep windows).
#[local] Abbreviation sep := (Path.sep windows).
#[local] Abbreviation split := (Path.split windows).
#[local] Abbreviation parts := (Path.parts windows).
#[local] Abbreviation join := (Path.join windows).

Lemma sep_char : exists c, sep = String c EmptyString /\ is_sep c = true.
Proof. unfold Path.sep, Path.is_sep. destruct windows; eexists; split; reflexivity. Qed.

Lemma split_nonempty (s : string) : split s <> [].
Proof.
  induction s as [|c s IH]; cbn [Path.split]; [discriminate|].
  destruct (is_sep c); [discriminate|].
  destruct (split s); [contradiction | discriminate].
Qed.

Lemma split_app (a b : string) (c : ascii) :
  is_sep c = true -> split (a +:+ String c b) = split a ++ split b.
Proof.
  intros Hc. induction a as [|x a IH].
  - rewrite append_nil. cbn [Path.split]. rewrite Hc. reflexivity.
  - rewrite append_cons. cbn [Path.split]. rewrite IH.
    destruct (is_sep x); [reflexivity|].
    pose proof (split_nonempty a) as Hne.
    destruct (split a) as [|y ys]; [contradiction | reflexivity].
Qed.

Lemma split_no_sep (s : string) : no_sep windows s = true -> split s = [s].
Proof.
  induction s as [|c s IH]; cbn [no_sep Path.split]; [reflexivity|].
  intros H. apply andb_true_iff in H. destruct H as [Hc Hs].
  apply negb_true_iff in Hc. rewrite Hc, (IH Hs). reflexivity.
Qed.

Lemma name_ok_inv (name : string) :
  name_ok windows name = true ->
  Path.proper name = true /\ name <> ".." /\ no_sep windows name = true /\
  Str.truthy name = true /\ Path.starts_with_sep windows name = false.
Proof.
  unfold name_ok. intros H.
  apply andb_true_iff in H. destruct H as [H H3].
  apply andb_true_iff in H. destruct H as [H1 H2].
  apply negb_true_iff in H2. apply String.eqb_neq in H2.
  repeat split; auto.
  - destruct name; [discriminate | reflexivity].
  - destruct name as [|c name]; [reflexivity|]. cbn in H3 |- *.
    apply andb_true_iff in H3. destruct H3 as [H3 _].
    apply negb_true_iff in H3. exact H3.
Qed.

Lemma parts_name (name : string) :
  name_ok windows name = true -> parts name = [name].
Proof.
  intros H. destruct (name_ok_inv name H) as (Hp & _ & Hn & _).
  unfold Path.parts. rewrite (split_no_sep name Hn). cbn. rewrite Hp.
  reflexivity.
Qed.

Lemma parts_sep_app (a b : string) :
  parts (a +:+ sep +:+ b) = parts a ++ parts b.
Proof.
  destruct sep_char as (c & -> & Hc).
  rewrite append_cons, append_nil. unfold Path.parts.
  rewrite (split_app a b c Hc). apply List.filter_app.
Qed.

Lemma ends_with_sep_app (a b : string) :
  Str.truthy b = true ->
  Path.ends_with_sep windows (a +:+ b) = Path.ends_with_sep windows b.
Proof.
  intros Hb. induction a as [|x a IH]; [reflexivity|].
  rewrite append_cons. cbn [Path.ends_with_sep].
  destruct (a +:+ b) as [|y t] eqn:E.
  - destruct a; [rewrite append_nil in E; subst b; discriminate
                | rewrite append_cons in E; discriminate].
  - exact IH.
Qed.

Lemma ends_with_sep_no_sep (s : string) :
  no_sep windows s = true -> Path.ends_with_sep windows s = false.
Proof.
  induction s as [|c s IH]; cbn [no_sep Path.ends_with_sep]; [reflexivity|].
  intros H. apply andb_true_iff in H. destruct H as [Hc Hs].
  apply negb_true_iff in Hc. destruct s; [exact Hc | exact (IH Hs)].
Qed.

Lemma join_clean (a name : string) :
  joinable windows a -> name_ok windows name = true ->
  join a name = a +:+ sep +:+ name /\ joinable windows (join a name).
Proof.
  intros [Ha1 Ha2] Hn.
  destruct (name_ok_inv name Hn) as (_ & _ & Hns & Ht & Hs).
  assert (E : join a name = a +:+ sep +:+ name).
  { unfold Path.join. rewrite Hs, Ha1, Ha2. reflexivity. }
  split; [exact E|]. rewrite E. split.
  - destruct a; [discriminate | reflexivity].
  - rewrite ends_with_sep_app.
    + rewrite ends_with_sep_app by exact Ht.
      apply ends_with_sep_no_sep. exact Hns.
    + destruct sep_char as (c & -> & _). reflexivity.
Qed.

Lemma parts_join (a name : string) :
  joinable windows a -> name_ok windows name = true ->
  parts (join a name) = parts a ++ [name].
Proof.
  intros Ha Hn. destruct (join_clean a name Ha Hn) as [-> _].
  rewrite parts_sep_app, (parts_name name Hn). reflexivity.
Qed.

Lemma walk_root_snoc (p : list string) (d : string) :
  walk_root windows (p ++ [d]) = join (walk_root windows p) d.
Proof. unfold walk_root. rewrite fold_left_app. reflexivity. Qed.

Lemma walk_root_ok (p : list string) :
  names_ok windows p ->
  joinable windows (walk_root windows p) /\ parts (walk_root windows p) = p /\
  Path.starts_with_sep windows (walk_root windows p) = false.
Proof.
  induction p as [|d p IH] using rev_ind; intros Hp.
  - repeat split; destruct windows; reflexivity.
  - apply Forall_app in Hp. destruct Hp as [Hp Hd].
    apply Forall_cons_iff in Hd. destruct Hd as [Hd _].
    destruct (IH Hp) as (Hc & Hparts & Hs).
    rewrite walk_root_snoc.
    destruct (join_clean _ d Hc Hd) as [E Hc'].
    split; [exact Hc'|]. split.
    + rewrite (parts_join _ d Hc Hd), Hparts. reflexivity.
    + rewrite E. destruct Hc as [T _].
      destruct (walk_root windows p) as [|x t]; [discriminate|].
      rewrite append_cons. exact Hs.
Qed.

Lemma collapse_plain (absolute : bool) (acc cs : list string) :
  Forall (fun c => c <> "..") cs ->
  Path.collapse absolute acc cs = rev acc ++ cs.
Proof.
  revert acc. induction cs as [|c cs IH]; intros acc H; cbn [Path.collapse].
  - rewrite app_nil_r. reflexivity.
  - apply Forall_cons_iff in H. destruct H as [Hc H].
    destruct (String.eqb_spec c ".."); [contradiction|].
    rewrite (IH (c :: acc) H). cbn [rev]. rewrite <- app_assoc. reflexivity.
Qed.

Lemma concat_ok (p : list string) :
  names_ok windows p -> p <> [] ->
  joinable windows (String.concat sep p) /\ parts (String.concat sep p) = p.
Proof.
  induction p as [|c p IH]; intros Hp Hne; [contradiction|].
  apply Forall_cons_iff in Hp. destruct Hp as [Hc Hp].
  destruct (name_ok_inv c Hc) as (_ & _ & Hns & Ht & _).
  destruct p as [|c2 p].
  - cbn [String.concat]. repeat split; auto.
    + apply ends_with_sep_no_sep. exact Hns.
    + apply parts_name. exact Hc.
  - destruct (IH Hp ltac:(discriminate)) as ([T E] & P).
    change (String.concat sep (c :: c2 :: p))
      with (c +:+ sep +:+ String.concat sep (c2 :: p)).
    repeat split.
    + destruct c; [discriminate | reflexivity].
    + rewrite ends_with_sep_app.
      * rewrite ends_with_sep_app by exact T. exact E.
      * destruct sep_char as (x & -> & _). reflexivity.
    + rewrite parts_sep_app, P, (parts_name c Hc). reflexivity.
Qed.

Lemma norm_ok (p : list string) :
  names_ok windows p -> joinable windows (norm windows p) /\ parts (norm windows p) = p.
Proof.
  intros Hp. destruct p as [|c p].
  - repeat split; destruct windows; reflexivity.
  - apply concat_ok; [exact Hp | discriminate].
Qed.

Lemma normpath_walk_root (p : list string) :
  names_ok windows p -> Path.normpath windows (walk_root windows p) = norm windows p.
Proof.
  intros Hp. destruct (walk_root_ok p Hp) as (_ & Hparts & Hs).
  unfold Path.normpath. rewrite Hs, Hparts, collapse_plain.
  - cbn [rev app]. rewrite append_nil. destruct p as [|c p]; [reflexivity|].
    destruct (concat_ok (c :: p) Hp ltac:(discriminate)) as [[T _] _].
    unfold norm. rewrite T. reflexivity.
  - eapply Forall_impl; [exact Hp|]. intros c Hc.
    apply (name_ok_inv c Hc).
Qed.

(** The path that the loops of cleanup build for the entry [name] of the
    directory with the components [p] names that entry. *)
Lemma parts_target (p : list string) (name : string) :
  names_ok windows p -> name_ok windows name = true ->
  parts (join (Path.normpath windows (walk_root windows p)) name)
  = p ++ [name].
Proof.
  intros Hp Hn. rewrite (normpath_walk_root p Hp).
  destruct (norm_ok p Hp) as [Hc Hparts].
  rewrite (parts_join _ name Hc Hn), Hparts. reflexivity.
Qed.

End Paths.

(** ** Steps of cleanup *)

Lemma add_outs_out (os : list (stream * message)) (w : World) :
  w_out (add_outs os w) = w_out w ++ os.
Proof.
  revert w. induction os as [|o os IH]; intros w; cbn [add_outs].
  - rewrite app_nil_r. reflexivity.
  - rewrite IH. cbn. rewrite <- app_assoc. reflexivity.
Qed.

Lemma add_outs_rest (os : list (stream * message)) (w : World) :
  w_host (add_outs os w) = w_host w /\
  w_children (add_outs os w) = w_children w /\
  w_fs (add_outs os w) = w_fs w.
Proof.
  revert w. induction os as [|o os IH]; intros w; cbn [add_outs].
  - repeat split.
  - destruct (IH (add_out o w)) as (A & B & C). rewrite A, B, C.
    repeat split.
Qed.

Lemma steps_refl (w : World) : good w -> steps w w.
Proof.
  intros H. split; [exact H|]. split; [reflexivity|]. split; [reflexivity|].
  split; [exists []; rewrite app_nil_r; reflexivity | apply shrinks_refl].
Qed.

Lemma steps_trans (w w1 w2 : World) : steps w w1 -> steps w1 w2 -> steps w w2.
Proof.
  intros (A1 & A2 & A3 & (o1 & A4) & A5) (B1 & B2 & B3 & (o2 & B4) & B5).
  split; [exact B1|]. split; [congruence|]. split; [congruence|].
  split.
  - exists (o1 ++ o2). rewrite B4, A4, app_assoc. reflexivity.
  - eapply shrinks_trans; eauto.
Qed.

Lemma steps_add_outs (os : list (stream * message)) (w : World) :
  good w -> steps w (add_outs os w).
Proof.
  intros H. destruct (add_outs_rest os w) as (A & B & C).
  split; [unfold good; rewrite A, C; exact H|].
  split; [exact A|]. split; [exact B|]. split.
  - exists os. apply add_outs_out.
  - rewrite C. apply shrinks_refl.
Qed.

Lemma steps_add_out (o : stream * message) (w : World) :
  good w -> steps w (add_out o w).
Proof. apply (steps_add_outs [o]). Qed.

(** What holds of a world once it holds: lost entries and printed lines. *)
Lemma steps_gone (w w' : World) (p : list string) :
  steps w w' -> FS.lookup p (w_fs w) = None -> FS.lookup p (w_fs w') = None.
Proof. intros (_ & _ & _ & _ & S). apply shrinks_gone. exact S. Qed.

Lemma steps_printed (w w' : World) (o : stream * message) :
  steps w w' -> In o (w_out w) -> In o (w_out w').
Proof.
  intros (_ & _ & _ & (os & E) & _) H. rewrite E. apply in_or_app. left. exact H.
Qed.

Lemma steps_locked (w w' : World) (p : list string) :
  steps w w' -> FS.lookup p (w_fs w) = Some (File true) ->
  FS.lookup p (w_fs w') = Some (File true).
Proof. intros (_ & _ & _ & _ & [_ S]). apply S. Qed.

(** [safe_remove] on a path that is no directory. *)
Lemma safe_remove_runs (path : string) (w : World) :
  good w ->
  (forall lk es,
     FS.lookup (Path.parts (h_windows (w_host w)) path) (w_fs w)
     <> Some (Dir lk es)) ->
  exists w',
    safe_remove path w = (Ret tt, w') /\ steps w w' /\
    (Path.parts (h_windows (w_host w)) path <> [] ->
     FS.lookup (Path.parts (h_windows (w_host w)) path) (w_fs w)
     = Some (File false) ->
     FS.lookup (Path.parts (h_windows (w_host w)) path) (w_fs w') = None) /\
    (FS.lookup (Path.parts (h_windows (w_host w)) path) (w_fs w)
     = Some (File true) ->
     In (Stdout, ErrStr (PermissionError path)) (w_out w')).
Proof.
  intros Hg Hnd.
  unfold safe_remove, try_except, os_remove, resolve, safe_print, print. run.
  set (p := Path.parts (h_windows (w_host w)) path) in *.
  destruct (FS.lookup p (w_fs w)) as [[[|]|lk es]|] eqn:E.
  - (* a locked file *)
    cbn. eexists. split; [reflexivity|].
    split; [apply steps_add_out; exact Hg|].
    split; [discriminate|]. intros _. cbn. apply in_or_app. right. left.
    reflexivity.
  - (* a file that can be removed *)
    cbn. eexists. split; [reflexivity|].
    assert (Hrm : forall m, FS.lookup p (w_fs w) = Some m ->
              removes (h_windows (w_host w)) (fun _ => None) m).
    { intros m Hm. rewrite E in Hm. injection Hm as <-.
      unfold removes. intros [|c q]; discriminate. }
    destruct (alter_removes (h_windows (w_host w)) p (fun _ => None) (w_fs w)
                Hg Hrm) as [Hs Hw].
    split.
    + split; [exact Hw|]. split; [reflexivity|]. split; [reflexivity|].
      split; [eexists [_]; reflexivity | exact Hs].
    + split; [|discriminate]. intros Hne _. cbn.
      pose proof (lookup_alter_below (h_windows (w_host w)) p [] (fun _ => None)
                    (w_fs w) Hne Hg) as L.
      rewrite app_nil_r, E in L. exact L.
  - exfalso. exact (Hnd lk es eq_refl).
  - cbn. eexists. split; [reflexivity|].
    split; [apply steps_refl; exact Hg|]. split; discriminate.
Qed.

Lemma print_errors (errs : list exn) (f : exn -> M unit) (w : World) :
  (forall e w0, In e errs ->
     f e w0 = (Ret tt, add_out (Stdout, ErrStr e) w0)) ->
  for_each errs f w
  = (Ret tt, add_outs (map (fun e => (Stdout, ErrStr e)) errs) w).
Proof.
  revert w. induction errs as [|e errs IH]; intros w H; cbn [for_each map add_outs].
  - reflexivity.
  - rewrite (bind_runs (f e) _ w _ tt (H e w (or_introl eq_refl))).
    apply IH. intros e' w0 He'. apply H. right. exact He'.
Qed.

(** [safe_rmtree] on a path other than the current directory. *)
Lemma safe_rmtree_runs (path : string) (w : World) :
  good w ->
  Path.parts (h_windows (w_host w)) path <> [] ->
  exists w',
    safe_rmtree path w = (Ret tt, w') /\ steps w w' /\
    forall lk es,
      FS.lookup (Path.parts (h_windows (w_host w)) path) (w_fs w)
      = Some (Dir lk es) ->
      (forall q,
         FS.lookup q (Dir lk es) = Some (File false) ->
         FS.lookup (Path.parts (h_windows (w_host w)) path ++ q) (w_fs w')
         = None) /\
      (forall q,
         FS.lookup q (Dir lk es) = Some (File true) ->
         In (Stdout,
             ErrStr (PermissionError (below (h_windows (w_host w)) path q)))
            (w_out w')).
Proof.
  intros Hg Hne.
  unfold safe_rmtree, isdir, shutil_rmtree, resolve, safe_print, print. run.
  set (win := h_windows (w_host w)) in *.
  set (p := Path.parts win path) in *.
  destruct (FS.lookup p (w_fs w)) as [[lk0|lk es]|] eqn:E.
  - (* a file: two errors are printed *)
    cbn. eexists. split; [reflexivity|].
    split; [|discriminate].
    apply (steps_add_outs [_; _]). exact Hg.
  - (* a directory *)
    pose proof (wf_lookup win p _ _ Hg E) as Hwm.
    destruct (rmtree_node_ok win (Dir lk es) Hwm path) as (R1 & R2 & R3 & R4).
    destruct (FS.rmtree_node win path (Dir lk es)) as [errs remains] eqn:Er.
    cbn [fst snd] in R1, R2, R3, R4.
    destruct p as [|c p'] eqn:Ep; [contradiction|]. rewrite <- Ep in *.
    assert (Hrm : forall m, FS.lookup p (w_fs w) = Some m ->
              removes win (fun _ => remains) m).
    { intros m Hm. rewrite E in Hm. injection Hm as <-. exact R1. }
    destruct (alter_removes win p (fun _ => remains) (w_fs w) Hg Hrm)
      as [Hs Hw].
    set (w1 := set_fs (FS.alter p (fun _ => remains) (w_fs w)) w).
    assert (S1 : steps w w1).
    { split; [exact Hw|]. split; [reflexivity|]. split; [reflexivity|].
      split; [exists []; cbn; rewrite app_nil_r; reflexivity | exact Hs]. }
    cbn beta iota.
    change (set_fs (FS.alter p (fun _ => remains) (w_fs w)) w) with w1.
    match goal with
    | |- context [for_each errs ?f w1] =>
        rewrite (print_errors errs f w1)
          by (intros e w0 He; cbn beta; rewrite (R4 e He); reflexivity)
    end.
    cbn beta iota.
    set (w2 := add_outs (map (fun e => (Stdout, ErrStr e)) errs) w1).
    assert (S2 : steps w1 w2) by (apply steps_add_outs; exact Hw).
    assert (Hout : forall e, In e errs -> In (Stdout, ErrStr e) (w_out w2)).
    { intros e He. unfold w2. rewrite add_outs_out. apply in_or_app. right.
      apply (in_map (fun e => (Stdout, ErrStr e))). exact He. }
    assert (Hfs2 : w_fs w2 = FS.alter p (fun _ => remains) (w_fs w)).
    { unfold w2. rewrite (proj2 (proj2 (add_outs_rest _ w1))). reflexivity. }
    assert (Hfin : exists w',
              (if true &&
                  negb match FS.lookup (Path.parts (h_windows (w_host w2)) path)
                               (w_fs w2) with
                       | Some (Dir _ _) => true
                       | _ => false
                       end
               then modify (add_out (Stdout, Text ("rmdir -f " +:+ path)))
               else ret tt) w2 = (Ret tt, w') /\
              steps w2 w' /\ w_fs w' = w_fs w2).
    { destruct (true && _); eexists; (split; [reflexivity|]);
        (split; [|reflexivity]).
      - apply steps_add_out. apply S2.
      - apply steps_refl. apply S2. }
    destruct Hfin as (w' & Ef & S3 & Hfs3).
    exists w'. split; [exact Ef|].
    split; [exact (steps_trans _ _ _ (steps_trans _ _ _ S1 S2) S3)|].
    intros lk' es' [= <- <-]. split.
    + intros q Hq. rewrite Hfs3, Hfs2.
      rewrite (lookup_alter_below win p q (fun _ => remains) (w_fs w)
                 ltac:(rewrite Ep; discriminate) Hg), E.
      specialize (R2 q Hq). destruct remains; [exact R2 | reflexivity].
    + intros q Hq. apply (steps_printed w2 w' _ S3). apply Hout. exact (R3 q Hq).
  - (* nothing there *)
    exists w. split; [|split; [apply steps_refl; exact Hg | discriminate]].
    clear E Hne. subst p win. destruct (h_windows (w_host w)); reflexivity.
Qed.

(** ** Loops of cleanup *)

Lemma recursive_rm_unfold (patterns : list string) :
  recursive_rm patterns = os_walk (recursive_rm_body patterns).
Proof. reflexivity. Qed.

Lemma settled_stable (q : list string) (line : string) (lk : bool)
    (w w' : World) :
  steps w w' -> settled q line lk w -> settled q line lk w'.
Proof.
  intros S. unfold settled. destruct lk.
  - apply steps_printed. exact S.
  - apply steps_gone. exact S.
Qed.

(** A loop whose every round is a step of cleanup; if some round [x]
    with [Q i x] establishes [G i], which later steps keep, then [G i]
    holds at the end. *)
Lemma for_each_runs {A I} (G : I -> World -> Prop) (Q : I -> A -> Prop)
    (xs : list A) (body : A -> M unit) (w : World) :
  (forall i w1 w2, steps w1 w2 -> G i w1 -> G i w2) ->
  (forall x, In x xs -> forall w1, steps w w1 ->
     exists w2, body x w1 = (Ret tt, w2) /\ steps w1 w2 /\
                forall i, Q i x -> G i w2) ->
  good w ->
  exists w',
    for_each xs body w = (Ret tt, w') /\ steps w w' /\
    forall i, G i w \/ (exists x, In x xs /\ Q i x) -> G i w'.
Proof.
  intros HG. revert w. induction xs as [|x xs IH]; intros w Hb Hg.
  - exists w. split; [reflexivity|]. split; [apply steps_refl; exact Hg|].
    intros i [H|(x & [] & _)]. exact H.
  - destruct (Hb x (or_introl eq_refl) w (steps_refl w Hg)) as (w1 & E1 & S1 & Q1).
    destruct (IH w1) as (w' & E' & S' & G').
    { intros y Hy w2 S2. apply (Hb y (or_intror Hy)).
      exact (steps_trans _ _ _ S1 S2). }
    { apply S1. }
    exists w'. split; [|split].
    + cbn [for_each]. rewrite (bind_runs _ _ _ _ _ E1). exact E'.
    + exact (steps_trans _ _ _ S1 S').
    + intros i [H|(y & [<-|Hy] & Hq)].
      * apply G'. left. exact (HG i _ _ S1 H).
      * apply G'. left. exact (Q1 i Hq).
      * apply G'. right. exists y. split; assumption.
Qed.

Lemma steps_parts (w w' : World) (path : string) :
  steps w w' ->
  Path.parts (h_windows (w_host w')) path = Path.parts (h_windows (w_host w)) path.
Proof. intros (_ & -> & _). reflexivity. Qed.

Lemma lookup_below_dir (p : list string) (c : string) (r : list string)
    (t n : node) :
  FS.lookup (p ++ c :: r) t = Some n ->
  exists lk es, FS.lookup p t = Some (Dir lk es) /\
                FS.lookup (c :: r) (Dir lk es) = Some n.
Proof.
  rewrite lookup_app. destruct (FS.lookup p t) as [[lk|lk es]|];
    [discriminate | | discriminate].
  intros H. exists lk, es. split; [reflexivity | exact H].
Qed.

(** The loop over the patterns for one file name. *)
Lemma remove_loop (h : host) (patterns : list string) (name path : string)
    (w : World) :
  good w ->
  Path.parts (h_windows (w_host w)) path <> [] ->
  (forall lk es,
     FS.lookup (Path.parts (h_windows (w_host w)) path) (w_fs w)
     <> Some (Dir lk es)) ->
  exists w',
    for_each patterns (fun pattern =>
      if h_fnmatch h name pattern then safe_remove path else ret tt) w
    = (Ret tt, w') /\ steps w w' /\
    (matches h patterns name ->
     forall lk,
       FS.lookup (Path.parts (h_windows (w_host w)) path) (w_fs w)
       = Some (File lk) ->
       settled (Path.parts (h_windows (w_host w)) path) path lk w').
Proof.
  intros Hg Hne Hnd.
  set (q := Path.parts (h_windows (w_host w)) path) in *.
  destruct (for_each_runs
              (fun (_ : unit) w1 =>
                 forall lk, FS.lookup q (w_fs w) = Some (File lk) ->
                            settled q path lk w1)
              (fun _ pat => h_fnmatch h name pat = true)
              patterns
              (fun pattern =>
                 if h_fnmatch h name pattern then safe_remove path else ret tt)
              w) as (w' & E & S & G).
  - intros _ w1 w2 S12 H lk Hlk. eapply settled_stable; eauto.
  - intros pat _ w1 S1.
    destruct (h_fnmatch h name pat) eqn:Em.
    + pose proof (steps_parts w w1 path S1) as Ep. fold q in Ep.
      destruct (safe_remove_runs path w1 ltac:(apply S1)) as (w2 & E2 & S2 & R1 & R2).
      { rewrite Ep. apply (shrinks_not_dir (w_fs w) (w_fs w1) q); [apply S1|].
        exact Hnd. }
      rewrite Ep in R1, R2.
      exists w2. split; [exact E2|]. split; [exact S2|].
      intros _ _ lk Hlk. unfold settled. destruct lk.
      * apply R2. apply (steps_locked w w1 q S1 Hlk).
      * destruct (shrinks_file (w_fs w) (w_fs w1) q false ltac:(apply S1) Hlk)
          as [Hn|Hf].
        -- apply (steps_gone w1 w2 q S2 Hn).
        -- apply R1; assumption.
    + exists w1. split; [reflexivity|]. split; [apply steps_refl, S1|].
      discriminate.
  - exact Hg.
  - exists w'. split; [exact E|]. split; [exact S|].
    intros (pat & Hin & Hm). apply (G tt). right. exists pat. split; assumption.
Qed.

(** The loop over the patterns for one directory name. *)
Lemma rmtree_loop (h : host) (patterns : list string) (name path : string)
    (w : World) :
  good w ->
  Path.parts (h_windows (w_host w)) path <> [] ->
  exists w',
    for_each patterns (fun pattern =>
      if h_fnmatch h name pattern then safe_rmtree path else ret tt) w
    = (Ret tt, w') /\ steps w w' /\
    (matches h patterns name ->
     forall (c : string) (rest : list string) (lk : bool),
       FS.lookup (Path.parts (h_windows (w_host w)) path ++ c :: rest) (w_fs w)
       = Some (File lk) ->
       settled (Path.parts (h_windows (w_host w)) path ++ c :: rest)
         (below (h_windows (w_host w)) path (c :: rest)) lk w').
Proof.
  intros Hg Hne.
  set (win := h_windows (w_host w)) in *.
  set (q := Path.parts win path) in *.
  destruct (for_each_runs
              (fun (_ : unit) w1 => forall c rest lk,
                 FS.lookup (q ++ c :: rest) (w_fs w) = Some (File lk) ->
                 settled (q ++ c :: rest) (below win path (c :: rest)) lk w1)
              (fun _ pat => h_fnmatch h name pat = true)
              patterns
              (fun pattern =>
                 if h_fnmatch h name pattern then safe_rmtree path else ret tt)
              w) as (w' & E & S & G).
  - intros _ w1 w2 S12 H c rest lk Hlk. eapply settled_stable; eauto.
  - intros pat _ w1 S1.
    destruct (h_fnmatch h name pat) eqn:Em.
    + assert (Eh : h_windows (w_host w1) = win) by (destruct S1 as (_ & -> & _); reflexivity).
      destruct (safe_rmtree_runs path w1 ltac:(apply S1)) as (w2 & E2 & S2 & R).
      { rewrite Eh. exact Hne. }
      rewrite Eh in R. fold q in R.
      exists w2. split; [exact E2|]. split; [exact S2|].
      intros _ _ c rest lk Hlk.
      destruct (shrinks_file (w_fs w) (w_fs w1) _ lk ltac:(apply S1) Hlk)
        as [Hn|Hf].
      * unfold settled. destruct lk.
        -- rewrite (steps_locked w w1 _ S1 Hlk) in Hn. discriminate.
        -- apply (steps_gone w1 w2 _ S2 Hn).
      * destruct (lookup_below_dir q c rest _ _ Hf) as (lk' & es' & Hd & Hr).
        destruct (R lk' es' Hd) as [R1 R2].
        unfold settled. destruct lk; [apply R2 | apply R1]; exact Hr.
    + exists w1. split; [reflexivity|]. split; [apply steps_refl, S1|].
      discriminate.
  - exact Hg.
  - exists w'. split; [exact E|]. split; [exact S|].
    intros (pat & Hin & Hm). apply (G tt). right. exists pat. split; assumption.
Qed.

Lemma steps_host (w w' : World) : steps w w' -> w_host w' = w_host w.
Proof. intros (_ & H & _). exact H. Qed.

Lemma lookup_dir_child (p : list string) (name : string) (rest : list string)
    (t n : node) (lk : bool) (es : FS.entries) :
  FS.lookup p t = Some (Dir lk es) ->
  FS.lookup (p ++ name :: rest) t = Some n ->
  exists m, FS.child es name = Some m /\ FS.lookup rest m = Some n.
Proof.
  intros Hp. rewrite lookup_app, Hp. cbn [FS.lookup].
  destruct (FS.child es name) as [m|]; [|discriminate]. eauto.
Qed.

(** One round of the loop of [recursive_rm], at the directory with the
    components [p]: it is a step of cleanup, and unless the directory is
    passed over it settles every file reached through an entry whose
    name matches. *)
Lemma recursive_rm_body_runs (patterns : list string) (p : list string)
    (w : World) (lk : bool) (es : FS.entries) :
  good w ->
  names_ok (h_windows (w_host w)) p ->
  FS.lookup p (w_fs w) = Some (Dir lk es) ->
  exists w',
    recursive_rm_body patterns (walk_root (h_windows (w_host w)) p)
      (FS.dirs_of es) (FS.files_of es) w = (Ret tt, w') /\
    steps w w' /\
    (String.prefix ".git/"
       (Path.normpath (h_windows (w_host w))
          (walk_root (h_windows (w_host w)) p)) = false ->
     forall (name : string) (rest : list string) (lkq : bool),
       matches (w_host w) patterns name ->
       FS.lookup (p ++ name :: rest) (w_fs w) = Some (File lkq) ->
       settled (p ++ name :: rest)
         (below (h_windows (w_host w))
            (Path.join (h_windows (w_host w))
               (Path.normpath (h_windows (w_host w))
                  (walk_root (h_windows (w_host w)) p)) name) rest)
         lkq w').
Proof.
  intros Hg Hp Hdir.
  set (win := h_windows (w_host w)) in *.
  set (root := Path.normpath win (walk_root win p)).
  pose proof (wf_lookup win p _ _ Hg Hdir) as Hwd.
  pose proof (proj1 (wf_dir win lk es) Hwd) as [Hnd Hall].
  rewrite List.Forall_forall in Hall.
  unfold recursive_rm_body. rewrite (bind_runs get _ w w w eq_refl).
  cbv zeta. fold win. fold root.
  destruct (String.prefix ".git/" root) eqn:Eskip.
  { exists w. split; [reflexivity|]. split; [apply steps_refl; exact Hg|].
    discriminate. }
  (* the files *)
  destruct (for_each_runs
              (fun (i : string * bool) w1 =>
                 FS.lookup (p ++ [i.1]) (w_fs w) = Some (File i.2) ->
                 matches (w_host w) patterns i.1 ->
                 settled (p ++ [i.1]) (Path.join win root i.1) i.2 w1)
              (fun i file => file = i.1)
              (FS.files_of es)
              (fun file =>
                 for_each patterns (fun pattern =>
                   if h_fnmatch (w_host w) file pattern
                   then safe_remove (Path.join win root file)
                   else ret tt))
              w) as (w1 & E1 & S1 & G1).
  { intros i wa wb Sab H Hl Hm. eapply settled_stable; eauto. }
  { intros file Hfile wa Sa.
    apply In_files_of in Hfile. destruct Hfile as (lkf & Hin).
    destruct (Hall (file, File lkf) Hin) as [Hname _]. cbn [fst] in Hname.
    pose proof (parts_target win p file Hp Hname) as Eparts. fold root in Eparts.
    assert (Hfile : FS.lookup (p ++ [file]) (w_fs w) = Some (File lkf)).
    { rewrite lookup_app, Hdir. cbn [FS.lookup].
      rewrite (In_child es file _ Hnd Hin). reflexivity. }
    assert (Eh : h_windows (w_host wa) = win)
      by (rewrite (steps_host w wa Sa); reflexivity).
    destruct (remove_loop (w_host w) patterns file (Path.join win root file) wa)
      as (wb & Eb & Sb & Gb).
    - apply Sa.
    - rewrite Eh, Eparts. destruct p; discriminate.
    - rewrite Eh, Eparts.
      apply (shrinks_not_dir (w_fs w) (w_fs wa)); [apply Sa|].
      intros lk' es'. rewrite Hfile. discriminate.
    - exists wb. split; [exact Eb|]. split; [exact Sb|].
      intros [name lkq] Hq Hl Hm. cbn [fst snd] in *. subst name.
      rewrite Eh, Eparts in Gb.
      destruct (shrinks_file (w_fs w) (w_fs wa) _ lkq ltac:(apply Sa) Hl)
        as [Hn|Hf].
      + unfold settled. destruct lkq.
        * rewrite (steps_locked w wa _ Sa Hl) in Hn. discriminate.
        * apply (steps_gone wa wb _ Sb Hn).
      + apply (Gb Hm lkq Hf). }
  { exact Hg. }
  (* the directories *)
  destruct (for_each_runs
              (fun (i : string * string * list string * bool) w2 =>
                 FS.lookup (p ++ i.1.1.1 :: i.1.1.2 :: i.1.2) (w_fs w)
                 = Some (File i.2) ->
                 matches (w_host w) patterns i.1.1.1 ->
                 settled (p ++ i.1.1.1 :: i.1.1.2 :: i.1.2)
                   (below win (Path.join win root i.1.1.1) (i.1.1.2 :: i.1.2))
                   i.2 w2)
              (fun i dir => dir = i.1.1.1)
              (FS.dirs_of es)
              (fun dir =>
                 for_each patterns (fun pattern =>
                   if h_fnmatch (w_host w) dir pattern
                   then safe_rmtree (Path.join win root dir)
                   else ret tt))
              w1) as (w2 & E2 & S2 & G2).
  { intros i wa wb Sab H Hl Hm. eapply settled_stable; eauto. }
  { intros dir Hd wa Sa.
    pose proof (steps_trans _ _ _ S1 Sa) as Swa.
    apply In_dirs_of in Hd. destruct Hd as (lkd & esd & Hin).
    destruct (Hall (dir, Dir lkd esd) Hin) as [Hname _]. cbn [fst] in Hname.
    pose proof (parts_target win p dir Hp Hname) as Eparts. fold root in Eparts.
    assert (Eh : h_windows (w_host wa) = win)
      by (rewrite (steps_host w wa Swa); reflexivity).
    destruct (rmtree_loop (w_host w) patterns dir (Path.join win root dir) wa)
      as (wb & Eb & Sb & Gb).
    - apply Sa.
    - rewrite Eh, Eparts. destruct p; discriminate.
    - exists wb. split; [exact Eb|]. split; [exact Sb|].
      intros [[[name c] rest] lkq] Hq Hl Hm. cbn [fst snd] in *. subst name.
      rewrite Eh, Eparts in Gb.
      assert (Ea : (p ++ [dir]) ++ c :: rest = p ++ dir :: c :: rest)
        by (rewrite <- app_assoc; reflexivity).
      pose proof (Gb Hm c rest lkq) as Gb'. rewrite Ea in Gb'.
      destruct (shrinks_file (w_fs w) (w_fs wa) _ lkq ltac:(apply Swa) Hl)
        as [Hn|Hf].
      + unfold settled. destruct lkq.
        * rewrite (steps_locked w wa _ Swa Hl) in Hn. discriminate.
        * apply (steps_gone wa wb _ Sb Hn).
      + apply (Gb' Hf). }
  { apply S1. }
  exists w2. split; [|split].
  - rewrite (bind_runs _ _ _ _ _ E1). exact E2.
  - exact (steps_trans _ _ _ S1 S2).
  - intros _ name rest lkq Hm Hl.
    destruct (lookup_dir_child p name rest _ _ lk es Hdir Hl) as (m & Hc & Hr).
    destruct rest as [|c rest].
    + cbn in Hr. injection Hr as ->.
      apply (settled_stable _ _ _ w1 w2 S2).
      apply (G1 (name, lkq)); [|exact Hl | exact Hm].
      right. exists name. split; [|reflexivity].
      apply In_files_of. exists lkq. apply child_In. exact Hc.
    + destruct m as [lkm|lkm esm]; [discriminate|].
      apply (G2 (name, c, rest, lkq)); [|exact Hl | exact Hm].
      right. exists name. split; [|reflexivity].
      apply In_dirs_of. exists lkm, esm. apply child_In. exact Hc.
Qed.

(** The walk of [recursive_rm] from the directory with the components
    [p], with the fuel that [os_walk] leaves at that depth. *)
Lemma recursive_rm_walk_runs (patterns : list string) (w0 : World) :
  good w0 ->
  forall (fuel : nat) (p : list string) (w : World),
    names_ok (h_windows (w_host w0)) p ->
    steps w0 w ->
    (length p <= FS.height (w_fs w0))%nat ->
    (fuel + length p = S (FS.height (w_fs w0)))%nat ->
    exists w',
      walk_from fuel (walk_root (h_windows (w_host w0)) p)
        (recursive_rm_body patterns) w = (Ret tt, w') /\
      steps w w' /\
      forall (suffix : list string) (name : string) (rest : list string)
             (lkq : bool),
        matches (w_host w0) patterns name ->
        String.prefix ".git/"
          (Path.normpath (h_windows (w_host w0))
             (walk_root (h_windows (w_host w0)) (p ++ suffix))) = false ->
        FS.lookup ((p ++ suffix) ++ name :: rest) (w_fs w) = Some (File lkq) ->
        settled ((p ++ suffix) ++ name :: rest)
          (below (h_windows (w_host w0))
             (Path.join (h_windows (w_host w0))
                (Path.normpath (h_windows (w_host w0))
                   (walk_root (h_windows (w_host w0)) (p ++ suffix))) name)
             rest)
          lkq w'.
Proof.
  intros Hg0. set (win := h_windows (w_host w0)).
  induction fuel as [|fuel IH]; intros p w Hp S0 Hlen Hfuel; [lia|].
  assert (Eh : w_host w = w_host w0) by exact (steps_host _ _ S0).
  assert (Hg : good w) by apply S0.
  destruct (walk_root_ok win p Hp) as (_ & Eparts & _).
  cbn [walk_from].
  rewrite (bind_runs get _ w w w eq_refl).
  rewrite (bind_runs (resolve (walk_root win p)) _ w w
             (Path.parts (h_windows (w_host w)) (walk_root win p)) eq_refl).
  rewrite Eh. fold win. rewrite Eparts.
  destruct (FS.lookup p (w_fs w)) as [[lk|lk es]|] eqn:Edir.
  - (* the walk ends at what is no directory *)
    exists w. split; [reflexivity|]. split; [apply steps_refl; exact Hg|].
    intros suffix name rest lkq _ _ Hl. rewrite <- app_assoc in Hl.
    destruct (suffix ++ name :: rest) as [|c r] eqn:Es;
      [destruct suffix; discriminate|].
    destruct (lookup_below_dir p c r _ _ Hl) as (lk' & es' & Hd & _).
    congruence.
  - pose proof (wf_lookup win p _ _ ltac:(unfold good in Hg; rewrite Eh in Hg; exact Hg) Edir)
      as Hwd.
    pose proof (proj1 (wf_dir win lk es) Hwd) as [Hnd Hall].
    rewrite List.Forall_forall in Hall.
    destruct (recursive_rm_body_runs patterns p w lk es Hg
                ltac:(rewrite Eh; exact Hp) Edir) as (w1 & E1 & S1 & G1).
    rewrite Eh in E1, G1. fold win in E1, G1.
    destruct (for_each_runs
                (fun (i : string * list string * string * list string * bool)
                     w2 =>
                   matches (w_host w0) patterns i.1.1.2 ->
                   String.prefix ".git/"
                     (Path.normpath win
                        (walk_root win (p ++ i.1.1.1.1 :: i.1.1.1.2))) = false ->
                   FS.lookup ((p ++ i.1.1.1.1 :: i.1.1.1.2) ++ i.1.1.2 :: i.1.2)
                     (w_fs w) = Some (File i.2) ->
                   settled ((p ++ i.1.1.1.1 :: i.1.1.1.2) ++ i.1.1.2 :: i.1.2)
                     (below win
                        (Path.join win
                           (Path.normpath win
                              (walk_root win (p ++ i.1.1.1.1 :: i.1.1.1.2)))
                           i.1.1.2) i.1.2)
                     i.2 w2)
                (fun i d => d = i.1.1.1.1)
                (FS.dirs_of es)
                (fun d => walk_from fuel (Path.join win (walk_root win p) d)
                            (recursive_rm_body patterns))
                w1) as (w2 & E2 & S2 & G2).
    { intros i wa wb Sab H Hm Hs Hl. eapply settled_stable; eauto. }
    { intros d Hd wa Sa.
      pose proof (steps_trans _ _ _ S1 Sa) as Swa.
      apply In_dirs_of in Hd. destruct Hd as (lkd & esd & Hin).
      destruct (Hall (d, Dir lkd esd) Hin) as [Hname _]. cbn [fst] in Hname.
      assert (Hd : FS.lookup (p ++ [d]) (w_fs w) = Some (Dir lkd esd)).
      { rewrite lookup_app, Edir. cbn [FS.lookup].
        rewrite (In_child es d _ Hnd Hin). reflexivity. }
      assert (Hdeep : (length (p ++ [d]) < FS.height (w_fs w0))%nat).
      { destruct S0 as (_ & _ & _ & _ & [K _]).
        destruct (K _ _ Hd) as (n0 & Hn0 & Hk).
        destruct n0 as [|lk0 es0]; [contradiction|].
        exact (lookup_dir_depth _ _ _ _ Hn0). }
      rewrite length_app in Hdeep. cbn [length] in Hdeep.
      rewrite <- walk_root_snoc.
      destruct (IH (p ++ [d]) wa) as (wb & Eb & Sb & Gb).
      - apply Forall_app. split; [exact Hp|]. constructor; [exact Hname|constructor].
      - exact (steps_trans _ _ _ S0 Swa).
      - rewrite length_app. cbn [length]. lia.
      - rewrite length_app. cbn [length]. lia.
      - exists wb. split; [exact Eb|]. split; [exact Sb|].
        intros [[[[d' suffix] name] rest] lkq] Hq Hm Hs Hl.
        cbn [fst snd] in *. subst d'.
        assert (Ea : (p ++ [d]) ++ suffix = p ++ d :: suffix)
          by (rewrite <- app_assoc; reflexivity).
        specialize (Gb suffix name rest lkq Hm). rewrite Ea in Gb.
        destruct (shrinks_file (w_fs w) (w_fs wa) _ lkq ltac:(apply Swa) Hl)
          as [Hn|Hf].
        + unfold settled. destruct lkq.
          * rewrite (steps_locked w wa _ Swa Hl) in Hn. discriminate.
          * apply (steps_gone wa wb _ Sb Hn).
        + apply (Gb Hs Hf). }
    { apply S1. }
    exists w2. split; [|split].
    + rewrite (bind_runs _ _ _ _ _ E1). exact E2.
    + exact (steps_trans _ _ _ S1 S2).
    + intros suffix name rest lkq Hm Hs Hl.
      destruct suffix as [|d suffix].
      * rewrite app_nil_r in *.
        apply (settled_stable _ _ _ w1 w2 S2).
        apply (G1 Hs name rest lkq); [exact Hm | exact Hl].
      * apply (G2 (d, suffix, name, rest, lkq)); [|exact Hm | exact Hs | exact Hl].
        right. exists d. split; [|reflexivity].
        rewrite <- app_assoc in Hl. cbn [app] in Hl.
        destruct (lookup_dir_child p d _ _ _ lk es Edir Hl) as (m & Hc & Hr).
        destruct m as [lkm|lkm esm].
        -- destruct suffix; discriminate.
        -- apply In_dirs_of. exists lkm, esm. apply child_In. exact Hc.
  - exists w. split; [reflexivity|]. split; [apply steps_refl; exact Hg|].
    intros suffix name rest lkq _ _ Hl. rewrite <- app_assoc in Hl.
    destruct (suffix ++ name :: rest) as [|c r] eqn:Es;
      [destruct suffix; discriminate|].
    destruct (lookup_below_dir p c r _ _ Hl) as (lk' & es' & Hd & _).
    congruence.
Qed.

(** [recursive_rm] returns, and leaves every file that it reaches through
    a matching name either removed or reported. *)
Lemma recursive_rm_runs (patterns : list string) (w : World) :
  good w ->
  exists w',
    recursive_rm patterns w = (Ret tt, w') /\ steps w w' /\
    forall (dir : list string) (name : string) (rest : list string)
           (lk : bool),
      matches (w_host w) patterns name ->
      String.prefix ".git/"
        (Path.normpath (h_windows (w_host w))
           (walk_root (h_windows (w_host w)) dir)) = false ->
      FS.lookup (dir ++ name :: rest) (w_fs w) = Some (File lk) ->
      settled (dir ++ name :: rest)
        (below (h_windows (w_host w))
           (Path.join (h_windows (w_host w))
              (Path.normpath (h_windows (w_host w))
                 (walk_root (h_windows (w_host w)) dir)) name)
           rest)
        lk w'.
Proof.
  intros Hg.
  destruct (recursive_rm_walk_runs patterns w Hg
              (S (FS.height (w_fs w))) [] w) as (w' & E & S & G).
  - constructor.
  - apply steps_refl. exact Hg.
  - cbn [length]. lia.
  - cbn [length]. lia.
  - exists w'. split; [|split; [exact S|]].
    + rewrite recursive_rm_unfold. unfold os_walk.
      rewrite (bind_runs get _ w w w eq_refl). exact E.
    + intros dir name rest lk Hm Hs Hl. exact (G dir name rest lk Hm Hs Hl).
Qed.

(** [clean] returns: none of its removals raises. *)
Lemma clean_runs (w : World) :
  good w -> exists w', clean w = (Ret tt, w') /\ steps w w'.
Proof.
  intros Hg. unfold clean.
  assert (Hp : forall (path : string) (win : bool),
             In path ["build"; ".coverage"; "dist"; "docs/_build"; "htmlcov";
                      "tmp"] ->
             Path.parts win path <> []).
  { intros path win Hin. cbn [In] in Hin.
    destruct win;
      repeat (destruct Hin as [<-|Hin]; [vm_compute; discriminate|]);
      destruct Hin. }
  destruct (recursive_rm_runs
              ["$testfn*"; "*.bak"; "*.core"; "*.egg-info"; "*.orig"; "*.pyc";
               "*.pyd"; "*.pyo"; "*.rej"; "*.so"; "*.~"; "*__pycache__";
               ".coverage"; ".failed-tests.txt"; "pytest-cache-files*"] w Hg)
    as (w0 & E0 & S0 & _).
  destruct (safe_rmtree_runs "build" w0 ltac:(apply S0)
              ltac:(apply Hp; cbn; tauto)) as (w1 & E1 & S1 & _).
  destruct (safe_rmtree_runs ".coverage" w1 ltac:(apply S1)
              ltac:(apply Hp; cbn; tauto)) as (w2 & E2 & S2 & _).
  destruct (safe_rmtree_runs "dist" w2 ltac:(apply S2)
              ltac:(apply Hp; cbn; tauto)) as (w3 & E3 & S3 & _).
  destruct (safe_rmtree_runs "docs/_build" w3 ltac:(apply S3)
              ltac:(apply Hp; cbn; tauto)) as (w4 & E4 & S4 & _).
  destruct (safe_rmtree_runs "htmlcov" w4 ltac:(apply S4)
              ltac:(apply Hp; cbn; tauto)) as (w5 & E5 & S5 & _).
  destruct (safe_rmtree_runs "tmp" w5 ltac:(apply S5)
              ltac:(apply Hp; cbn; tauto)) as (w6 & E6 & S6 & _).
  exists w6. split.
  - rewrite (bind_runs _ _ _ _ _ E0), (bind_runs _ _ _ _ _ E1),
      (bind_runs _ _ _ _ _ E2), (bind_runs _ _ _ _ _ E3),
      (bind_runs _ _ _ _ _ E4), (bind_runs _ _ _ _ _ E5).
    exact E6.
  - eauto 10 using steps_trans.
Qed.

(** On [locked_tree], [recursive_rm('*.pyc', '*__pycache__')] reports the
    two locked files and removes every other target, those after the
    locked ones too.  The file below [__pycache__] is reported twice: by
    the removal of the directory, and when the walk enters what is left of
    it. *)
Lemma recursive_rm_locked_tree :
  let w := start calm_host ∅ "/repo" locked_tree in
  recursive_rm ["*.pyc"; "*__pycache__"] w
  = (Ret tt,
     add_outs
       [(Stdout, ErrStr (PermissionError "./a.pyc"));
        (Stdout, Text "rm ./z.pyc");
        (Stdout, Text "rm pkg/b.pyc");
        (Stdout, ErrStr (PermissionError "pkg/__pycache__/c.pyc"));
        (Stdout, ErrStr (OSError "pkg/__pycache__"));
        (Stdout, ErrStr (PermissionError "pkg/__pycache__/c.pyc"))]
       (set_fs locked_tree_after w)).
Proof. vm_compute. reflexivity. Qed.

(** [safe_remove] on a file that cannot be removed prints the error and
    returns; nothing else changes. *)
Lemma safe_remove_locked (path : string) (w : World) :
  FS.lookup (Path.parts (h_windows (w_host w)) path) (w_fs w)
  = Some (File true) ->
  safe_remove path w
  = (Ret tt, add_out (Stdout, ErrStr (PermissionError path)) w).
Proof.
  intros E.
  unfold safe_remove, try_except, os_remove, resolve, safe_print, print. run.
  rewrite E. reflexivity.
Qed.



(** * Further properties *)

(** ** Dispatch *)

(** [main] on a command line of one accepted word, up to the call. *)
Lemma main_single (fuel : nat) (cl : cmdline) (w : World) (c py : string) :
  cl_words cl = [c] -> mem c commands = true -> String.eqb c "help" = false ->
  get_python (w_host w) (cl_python cl) = Some py -> Str.truthy py = true ->
  main fuel cl w
  = (fn ← getattr fuel (fname c);
     if String.eqb c "test-by-name" then test_by_name ""
     else if String.eqb c "test-by-regex" then test_by_regex ""
     else call0 (fname c) fn) (resolved py w).
Proof.
  intros Hw Hm Hh Hgp Hty.
  unfold main, parse_args, argparse, resolved. rewrite Hw. run. rewrite Hm.
  cbn [negb ns_command ns_python ns_arg fst snd].
  rewrite Hh. cbn [ns_command ns_python ns_arg fst snd]. rewrite Hgp, Hty.
  unfold win_colorprint, print. run. cbn [w_host set_penv set_PYTHON fst snd].
  rewrite andb_false_r.
  destruct (h_windows (w_host w)); reflexivity.
Qed.

(** [main] on a command that takes an argument, up to the call. *)
Lemma main_with_arg (fuel : nat) (cl : cmdline) (w : World)
    (c arg py : string) :
  cl_words cl = [c; arg] -> c = "test-by-name" \/ c = "test-by-regex" ->
  get_python (w_host w) (cl_python cl) = Some py -> Str.truthy py = true ->
  main fuel cl w
  = (if String.eqb c "test-by-name" then test_by_name arg
     else test_by_regex arg) (resolved py w).
Proof.
  intros Hw Hc Hgp Hty.
  unfold main, parse_args, argparse, resolved. rewrite Hw. run.
  destruct Hc as [-> | ->]; cbn; rewrite Hgp, Hty;
    unfold win_colorprint, print; run; cbn;
    destruct (h_windows (w_host w)); reflexivity.
Qed.

(** X1: the dispatcher calls the function that the command names, with the
    arguments that the function takes: for a command line of one word of
    the enumeration other than [help], [main] resolves the interpreter and
    then runs the function bound to the name with [-] replaced by [_]; a
    function without parameter is called without argument, [test] with
    its default, and the two functions with a required parameter are
    called with the argument of the command line ([''] when it is
    missing).  No accepted command ends in a missing attribute or in a
    call with the wrong number of arguments. *)
Theorem dispatch_runs_named_task
    (fuel : nat) (cl : cmdline) (w : World) (py : string) :
  get_python (w_host w) (cl_python cl) = Some py -> Str.truthy py = true ->
  (forall c : string,
     cl_words cl = [c] -> In c commands -> c <> "help" ->
     exists a : attr,
       binding (module_names fuel) (fname c) = Some a /\
       ((exists run, a = Fn0 run /\ main fuel cl w = run (resolved py w)) \/
        (exists run, a = FnTest run /\
                     main fuel cl w = run None (resolved py w)) \/
        (exists run, a = FnArg run /\
                     main fuel cl w = run "" (resolved py w)))) /\
  (forall arg : string,
     cl_words cl = ["test-by-name"; arg] ->
     binding (module_names fuel) (fname "test-by-name")
     = Some (FnArg test_by_name) /\
     main fuel cl w = test_by_name arg (resolved py w)) /\
  (forall arg : string,
     cl_words cl = ["test-by-regex"; arg] ->
     binding (module_names fuel) (fname "test-by-regex")
     = Some (FnArg test_by_regex) /\
     main fuel cl w = test_by_regex arg (resolved py w)).
Proof.
  intros Hgp Hty. split; [|split].
  - intros c Hw Hin Hne.
    assert (Hm : mem c commands = true) by (apply mem_In; exact Hin).
    assert (Hh : String.eqb c "help" = false)
      by (apply String.eqb_neq; exact Hne).
    rewrite (main_single fuel cl w c py Hw Hm Hh Hgp Hty).
    clear Hw Hm Hh Hgp Hty. generalize (resolved py w). intros w1.
    unfold commands in Hin. cbn [In] in Hin.
    repeat (destruct Hin as [<-|Hin];
            [ first
                [ exfalso; apply Hne; reflexivity
                | eexists; split; [reflexivity|];
                  first [ left; eexists; split; reflexivity
                        | right; left; eexists; split; reflexivity
                        | right; right; eexists; split; reflexivity ] ] |]).
    destruct Hin.
  - intros arg Hw. split; [reflexivity|].
    rewrite (main_with_arg fuel cl w _ arg py Hw (or_introl eq_refl) Hgp Hty).
    reflexivity.
  - intros arg Hw. split; [reflexivity|].
    rewrite (main_with_arg fuel cl w _ arg py Hw (or_intror eq_refl) Hgp Hty).
    reflexivity.
Qed.

Lemma dispatch_runs_named_task_witness :
  main 0 {| cl_python := None; cl_words := ["test-by-name"; "test_cpu"] |}
    (start calm_host ∅ "/repo" demo_tree)
  = test_by_name "test_cpu"
      (resolved "/usr/bin/python3" (start calm_host ∅ "/repo" demo_tree)).
Proof.
  exact (proj2 (proj1 (proj2 (dispatch_runs_named_task 0
           {| cl_python := None; cl_words := ["test-by-name"; "test_cpu"] |}
           (start calm_host ∅ "/repo" demo_tree) "/usr/bin/python3"
           eq_refl eq_refl)) "test_cpu" eq_refl)).
Defined.

(** X2: only [test], [test-by-name] and [test-by-regex] were given the
    optional positional argument: a word after any other command, and a
    second word after any command, is rejected by the parser, which
    prints the usage on standard error and exits with status 2; nothing
    runs and nothing else changes. *)
Theorem unexpected_argument_is_rejected
    (fuel : nat) (cl : cmdline) (w : World) (c a : string)
    (rest : list string) :
  cl_words cl = c :: a :: rest ->
  (c <> "test" /\ c <> "test-by-name" /\ c <> "test-by-regex") \/ rest <> [] ->
  main fuel cl w = (SysExit (ExitCode 2), add_out (Stderr, Usage) w).
Proof.
  intros Hw H.
  unfold main, parse_args, argparse, parser_error. rewrite Hw. run.
  destruct (mem c commands); cbn [negb]; [|reflexivity].
  destruct rest as [|b rest]; [|reflexivity].
  destruct H as [(H1 & H2 & H3)|H]; [|contradiction].
  apply String.eqb_neq in H1, H2, H3.
  unfold takes_arg, mem. cbn [existsb]. rewrite H1, H2, H3. reflexivity.
Qed.

Lemma unexpected_argument_is_rejected_witness :
  main 0 {| cl_python := None; cl_words := ["clean"; "build"] |}
    (start calm_host ∅ "/repo" demo_tree)
  = (SysExit (ExitCode 2),
     add_out (Stderr, Usage) (start calm_host ∅ "/repo" demo_tree)).
Proof.
  apply (unexpected_argument_is_rejected 0
           {| cl_python := None; cl_words := ["clean"; "build"] |}
           (start calm_host ∅ "/repo" demo_tree) "clean" "build" []).
  - reflexivity.
  - left. repeat split; discriminate.
Defined.

(** ** The build *)

Lemma win_colorprint_out (s : string) (c : Z) (w : World) :
  win_colorprint s c w
  = (Ret tt, add_out (tinted (h_windows (w_host w)) c s) w).
Proof.
  unfold win_colorprint, print, tinted. run.
  destruct (h_windows (w_host w)); reflexivity.
Qed.

(** The loop of [build] over the lines of the compiler shows every line,
    in order. *)
Lemma build_lines_out (lines : list string) (w : World) :
  for_each lines (fun line =>
    if Str.contains "warning" line then win_colorprint line YELLOW
    else if Str.contains "error" line then win_colorprint line RED
    else print (Text line)) w
  = (Ret tt, add_outs (map (shown (h_windows (w_host w))) lines) w).
Proof.
  revert w. induction lines as [|l lines IH]; intros w; cbn [for_each map add_outs].
  - reflexivity.
  - assert (E : (if Str.contains "warning" l then win_colorprint l YELLOW
                 else if Str.contains "error" l then win_colorprint l RED
                 else print (Text l)) w
                = (Ret tt, add_out (shown (h_windows (w_host w)) l) w)).
    { unfold shown, tinted, win_colorprint, print. run.
      destruct (Str.contains "warning" l); [destruct (h_windows _); reflexivity|].
      destruct (Str.contains "error" l); [destruct (h_windows _); reflexivity|].
      reflexivity. }
    rewrite (bind_runs _ _ _ _ _ E). rewrite IH. reflexivity.
Qed.

(** [build] up to the end of the compile step, when [setuptools] is
    there. *)
Lemma build_compile (w : World) (out1 out2 : list string) (n : Z) :
  let py := w_PYTHON w in
  let win := h_windows (w_host w) in
  let cmd1 := [py; "-c"; "import setuptools"] in
  let cmd2 := build_ext_cmd py (h_cpu_count (w_host w)) in
  let w2 :=
    add_outs (map (shown win) out2)
      (add_child {| c_cmd := cmd2; c_env := w_penv w; c_cwd := w_cwd w;
                    c_via_sh := false; c_returncode := Some n |}
         (add_child {| c_cmd := cmd1; c_env := w_environ w; c_cwd := w_cwd w;
                       c_via_sh := true; c_returncode := Some 0%Z |}
            (add_out (Stdout, CmdLine cmd1) w))) in
  h_popen (w_host w) (length (w_children w)) cmd1 = Started out1 0%Z ->
  h_popen (w_host w) (S (length (w_children w))) cmd2 = Started out2 n ->
  build w
  = if decide (n ≠ 0%Z)
    then (SysExit (ExitCode n), add_out (tinted win RED "failure") w2)
    else (sh [py; "-c"; "import psutil"] false ;;
          win_colorprint "build + import successful" GREEN) w2.
Proof.
  intros py win cmd1 cmd2 w2 H1 H2.
  unfold build.
  rewrite (bind_runs PYTHON _ w w (w_PYTHON w) eq_refl). fold py.
  assert (E1 : sh cmd1 false w
               = (Ret tt,
                  add_child {| c_cmd := cmd1; c_env := w_environ w;
                               c_cwd := w_cwd w; c_via_sh := true;
                               c_returncode := Some 0%Z |}
                    (add_out (Stdout, CmdLine cmd1) w))).
  { rewrite sh_run, H1. destruct (decide (0%Z ≠ 0%Z)); [contradiction|].
    reflexivity. }
  fold cmd1. rewrite (bind_runs _ _ _ _ _ E1).
  match type of E1 with _ = (_, ?x) => set (w1 := x) in * end.
  rewrite (bind_runs get _ w1 w1 w1 eq_refl). cbn beta zeta.
  change (h_cpu_count (w_host w1)) with (h_cpu_count (w_host w)).
  change ([py; "setup.py"; "build_ext"; "-i"] ++
          match h_cpu_count (w_host w) with
          | Some (S n0) => ["--parallel"; Str.of_nat (S n0)]
          | _ => []
          end) with cmd2.
  assert (E2 : popen false cmd2 None w1
               = (Ret (out2, n),
                  add_child {| c_cmd := cmd2; c_env := w_penv w;
                               c_cwd := w_cwd w; c_via_sh := false;
                               c_returncode := Some n |} w1)).
  { unfold popen. run.
    replace (length (w_children w1)) with (S (length (w_children w)))
      by (subst w1; cbn; rewrite length_app; cbn; lia).
    change (w_host w1) with (w_host w). rewrite H2. reflexivity. }
  rewrite (bind_runs _ _ _ _ _ E2). cbn [fst snd].
  match type of E2 with _ = (_, ?x) => set (w1' := x) in * end.
  assert (E3 : win_colorprint "failure" RED w2
               = (Ret tt, add_out (tinted win RED "failure") w2)).
  { unfold win_colorprint, print, tinted. run.
    replace (h_windows (w_host w2)) with win
      by (subst w2; rewrite (proj1 (add_outs_rest _ _)); reflexivity).
    destruct win; reflexivity. }
  destruct (decide (n ≠ 0%Z)) as [Hn|Hz].
  - unfold mbind at 1, M_bind at 1, bind at 1, try_finally.
    rewrite (bind_runs _ _ _ _ _ (build_lines_out out2 w1')).
    change (add_outs (map (shown (h_windows (w_host w1'))) out2) w1') with w2.
    rewrite (bind_runs _ _ _ _ _ E3). reflexivity.
  - unfold mbind at 1, M_bind at 1, bind at 1, try_finally.
    rewrite (bind_runs _ _ _ _ _ (build_lines_out out2 w1')).
    change (add_outs (map (shown (h_windows (w_host w1'))) out2) w1') with w2.
    reflexivity.
Qed.



(** X4: when all three children of [build] end with 0, [build] returns after
    the success message; it has logged the two commands run through [sh]
    and shown every line of the compiler in between, each one once and in
    order. *)
Theorem build_success_report (w : World) (out1 out2 out3 : list string) :
  let py := w_PYTHON w in
  let win := h_windows (w_host w) in
  let cmd1 := [py; "-c"; "import setuptools"] in
  let cmd2 := build_ext_cmd py (h_cpu_count (w_host w)) in
  let cmd3 := [py; "-c"; "import psutil"] in
  h_popen (w_host w) (length (w_children w)) cmd1 = Started out1 0%Z ->
  h_popen (w_host w) (S (length (w_children w))) cmd2 = Started out2 0%Z ->
  h_popen (w_host w) (S (S (length (w_children w)))) cmd3 = Started out3 0%Z ->
  (build w).1 = Ret tt /\
  map c_cmd (w_children (build w).2)
  = map c_cmd (w_children w) ++ [cmd1; cmd2; cmd3] /\
  map c_via_sh (w_children (build w).2)
  = map c_via_sh (w_children w) ++ [true; false; true] /\
  w_out (build w).2
  = w_out w ++ [(Stdout, CmdLine cmd1)] ++ map (shown win) out2 ++
    [(Stdout, CmdLine cmd3); tinted win GREEN "build + import successful"] /\
  w_fs (build w).2 = w_fs w.
Proof.
  intros py win cmd1 cmd2 cmd3 H1 H2 H3.
  rewrite (build_compile w out1 out2 0%Z H1 H2).
  destruct (decide (0%Z ≠ 0%Z)) as [Hz|_]; [contradiction|].
  match goal with |- context [(_ ;; _) ?x] => set (w2 := x) end.
  assert (Hh : w_host w2 = w_host w)
    by (subst w2; rewrite (proj1 (add_outs_rest _ _)); reflexivity).
  assert (Hc : w_children w2
               = w_children w ++
                 [{| c_cmd := cmd1; c_env := w_environ w; c_cwd := w_cwd w;
                     c_via_sh := true; c_returncode := Some 0%Z |};
                  {| c_cmd := cmd2; c_env := w_penv w; c_cwd := w_cwd w;
                     c_via_sh := false; c_returncode := Some 0%Z |}]).
  { subst w2. rewrite (proj1 (proj2 (add_outs_rest _ _))). cbn.
    rewrite <- app_assoc. reflexivity. }
  assert (Hf : w_fs w2 = w_fs w)
    by (subst w2; rewrite (proj2 (proj2 (add_outs_rest _ _))); reflexivity).
  assert (Ho : w_out w2 = (w_out w ++ [(Stdout, CmdLine cmd1)]) ++ map (shown win) out2).
  { subst w2. rewrite add_outs_out. reflexivity. }
  assert (E3 : sh cmd3 false w2
               = (Ret tt,
                  add_child {| c_cmd := cmd3; c_env := w_environ w2;
                               c_cwd := w_cwd w2; c_via_sh := true;
                               c_returncode := Some 0%Z |}
                    (add_out (Stdout, CmdLine cmd3) w2))).
  { rewrite sh_run, Hh, Hc.
    replace (length (w_children w ++ _))
      with (S (S (length (w_children w))))
      by (rewrite length_app; cbn; lia).
    fold py cmd3. rewrite H3.
    destruct (decide (0%Z ≠ 0%Z)); [contradiction | reflexivity]. }
  fold py cmd3. rewrite (bind_runs _ _ _ _ _ E3).
  rewrite win_colorprint_out. cbn [w_host add_child add_out].
  rewrite Hh. fold win.
  cbn [fst snd w_children w_out w_fs add_out add_child].
  rewrite Hc, Hf, Ho. repeat rewrite map_app. cbn [map c_cmd c_via_sh].
  repeat rewrite <- app_assoc. repeat split.
Qed.

Lemma build_success_report_witness :
  w_out (build (start (compiler_host 0) ∅ "/repo" demo_tree)).2
  = [(Stdout, CmdLine ["/usr/bin/python3"; "-c"; "import setuptools"]);
     (Stdout, Text "building 'psutil._psutil_linux' extension");
     (Stdout, Text "arch.c:10: warning: unused variable");
     (Stdout, Text "arch.c:12: error: expected ';'");
     (Stdout, CmdLine ["/usr/bin/python3"; "-c"; "import psutil"]);
     (Stdout, Text "build + import successful")].
Proof.
  destruct (build_success_report (start (compiler_host 0) ∅ "/repo" demo_tree)
              [] _ [] eq_refl eq_refl eq_refl) as (_ & _ & _ & O & _).
  rewrite O. reflexivity.
Defined.

(** ** The manifest *)

Lemma child_snoc (es : FS.entries) (k name : string) (m : node) :
  FS.child (es ++ [(k, m)]) name
  = match FS.child es name with
    | Some x => Some x
    | None => if String.eqb k name then Some m else None
    end.
Proof.
  induction es as [|[k0 m0] es IH]; cbn [FS.child app]; [reflexivity|].
  destruct (String.eqb k0 name); [reflexivity | exact IH].
Qed.

(** X5: [generate_manifest] does not pass the code of its child on: when the
    generator ends with a code [n] other than 0, [check_output] raises
    [CalledProcessError], so that the script ends with status 1 and not
    [n], and [MANIFEST.in] is not opened: the tree is as it was.  When the
    generator ends with 0, [MANIFEST.in] is a file of the current
    directory afterwards, created if it was not there, and no other entry
    of the directory is touched.  The generator is not logged, and it
    inherits the environment block of the process. *)
Theorem generate_manifest_outcomes (w : World) (out : list string) (n : Z) :
  let cmd := [w_PYTHON w; "scripts\internal\generate_manifest.py"] in
  let c := {| c_cmd := cmd; c_env := w_penv w; c_cwd := w_cwd w;
              c_via_sh := false; c_returncode := Some n |} in
  h_popen (w_host w) (length (w_children w)) cmd = Started out n ->
  (n <> 0%Z ->
   generate_manifest w = (Raised (CalledProcessError n cmd), add_child c w) /\
   exit_status (generate_manifest w).1 = Some 1%Z) /\
  (n = 0%Z ->
   forall (lk : bool) (es : FS.entries),
     w_fs w = Dir lk es ->
     FS.child es "MANIFEST.in" = None \/
     FS.child es "MANIFEST.in" = Some (File false) ->
     (generate_manifest w).1 = Ret tt /\
     w_children (generate_manifest w).2 = w_children w ++ [c] /\
     w_out (generate_manifest w).2 = w_out w /\
     FS.lookup ["MANIFEST.in"] (w_fs (generate_manifest w).2)
     = Some (File false) /\
     forall name : string,
       name <> "MANIFEST.in" ->
       FS.lookup [name] (w_fs (generate_manifest w).2)
       = FS.lookup [name] (w_fs w)).
Proof.
  intros cmd c Hp.
  assert (E : popen false cmd None w = (Ret (out, n), add_child c w)).
  { unfold popen. run. rewrite Hp. reflexivity. }
  split.
  - intros Hn.
    assert (G : generate_manifest w
                = (Raised (CalledProcessError n cmd), add_child c w)).
    { unfold generate_manifest.
      rewrite (bind_runs PYTHON _ w w (w_PYTHON w) eq_refl). cbv zeta.
      fold cmd. rewrite (bind_runs _ _ _ _ _ E). cbn [fst snd].
      destruct (decide (n ≠ 0%Z)); [reflexivity | contradiction]. }
    rewrite G. split; reflexivity.
  - intros -> lk es Hfs Hm.
    assert (G : generate_manifest w = write_here "MANIFEST.in" (add_child c w)).
    { unfold generate_manifest.
      rewrite (bind_runs PYTHON _ w w (w_PYTHON w) eq_refl). cbv zeta.
      fold cmd. rewrite (bind_runs _ _ _ _ _ E). cbn [fst snd].
      destruct (decide (0%Z ≠ 0%Z)); [contradiction | reflexivity]. }
    rewrite G. unfold write_here. run. cbn [w_fs add_child]. rewrite Hfs.
    destruct Hm as [Hm|Hm]; rewrite Hm; cbn [fst snd w_children w_out w_fs
      add_child set_fs FS.lookup].
    + rewrite child_snoc, Hm.
      change (String.eqb "MANIFEST.in" "MANIFEST.in") with true.
      repeat split.
      intros name Hne. rewrite child_snoc.
      destruct (FS.child es name); [reflexivity|].
      destruct (String.eqb_spec "MANIFEST.in" name); [congruence | reflexivity].
    + rewrite Hfs. cbn [FS.lookup]. rewrite Hm. repeat split.
Qed.

Lemma generate_manifest_outcomes_witness :
  let w := start (demo_host (fun _ _ => 3%Z) (fun _ => false)) ∅ "/repo"
             demo_tree in
  (generate_manifest w).1
  = Raised (CalledProcessError 3
              ["/usr/bin/python3"; "scripts\internal\generate_manifest.py"]) /\
  exit_status (generate_manifest w).1 = Some 1%Z /\
  w_fs (generate_manifest w).2 = demo_tree.
Proof.
  intros w.
  destruct (proj1 (generate_manifest_outcomes w [] 3%Z eq_refl)
              ltac:(discriminate)) as [G S].
  rewrite G. repeat split.
Defined.

(** ** Uninstalling *)

(** Once [import psutil] succeeds, the module stays in [sys.modules] and
    every later import succeeds as well. *)
Lemma import_psutil_found (w : World) :
  w_psutil_loaded w = true \/ h_psutil_importable (w_host w) = true ->
  exists w1,
    import_psutil w = (Ret true, w1) /\ w_psutil_loaded w1 = true /\
    w_host w1 = w_host w /\ w_children w1 = w_children w.
Proof.
  intros H. unfold import_psutil. run.
  destruct (w_psutil_loaded w) eqn:L.
  - exists w. repeat split. exact L.
  - destruct H as [H|H]; [discriminate|]. rewrite H.
    eexists. repeat split.
Qed.

Lemma uninstall_loop_goes_on (fuel : nat) (w : World) :
  w_psutil_loaded w = true \/ h_psutil_importable (w_host w) = true ->
  (uninstall_loop fuel w).1 <> Ret tt /\
  (calm (w_host w) ->
   (uninstall_loop fuel w).1 = Timeout /\
   length (w_children (uninstall_loop fuel w).2)
   = (length (w_children w) + fuel)%nat).
Proof.
  revert w. induction fuel as [|fuel IH]; intros w H; cbn [uninstall_loop].
  - split; [discriminate|]. intros _. split; [reflexivity|]. cbn. lia.
  - destruct (import_psutil_found w H) as (w1 & E1 & L1 & Hh & Hc).
    rewrite (bind_runs _ _ _ _ _ E1).
    rewrite (bind_runs PYTHON _ w1 w1 (w_PYTHON w1) eq_refl).
    set (cmd := [w_PYTHON w1; "-m"; "pip"; "uninstall"; "-y"; "psutil"]).
    pose proof (sh_run cmd false w1) as S. cbv zeta in S.
    unfold mbind, M_bind, bind. rewrite S.
    destruct (h_popen (w_host w1) (length (w_children w1)) cmd)
      as [out rc|] eqn:P.
    + destruct (decide (rc ≠ 0%Z)) as [Hn|Hz].
      * split; [discriminate|]. intros Hcalm. exfalso.
        rewrite <- Hh in Hcalm.
        destruct (Hcalm (length (w_children w1)) cmd) as [out' P'].
        rewrite P in P'. injection P' as _ ->. apply Hn. reflexivity.
      * match goal with
        | |- context [uninstall_loop fuel ?x] => set (w2 := x)
        end.
        destruct (IH w2 (or_introl L1)) as [I1 I2].
        split; [exact I1|]. intros Hcalm.
        destruct (I2 ltac:(rewrite <- Hh in Hcalm; exact Hcalm)) as [T N].
        split; [exact T|]. rewrite N. subst w2.
        cbn [w_children add_child add_out]. rewrite length_app, Hc. cbn. lia.
    + split; [discriminate|]. intros Hcalm. exfalso.
      rewrite <- Hh in Hcalm.
      destruct (Hcalm (length (w_children w1)) cmd) as [out' P'].
      rewrite P in P'. discriminate.
Qed.

(** X6: the loop of [uninstall] ends normally only if [import psutil] fails
    at the first attempt, and then pip is not run and nothing changes.
    If psutil can be imported (or was imported before), every later
    import finds the module again, so that the loop goes on for as long
    as pip ends with 0: it never ends normally, whatever the bound of the
    model; when every child ends with 0 it runs pip once per round and
    uses up the bound. *)
Theorem uninstall_loop_ends_only_without_psutil (fuel : nat) (w : World) :
  (w_psutil_loaded w = false -> h_psutil_importable (w_host w) = false ->
   uninstall_loop (S fuel) w = (Ret tt, w)) /\
  (w_psutil_loaded w = true \/ h_psutil_importable (w_host w) = true ->
   (uninstall_loop fuel w).1 <> Ret tt /\
   (calm (w_host w) ->
    (uninstall_loop fuel w).1 = Timeout /\
    length (w_children (uninstall_loop fuel w).2)
    = (length (w_children w) + fuel)%nat)).
Proof.
  split.
  - intros L I. cbn [uninstall_loop]. unfold import_psutil. run.
    rewrite L, I. reflexivity.
  - apply uninstall_loop_goes_on.
Qed.

Lemma uninstall_loop_ends_only_without_psutil_witness :
  (uninstall_loop 5 (start psutil_host ∅ "C:\repo" demo_tree)).1 = Timeout /\
  length (w_children (uninstall_loop 5 (start psutil_host ∅ "C:\repo" demo_tree)).2)
  = 5%nat.
Proof.
  apply (proj2 (proj2 (uninstall_loop_ends_only_without_psutil 5
                         (start psutil_host ∅ "C:\repo" demo_tree))
                  (or_intror eq_refl))).
  intros n cmd. exists []. reflexivity.
Defined.

(** A computation that begins in [w] ends in the same directory, on the
    same host. *)
Lemma bind_stays {A B} (m : M A) (k : A -> M B) (w : World) :
  w_cwd (m w).2 = w_cwd w /\ w_host (m w).2 = w_host w ->
  (forall a w1, m w = (Ret a, w1) ->
     w_cwd (k a w1).2 = w_cwd w1 /\ w_host (k a w1).2 = w_host w1) ->
  w_cwd ((m ≫= k) w).2 = w_cwd w /\ w_host ((m ≫= k) w).2 = w_host w.
Proof.
  intros Hm Hk. unfold mbind, M_bind, bind.
  destruct (m w) as [[a| | |] w1]; cbn [snd] in *; try exact Hm.
  destruct (Hk a w1 eq_refl) as [K1 K2]. destruct Hm as [H1 H2].
  split; congruence.
Qed.

Lemma silent_stays {A} (m : M A) (w : World) :
  silent m -> w_cwd (m w).2 = w_cwd w /\ w_host (m w).2 = w_host w.
Proof. intros H. destruct (H w) as (_ & H2 & H3). split; assumption. Qed.

Lemma sh_stays (cmd : list string) (nolog : bool) (w : World) :
  w_cwd (sh cmd nolog w).2 = w_cwd w /\ w_host (sh cmd nolog w).2 = w_host w.
Proof.
  rewrite sh_run.
  destruct (h_popen (w_host w) (length (w_children w)) cmd);
    destruct nolog; split; reflexivity.
Qed.

(** The block [try: os.chdir('C:\\'); ... finally: os.chdir(here)] of
    [uninstall], begun in the directory [here]. *)
Lemma uninstall_block (fuel : nat) (w : World) :
  cwd_ok w ->
  let r := try_finally (chdir "C:\" ;; uninstall_loop fuel) (chdir (w_cwd w)) w in
  w_cwd r.2 = w_cwd w /\ w_host r.2 = w_host w /\
  (h_isdir (w_host w) "C:\" = false ->
   r.1 = Raised (FileNotFoundError "C:\")).
Proof.
  intros Hok r.
  assert (D : disciplined (chdir "C:\" ;; uninstall_loop fuel)).
  { apply disciplined_bind; [apply disciplined_chdir|intros _].
    apply disciplined_uninstall_loop. }
  destruct (D w Hok) as (new & _ & Hh & _ & _).
  subst r. unfold try_finally.
  destruct ((chdir "C:\" ;; uninstall_loop fuel) w) as [rb wb] eqn:E.
  cbn [snd] in Hh.
  assert (F : chdir (w_cwd w) wb = (Ret tt, set_cwd (w_cwd w) wb)).
  { unfold chdir. run. rewrite Hh, Hok. reflexivity. }
  rewrite F. cbn [fst snd set_cwd w_cwd w_host].
  split; [reflexivity|]. split; [exact Hh|].
  intros Hno. unfold chdir in E. run. rewrite Hno in E.
  injection E as <- _. reflexivity.
Qed.

Lemma install_pip_stays (w : World) :
  w_cwd (install_pip w).2 = w_cwd w /\ w_host (install_pip w).2 = w_host w.
Proof.
  unfold install_pip.
  rewrite (bind_runs PYTHON _ w w (w_PYTHON w) eq_refl).
  rewrite (bind_runs get _ w w w eq_refl). apply sh_stays.
Qed.

(** X7: [uninstall] ends in the directory in which it began, however it
    ends: the [finally] clause returns there also when pip fails inside
    the loop.  On a host without a directory [C:\] it cannot end
    normally: when the cleanup and [install_pip] are done, [os.chdir]
    raises [FileNotFoundError] before the loop is entered. *)
Theorem uninstall_returns_to_directory (fuel : nat) (w : World) :
  cwd_ok w ->
  w_cwd (uninstall fuel w).2 = w_cwd w /\
  (h_isdir (w_host w) "C:\" = false -> (uninstall fuel w).1 <> Ret tt).
Proof.
  intros Hok. unfold uninstall.
  destruct (silent_clean w) as (_ & C2 & C3).
  unfold mbind, M_bind, bind, get. cbn beta iota.
  destruct (clean w) as [[[]| | |] w0]; cbn [fst snd] in *;
    try (split; [assumption | intros _; discriminate]).
  destruct (install_pip_stays w0) as [P3 P2].
  destruct (install_pip w0) as [[[]| | |] w1]; cbn [fst snd] in *;
    try (split; [congruence | intros _; discriminate]).
  assert (Hok1 : cwd_ok w1) by (unfold cwd_ok; rewrite P2, P3, C2, C3; exact Hok).
  destruct (uninstall_block fuel w1 Hok1) as (B3 & B2 & BR). cbv zeta in *.
  unfold mbind, M_bind, bind in B3, B2, BR.
  destruct (try_finally _ _ w1) as [[[]| | |] w2]; cbn [fst snd] in *;
    try (split; [congruence | intros _; discriminate]).
  destruct (silent_foreign "site-packages" w2) as (_ & F2 & F3).
  split; [congruence|].
  intros Hno. rewrite <- C2, <- P2 in Hno. specialize (BR Hno). discriminate.
Qed.

Lemma uninstall_returns_to_directory_witness :
  w_cwd (uninstall 3 (start posix_host ∅ "/repo" demo_tree)).2 = "/repo" /\
  (uninstall 3 (start posix_host ∅ "/repo" demo_tree)).1 <> Ret tt.
Proof.
  destruct (uninstall_returns_to_directory 3
              (start posix_host ∅ "/repo" demo_tree) eq_refl) as [H1 H2].
  split; [exact H1 | exact (H2 eq_refl)].
Defined.

(** ** The interpreter and the environment of the children *)

Section Orderly.

Variable py : string.
Variables env penv : gmap string string.

Lemma orderly_still {A} (m : M A) :
  (forall w, w_PYTHON (m w).2 = w_PYTHON w /\
             w_environ (m w).2 = w_environ w /\
             w_penv (m w).2 = w_penv w /\
             w_children (m w).2 = w_children w) ->
  orderly py env penv m.
Proof.
  intros H w Hp He Hb. destruct (H w) as (H1 & H2 & H3 & H4).
  repeat split; try congruence.
  exists []. rewrite app_nil_r. split; [exact H4 | constructor].
Qed.

Lemma orderly_ret {A} (a : A) : orderly py env penv (ret a).
Proof. apply orderly_still. intros w. repeat split. Qed.

Lemma orderly_get : orderly py env penv get.
Proof. apply orderly_still. intros w. repeat split. Qed.

Lemma orderly_raise {A} (e : exn) : orderly py env penv (@raise A e).
Proof. apply orderly_still. intros w. repeat split. Qed.

Lemma orderly_sys_exit {A} (c : exit_arg) : orderly py env penv (@sys_exit A c).
Proof. apply orderly_still. intros w. repeat split. Qed.

Lemma orderly_timeout {A} : orderly py env penv (@timeout A).
Proof. apply orderly_still. intros w. repeat split. Qed.

Lemma orderly_modify (f : World -> World) :
  (forall w, w_PYTHON (f w) = w_PYTHON w /\ w_environ (f w) = w_environ w /\
             w_penv (f w) = w_penv w /\ w_children (f w) = w_children w) ->
  orderly py env penv (modify f).
Proof. intros H. apply orderly_still. exact H. Qed.

Lemma orderly_bind {A B} (m : M A) (k : A -> M B) :
  orderly py env penv m -> (forall a, orderly py env penv (k a)) ->
  orderly py env penv (m ≫= k).
Proof.
  intros Hm Hk w Hp He Hb.
  destruct (Hm w Hp He Hb) as (M1 & M2 & M3 & new1 & M4 & M5).
  unfold mbind, M_bind, bind.
  destruct (m w) as [[a| | |] w1]; cbn [fst snd] in *;
    try (repeat split; try assumption; exists new1; split; assumption).
  destruct (Hk a w1 M1 M2 M3) as (K1 & K2 & K3 & new2 & K4 & K5).
  repeat split; try assumption.
  exists (new1 ++ new2). split.
  - rewrite K4, M4, app_assoc. reflexivity.
  - apply Forall_app. split; assumption.
Qed.

Lemma orderly_for_each {A} (xs : list A) (body : A -> M unit) :
  (forall x, orderly py env penv (body x)) ->
  orderly py env penv (for_each xs body).
Proof.
  intros H. induction xs as [|x xs IH]; cbn [for_each].
  - apply orderly_ret.
  - apply orderly_bind; auto.
Qed.

Lemma orderly_try_except {A} (m : M A) (handler : exn -> option (M A)) :
  orderly py env penv m ->
  (forall e h, handler e = Some h -> orderly py env penv h) ->
  orderly py env penv (try_except m handler).
Proof.
  intros Hm Hh w Hp He Hb.
  destruct (Hm w Hp He Hb) as (M1 & M2 & M3 & new1 & M4 & M5).
  unfold try_except.
  destruct (m w) as [[a| |e|] w1]; cbn [fst snd] in *;
    try (repeat split; try assumption; exists new1; split; assumption).
  destruct (handler e) as [h|] eqn:E;
    [|repeat split; try assumption; exists new1; split; assumption].
  destruct (Hh e h E w1 M1 M2 M3) as (K1 & K2 & K3 & new2 & K4 & K5).
  repeat split; try assumption.
  exists (new1 ++ new2). split.
  - rewrite K4, M4, app_assoc. reflexivity.
  - apply Forall_app. split; assumption.
Qed.

Lemma orderly_try_finally {A} (m : M A) (fin : M unit) :
  orderly py env penv m -> orderly py env penv fin ->
  orderly py env penv (try_finally m fin).
Proof.
  intros Hm Hf w Hp He Hb.
  destruct (Hm w Hp He Hb) as (M1 & M2 & M3 & new1 & M4 & M5).
  unfold try_finally. destruct (m w) as [r w1]. cbn [fst snd] in *.
  destruct (Hf w1 M1 M2 M3) as (K1 & K2 & K3 & new2 & K4 & K5).
  assert (G : exists new, w_children (fin w1).2 = w_children w ++ new /\
                          Forall (child_ok py env penv) new).
  { exists (new1 ++ new2). split.
    - rewrite K4, M4, app_assoc. reflexivity.
    - apply Forall_app. split; assumption. }
  destruct (fin w1) as [[[]| | |] w2]; cbn [fst snd] in *;
    repeat split; assumption.
Qed.

(** [sh] on a command line that begins with the interpreter. *)
Lemma orderly_sh (args : list string) (nolog : bool) :
  orderly py env penv (sh (py :: args) nolog).
Proof.
  intros w Hp He Hb. rewrite sh_run.
  destruct (h_popen (w_host w) (length (w_children w)) (py :: args));
    destruct nolog; cbn [fst snd w_PYTHON w_environ w_penv w_children
                         add_child add_out];
    (repeat split; try assumption;
     eexists [_]; split; [reflexivity|];
     constructor; [|constructor]; split; [reflexivity | exact He]).
Qed.

(** A child spawned without [sh] inherits the environment block. *)
Lemma orderly_popen (args : list string) :
  orderly py env penv (popen false (py :: args) None).
Proof.
  intros w Hp He Hb. unfold popen. run.
  destruct (h_popen (w_host w) (length (w_children w)) (py :: args));
    cbn [fst snd w_PYTHON w_environ w_penv w_children add_child];
    (repeat split; try assumption;
     eexists [_]; split; [reflexivity|];
     constructor; [|constructor]; split; [reflexivity | exact Hb]).
Qed.

(** Reading the global [PYTHON] gives [py]. *)
Lemma orderly_PYTHON {B} (k : string -> M B) :
  orderly py env penv (k py) -> orderly py env penv (PYTHON ≫= k).
Proof.
  intros Hk w Hp He Hb.
  rewrite (bind_runs PYTHON k w w (w_PYTHON w) eq_refl), Hp.
  exact (Hk w Hp He Hb).
Qed.

End Orderly.

Create HintDb orderly_db.

Ltac order :=
  repeat first
    [ solve [eauto with orderly_db]
    | apply orderly_ret | apply orderly_get | apply orderly_raise
    | apply orderly_sys_exit | apply orderly_timeout
    | apply orderly_modify; intros ?; repeat split; reflexivity
    | apply orderly_for_each; intros ?
    | apply orderly_try_finally
    | apply orderly_PYTHON
    | apply orderly_sh
    | apply orderly_popen
    | apply orderly_bind; [|intros ?]
    | match goal with
      | |- orderly _ _ _ (if ?b then _ else _) => destruct b
      | |- orderly _ _ _ (match ?x with _ => _ end) => destruct x
      end ].

Section OrderlyTasks.

Variable py : string.
Variables env penv : gmap string string.

Lemma orderly_print (m : message) : orderly py env penv (print m).
Proof. unfold print. order. Qed.
Hint Resolve orderly_print : orderly_db.

Lemma orderly_safe_print (s : string) : orderly py env penv (safe_print s).
Proof. unfold safe_print. order. Qed.
Hint Resolve orderly_safe_print : orderly_db.

Lemma orderly_win_colorprint (s : string) (c : Z) :
  orderly py env penv (win_colorprint s c).
Proof. unfold win_colorprint. order. Qed.
Hint Resolve orderly_win_colorprint : orderly_db.

Lemma orderly_resolve (path : string) : orderly py env penv (resolve path).
Proof. unfold resolve. order. Qed.
Hint Resolve orderly_resolve : orderly_db.

Lemma orderly_isdir (path : string) : orderly py env penv (isdir path).
Proof. unfold isdir. order. Qed.
Hint Resolve orderly_isdir : orderly_db.

Lemma orderly_os_remove (path : string) : orderly py env penv (os_remove path).
Proof. unfold os_remove. order. Qed.
Hint Resolve orderly_os_remove : orderly_db.

Lemma orderly_shutil_rmtree (path : string) (onerror : exn -> M unit) :
  (forall e, orderly py env penv (onerror e)) ->
  orderly py env penv (shutil_rmtree path onerror).
Proof.
  intros H. unfold shutil_rmtree.
  apply orderly_bind; [order|intros w].
  apply orderly_bind; [order|intros p].
  destruct (FS.lookup p (w_fs w)) as [[lk|lk es]|]; [order | | order].
  destruct (FS.rmtree_node _ _ _) as [errs rest]. order.
Qed.

Lemma orderly_safe_remove (path : string) :
  orderly py env penv (safe_remove path).
Proof.
  unfold safe_remove. apply orderly_bind; [|intros b; order].
  apply orderly_try_except; [order|].
  intros e h E. destruct e; inversion E; subst; order.
Qed.
Hint Resolve orderly_safe_remove : orderly_db.

Lemma orderly_safe_rmtree (path : string) :
  orderly py env penv (safe_rmtree path).
Proof.
  unfold safe_rmtree. apply orderly_bind; [order|intros b].
  apply orderly_bind; [|intros []; order].
  apply orderly_shutil_rmtree. intros e. order.
Qed.
Hint Resolve orderly_safe_rmtree : orderly_db.

Lemma orderly_walk_from (fuel : nat) (top : string)
    (body : string -> list string -> list string -> M unit) :
  (forall r d f, orderly py env penv (body r d f)) ->
  orderly py env penv (walk_from fuel top body).
Proof.
  intros H. revert top. induction fuel as [|fuel IH]; intros top;
    cbn [walk_from].
  - apply orderly_timeout.
  - order.
Qed.

Lemma orderly_recursive_rm (patterns : list string) :
  orderly py env penv (recursive_rm patterns).
Proof.
  unfold recursive_rm, os_walk. apply orderly_bind; [order|intros w].
  apply orderly_walk_from. intros r d f. order.
Qed.
Hint Resolve orderly_recursive_rm : orderly_db.

Lemma orderly_clean : orderly py env penv clean.
Proof. unfold clean. order. Qed.
Hint Resolve orderly_clean : orderly_db.

Lemma orderly_foreign (label : string) : orderly py env penv (foreign label).
Proof. unfold foreign. order. Qed.
Hint Resolve orderly_foreign : orderly_db.

Lemma orderly_import_psutil : orderly py env penv import_psutil.
Proof. unfold import_psutil. order. Qed.
Hint Resolve orderly_import_psutil : orderly_db.

Lemma orderly_write_here (name : string) :
  orderly py env penv (write_here name).
Proof. unfold write_here. order. Qed.
Hint Resolve orderly_write_here : orderly_db.

Lemma orderly_install_git_hooks : orderly py env penv install_git_hooks.
Proof. unfold install_git_hooks. order. Qed.
Hint Resolve orderly_install_git_hooks : orderly_db.

Lemma orderly_chdir (d : string) : orderly py env penv (chdir d).
Proof. unfold chdir. order. Qed.
Hint Resolve orderly_chdir : orderly_db.

Lemma orderly_build : orderly py env penv build.
Proof. unfold build. order. Qed.
Hint Resolve orderly_build : orderly_db.

Lemma orderly_install_pip : orderly py env penv install_pip.
Proof. unfold install_pip. order. Qed.
Hint Resolve orderly_install_pip : orderly_db.

Lemma orderly_uninstall_loop (fuel : nat) :
  orderly py env penv (uninstall_loop fuel).
Proof.
  induction fuel as [|fuel IH]; cbn [uninstall_loop].
  - order.
  - apply orderly_bind; [order|intros [|]]; [|order].
    apply orderly_PYTHON. apply orderly_bind; [order|intros _]. exact IH.
Qed.
Hint Resolve orderly_uninstall_loop : orderly_db.

Lemma orderly_uninstall (fuel : nat) : orderly py env penv (uninstall fuel).
Proof. unfold uninstall. order. Qed.
Hint Resolve orderly_uninstall : orderly_db.

Lemma orderly_test (args : option (list string)) :
  orderly py env penv (test args).
Proof. unfold test. order. Qed.
Hint Resolve orderly_test : orderly_db.

Lemma orderly_test_by_name (arg : string) :
  orderly py env penv (test_by_name arg).
Proof. unfold test_by_name. order. Qed.

Lemma orderly_test_by_regex (arg : string) :
  orderly py env penv (test_by_regex arg).
Proof. unfold test_by_regex. order. Qed.

Lemma orderly_pytest_k (file : string) : orderly py env penv (pytest_k file).
Proof. unfold pytest_k. order. Qed.
Hint Resolve orderly_pytest_k : orderly_db.

Lemma orderly_generate_manifest : orderly py env penv generate_manifest.
Proof. unfold generate_manifest. order. Qed.
Hint Resolve orderly_generate_manifest : orderly_db.

(** Calling any name of the module. *)
Lemma orderly_call0 (fuel : nat) (name : string) (k : string) (a : attr) :
  In (k, a) (module_names fuel) -> orderly py env penv (call0 name a).
Proof.
  unfold module_names. intros H.
  repeat (destruct H as [[= <- <-]|H];
          [unfold call0, wheel, upload_wheels, install, coverage,
             install_pydeps_test, install_pydeps_dev,
             test_parallel, test_process, test_process_all, test_system,
             test_platform, test_misc, test_scripts, test_unicode,
             test_connections, test_contracts, test_testutils, test_sudo,
             test_memleaks, test_last_failed, bench_oneshot, bench_oneshot_2,
             print_access_denied, print_api_speed, print_sysinfo;
           order|]).
  destruct H.
Qed.

End OrderlyTasks.

(** The call that [main] makes once the interpreter is resolved. *)
Lemma orderly_dispatch (py : string) (env penv : gmap string string)
    (fuel : nat) (command name arg : string) :
  orderly py env penv
    (fn ← getattr fuel name;
     if String.eqb command "test" && Str.truthy arg then sh [py; arg] false
     else if String.eqb command "test-by-name" then test_by_name arg
     else if String.eqb command "test-by-regex" then test_by_regex arg
     else call0 name fn).
Proof.
  intros w. unfold getattr.
  destruct (binding (module_names fuel) name) as [a|] eqn:B.
  - destruct (binding_In _ _ _ B) as [k Hk].
    rewrite (bind_runs (ret a) _ w w a eq_refl).
    destruct (_ && _); [apply orderly_sh|].
    destruct (String.eqb command "test-by-name");
      [apply orderly_test_by_name|].
    destruct (String.eqb command "test-by-regex");
      [apply orderly_test_by_regex|].
    exact (orderly_call0 py env penv fuel name k a Hk w).
  - exact (orderly_raise py env penv (A := unit) (AttributeError name) w).
Qed.

(** X8: every child that the script itself spawns (through [sh], [Popen]
    or [check_output]; what imported code does is outside the model) runs
    the interpreter that [get_python] resolved from the option [-p] (or
    from [PYTHON] and [sys.executable] without it): the first word of its
    command line is that path, whatever the command.  A child spawned
    through [sh] sees [os.environ] as it was when the script began, with
    nothing that the script has set; a child spawned without [sh] (the
    compiler of [build], the generator of [generate_manifest]) sees the
    environment block with [PYTHON] set to the resolved path. *)
Theorem children_run_resolved_interpreter
    (fuel : nat) (cl : cmdline) (w : World) :
  exists new : list child,
    w_children (main fuel cl w).2 = w_children w ++ new /\
    forall c : child,
      In c new ->
      get_python (w_host w) (cl_python cl) = Some (hd "" (c_cmd c)) /\
      c_env c = (if c_via_sh c then w_environ w
                 else <["PYTHON" := hd "" (c_cmd c)]> (w_penv w)).
Proof.
  assert (Hnone : forall w' : World,
            w_children w' = w_children w ->
            exists new : list child,
              w_children w' = w_children w ++ new /\
              forall c : child,
                In c new ->
                get_python (w_host w) (cl_python cl) = Some (hd "" (c_cmd c)) /\
                c_env c = (if c_via_sh c then w_environ w
                           else <["PYTHON" := hd "" (c_cmd c)]> (w_penv w))).
  { intros w' E. exists []. rewrite app_nil_r. split; [exact E|]. intros c []. }
  unfold main.
  destruct (parse_args_cases cl w)
    as [(args & c & E & Hpy & _)|[[o E]|[o E]]].
  - rewrite (bind_runs _ _ _ _ _ E).
    rewrite (bind_runs get _ w w w eq_refl). rewrite Hpy.
    destruct (get_python (w_host w) (cl_python cl)) as [py|] eqn:G;
      [|apply Hnone; reflexivity].
    destruct (Str.truthy py); [|apply Hnone; reflexivity].
    unfold modify at 1 2.
    rewrite (bind_runs _ _ w (set_PYTHON py w) tt eq_refl).
    rewrite (bind_runs _ _ (set_PYTHON py w)
               (set_penv (<["PYTHON" := py]> (w_penv w)) (set_PYTHON py w)) tt
               eq_refl).
    rewrite (bind_runs _ _ _ _ _ (win_colorprint_out _ _ _)). cbv zeta.
    match goal with
    | |- context [w_children (?m ?x).2] =>
        destruct (orderly_dispatch py (w_environ w)
                    (<["PYTHON" := py]> (w_penv w)) fuel
                    (default "" (ns_command args))
                    (Str.replace_char "-" "_" (default "" (ns_command args)))
                    (ns_arg args) x eq_refl eq_refl eq_refl)
          as (_ & _ & _ & new & Hc & Hall)
    end.
    exists new. split; [exact Hc|].
    intros ch Hin. rewrite List.Forall_forall in Hall.
    destruct (Hall ch Hin) as [H1 H2]. rewrite H1. split; [reflexivity|exact H2].
  - unfold mbind, M_bind, bind. rewrite E. apply Hnone. reflexivity.
  - unfold mbind, M_bind, bind. rewrite E. apply Hnone. reflexivity.
Qed.

(** ** What a removal leaves alone *)

Section Frame.

Variable windows : bool.

(** [alter] does not touch what lies apart from its path. *)
Lemma lookup_alter_apart (p q : list string) (f : node -> option node)
    (n : node) :
  wf windows n -> apart p q ->
  FS.lookup q (FS.alter p f n) = FS.lookup q n.
Proof.
  revert q n. induction p as [|c p IH]; intros q n Hwf [Hpq Hqp].
  - exfalso. apply Hpq. apply prefix_nil.
  - destruct q as [|d q]; [exfalso; apply Hqp; apply prefix_nil|].
    destruct n as [lk|lk es]; [reflexivity|].
    cbn [FS.alter FS.lookup].
    pose proof (proj1 (proj1 (wf_dir windows lk es) Hwf)) as Hnd.
    rewrite (child_alter_child _ _ es d Hnd).
    destruct (String.eqb_spec d c) as [->|Hne]; [|reflexivity].
    destruct (FS.child es c) as [m|] eqn:Ec; [|reflexivity].
    destruct p as [|c' p'].
    + exfalso. apply Hpq. exists q. reflexivity.
    + apply IH.
      * exact (proj2 (wf_child windows lk es c m Hwf Ec)).
      * split; intros [k Hk]; [apply Hpq | apply Hqp]; exists k;
          cbn [app] in *; congruence.
Qed.

(** Above its path, [alter] leaves every directory a directory. *)
Lemma lookup_alter_above (q r : list string) (f : node -> option node)
    (n : node) (lk : bool) (es : FS.entries) :
  wf windows n -> r <> [] ->
  FS.lookup q n = Some (Dir lk es) ->
  exists es', FS.lookup q (FS.alter (q ++ r) f n) = Some (Dir lk es').
Proof.
  revert n. induction q as [|c q IH]; intros n Hwf Hr Hq.
  - cbn [FS.lookup app] in *. injection Hq as ->.
    destruct r as [|d r]; [contradiction|]. cbn [FS.alter]. eauto.
  - destruct n as [lk0|lk0 es0]; [discriminate|].
    cbn [FS.lookup] in Hq.
    destruct (FS.child es0 c) as [m|] eqn:Ec; [|discriminate].
    cbn [FS.alter FS.lookup app].
    pose proof (proj1 (proj1 (wf_dir windows lk0 es0) Hwf)) as Hnd.
    rewrite (child_alter_child _ _ es0 c Hnd), String.eqb_refl, Ec.
    assert (G : match q ++ r with
                | [] => f
                | _ :: _ => fun m0 => Some (FS.alter (q ++ r) f m0)
                end = fun m0 => Some (FS.alter (q ++ r) f m0)).
    { clear IH. destruct (q ++ r) eqn:Eqr; [|reflexivity].
      destruct q; [destruct r; [contradiction|discriminate]|discriminate]. }
    rewrite G. apply IH; [|exact Hr|exact Hq].
    exact (proj2 (wf_child windows lk0 es0 c m Hwf Ec)).
Qed.

(** What [rmtree_node] does to an entry in which nothing is locked, and
    to one in which something is. *)
Lemma rmtree_node_free (n : node) (path : string) :
  free n = true -> FS.rmtree_node windows path n = ([], None).
Proof.
  revert path. induction n as [lk|lk es IH] using node_induction; intros path.
  - cbn [free FS.rmtree_node]. destruct lk; [discriminate|reflexivity].
  - intros Hf. rewrite rmtree_node_dir.
    cbn [free] in Hf. apply andb_true_iff in Hf. destruct Hf as [Hlk Hall].
    assert (E : rmtree_entries windows path es = ([], [])).
    { clear Hlk. induction es as [|[k m] es IHes]; [reflexivity|].
      apply andb_true_iff in Hall. destruct Hall as [Hm Hall].
      apply Forall_cons_iff in IH. destruct IH as [IHm IH].
      cbn [rmtree_entries]. cbn [snd] in IHm. rewrite (IHm _ Hm).
      fold (rmtree_entries windows path es). rewrite (IHes IH Hall).
      reflexivity. }
    rewrite E. destruct lk; [discriminate|reflexivity].
Qed.

Lemma rmtree_node_kept (n : node) (path : string) :
  free n = false ->
  (FS.rmtree_node windows path n).1 <> [] /\
  exists n', (FS.rmtree_node windows path n).2 = Some n' /\ same_kind n n'.
Proof.
  revert path. induction n as [lk|lk es IH] using node_induction; intros path.
  - cbn [free FS.rmtree_node]. destruct lk; [|discriminate].
    intros _. split; [discriminate|]. eexists. split; reflexivity.
  - intros Hf. rewrite rmtree_node_dir.
    destruct (rmtree_entries windows path es) as [errs es'] eqn:E.
    destruct es' as [|e' es'].
    + destruct lk.
      * split; [destruct errs; discriminate|]. eexists. split; reflexivity.
      * exfalso. cbn [free negb andb] in Hf.
        revert errs E Hf. induction es as [|[k m] es IHes]; intros errs E Hf;
          [discriminate|].
        apply Forall_cons_iff in IH. destruct IH as [IHm IH].
        cbn [rmtree_entries] in E.
        destruct (FS.rmtree_node windows (Path.join windows path k) m)
          as [e1 r] eqn:Er.
        fold (rmtree_entries windows path es) in E.
        destruct (rmtree_entries windows path es) as [e2 rest] eqn:Ees.
        destruct r as [m'|]; [discriminate|].
        injection E as <- ->.
        destruct (free m) eqn:Fm.
        -- cbn [andb] in Hf. exact (IHes IH e2 eq_refl Hf).
        -- cbn [snd] in IHm.
           destruct (IHm (Path.join windows path k) Fm) as (_ & n' & Hn' & _).
           rewrite Er in Hn'. discriminate.
    + split; [destruct errs; discriminate|]. eexists. split; reflexivity.
Qed.

End Frame.



(** [safe_rmtree] on a directory, in full. *)
Lemma safe_rmtree_dir (path : string) (w : World) (lk : bool)
    (es : FS.entries) :
  good w ->
  Path.parts (h_windows (w_host w)) path <> [] ->
  FS.lookup (Path.parts (h_windows (w_host w)) path) (w_fs w)
  = Some (Dir lk es) ->
  safe_rmtree path w
  = (Ret tt,
     let r := FS.rmtree_node (h_windows (w_host w)) path (Dir lk es) in
     let w2 :=
       add_outs (map (fun e => (Stdout, ErrStr e)) r.1)
         (set_fs (FS.alter (Path.parts (h_windows (w_host w)) path)
                    (fun _ => r.2) (w_fs w)) w) in
     match r.2 with
     | None => add_out (Stdout, Text ("rmdir -f " +:+ path)) w2
     | Some _ => w2
     end).
Proof.
  intros Hg Hne E.
  unfold safe_rmtree, isdir, shutil_rmtree, resolve, safe_print, print. run.
  set (win := h_windows (w_host w)) in *.
  set (p := Path.parts win path) in *.
  rewrite E.
  pose proof (wf_lookup win p _ _ Hg E) as Hwm.
  destruct (rmtree_node_ok win (Dir lk es) Hwm path) as (_ & _ & _ & R4).
  assert (Hrem : match (FS.rmtree_node win path (Dir lk es)).2 with
                 | Some (File _) => False
                 | _ => True
                 end).
  { rewrite rmtree_node_dir.
    destruct (rmtree_entries win path es) as [errs0 es0].
    destruct es0; [destruct lk|]; exact I. }
  destruct (FS.rmtree_node win path (Dir lk es)) as [errs remains] eqn:Er.
  cbn [fst snd] in R4, Hrem |- *.
  destruct p as [|c p'] eqn:Ep; [contradiction|]. rewrite <- Ep in *.
  cbn beta iota.
  set (w1 := set_fs (FS.alter p (fun _ => remains) (w_fs w)) w).
  match goal with
  | |- context [for_each errs ?f w1] =>
      rewrite (print_errors errs f w1)
        by (intros e w0 He; cbn beta; rewrite (R4 e He); reflexivity)
  end.
  cbn beta iota.
  set (w2 := add_outs (map (fun e => (Stdout, ErrStr e)) errs) w1).
  assert (Hh2 : h_windows (w_host w2) = win).
  { unfold w2. rewrite (proj1 (add_outs_rest _ w1)). reflexivity. }
  assert (Hfs2 : w_fs w2 = FS.alter p (fun _ => remains) (w_fs w)).
  { unfold w2. rewrite (proj2 (proj2 (add_outs_rest _ w1))). reflexivity. }
  rewrite Hh2, Hfs2. fold p.
  pose proof (lookup_alter_below win p [] (fun _ => remains) (w_fs w)
                ltac:(rewrite Ep; discriminate) Hg) as L.
  rewrite app_nil_r, E in L. rewrite L.
  destruct remains as [[lk'|lk' es']|]; [contradiction| |]; reflexivity.
Qed.



(** ** Shorthands that select no version *)

Lemma get_python_loop_all (h : host) (s : string) (vs : list string) :
  (forall v, In v vs -> Str.contains s (pypath v) = true) ->
  get_python_loop h s vs
  = option_map pypath (List.find (fun v => h_isfile h (pypath v)) vs).
Proof.
  induction vs as [|v vs IH]; intros H; cbn [get_python_loop List.find];
    [reflexivity|].
  rewrite (H v (or_introl eq_refl)). cbn [andb].
  destruct (h_isfile h (pypath v)); [reflexivity|].
  apply IH. intros v' Hv'. apply H. right. exact Hv'.
Qed.

Lemma contains_empty (s : string) : Str.contains "" s = true.
Proof. destruct s; reflexivity. Qed.

(** X11: a shorthand selects a version only through what is left of it once
    the dots are stripped.  When that rest occurs in all three paths of
    the table, as [3], [python] or [-64] do, it selects nothing: the
    result is the first path of the table that is a file.  So does a
    shorthand made of dots only, such as [.]: nothing is left of it, and
    the empty string occurs in every path. *)
Theorem get_python_common_shorthand (h : host) (path : string) :
  Str.truthy path = true -> h_isabs h path = false ->
  Str.remove_char "." path = "" \/
  (forall v, In v vers ->
     Str.contains (Str.remove_char "." path) (pypath v) = true) ->
  get_python h (Some path)
  = option_map pypath (List.find (fun v => h_isfile h (pypath v)) vers).
Proof.
  intros Ht Ha H. unfold get_python. rewrite Ht, Ha. cbn [negb].
  apply get_python_loop_all. destruct H as [-> | H]; [|exact H].
  intros v _. apply contains_empty.
Qed.

Lemma get_python_common_shorthand_witness :
  get_python
    (demo_host (fun _ _ => 0%Z) (fun p => String.eqb p (pypath "312-64")))
    (Some "..")
  = Some "C:\\python312-64\python.exe".
Proof.
  exact (get_python_common_shorthand
           (demo_host (fun _ _ => 0%Z)
              (fun p => String.eqb p (pypath "312-64")))
           ".." eq_refl eq_refl (or_introl eq_refl)).
Defined.

(** ** Walks that remove *)

Section Related.

(** What the rounds of a loop keep, besides being steps of cleanup. *)
Variable R : World -> World -> Prop.
Hypothesis R_refl : forall w, R w w.
Hypothesis R_trans : forall a b c, R a b -> R b c -> R a c.

Lemma for_each_related {A I} (G : I -> World -> Prop) (Q : I -> A -> Prop)
    (xs : list A) (body : A -> M unit) (w : World) :
  (forall i w1 w2, steps w1 w2 -> G i w1 -> G i w2) ->
  (forall x, In x xs -> forall w1, steps w w1 -> R w w1 ->
     exists w2, body x w1 = (Ret tt, w2) /\ steps w1 w2 /\ R w1 w2 /\
                forall i, Q i x -> G i w2) ->
  good w ->
  exists w',
    for_each xs body w = (Ret tt, w') /\ steps w w' /\ R w w' /\
    forall i, G i w \/ (exists x, In x xs /\ Q i x) -> G i w'.
Proof.
  intros HG. revert w. induction xs as [|x xs IH]; intros w Hb Hg.
  - exists w. split; [reflexivity|]. split; [apply steps_refl; exact Hg|].
    split; [apply R_refl|].
    intros i [H|(x & [] & _)]. exact H.
  - destruct (Hb x (or_introl eq_refl) w (steps_refl w Hg) (R_refl w))
      as (w1 & E1 & S1 & R1 & Q1).
    destruct (IH w1) as (w' & E' & S' & R' & G').
    { intros y Hy w2 S2 R2. apply (Hb y (or_intror Hy)).
      - exact (steps_trans _ _ _ S1 S2).
      - exact (R_trans _ _ _ R1 R2). }
    { apply S1. }
    exists w'. split; [|split; [|split]].
    + cbn [for_each]. rewrite (bind_runs _ _ _ _ _ E1). exact E'.
    + exact (steps_trans _ _ _ S1 S').
    + exact (R_trans _ _ _ R1 R').
    + intros i [H|(y & [<-|Hy] & Hq)].
      * apply G'. left. exact (HG i _ _ S1 H).
      * apply G'. left. exact (Q1 i Hq).
      * apply G'. right. exists y. split; assumption.
Qed.

(** The body of a walk, the targets that a round at the directory [p]
    reaches through the entry [name], and the path under which it reports
    them. *)
Variable body : string -> list string -> list string -> M unit.
Variable T : list string -> string -> list string -> Prop.
Variable line : list string -> string -> list string -> string.

Variable w0 : World.
Hypothesis w0_good : good w0.

Hypothesis body_runs :
  forall (p : list string) (w : World) (lk : bool) (es : FS.entries),
    steps w0 w ->
    names_ok (h_windows (w_host w0)) p ->
    FS.lookup p (w_fs w) = Some (Dir lk es) ->
    exists w',
      body (walk_root (h_windows (w_host w0)) p)
        (FS.dirs_of es) (FS.files_of es) w = (Ret tt, w') /\
      steps w w' /\ R w w' /\
      forall (name : string) (rest : list string) (lkq : bool),
        T p name rest ->
        FS.lookup (p ++ name :: rest) (w_fs w) = Some (File lkq) ->
        settled (p ++ name :: rest) (line p name rest) lkq w'.

Lemma walk_related (fuel : nat) (p : list string) (w : World) :
  names_ok (h_windows (w_host w0)) p ->
  steps w0 w ->
  (length p <= FS.height (w_fs w0))%nat ->
  (fuel + length p = S (FS.height (w_fs w0)))%nat ->
  exists w',
    walk_from fuel (walk_root (h_windows (w_host w0)) p) body w = (Ret tt, w') /\
    steps w w' /\ R w w' /\
    forall (suffix : list string) (name : string) (rest : list string)
           (lkq : bool),
      T (p ++ suffix) name rest ->
      FS.lookup ((p ++ suffix) ++ name :: rest) (w_fs w) = Some (File lkq) ->
      settled ((p ++ suffix) ++ name :: rest) (line (p ++ suffix) name rest)
        lkq w'.
Proof.
  set (win := h_windows (w_host w0)) in *.
  revert p w. induction fuel as [|fuel IH]; intros p w Hp S0 Hlen Hfuel; [lia|].
  assert (Eh : w_host w = w_host w0) by exact (steps_host _ _ S0).
  assert (Hg : good w) by apply S0.
  destruct (walk_root_ok win p Hp) as (_ & Eparts & _).
  cbn [walk_from].
  rewrite (bind_runs get _ w w w eq_refl).
  rewrite (bind_runs (resolve (walk_root win p)) _ w w
             (Path.parts (h_windows (w_host w)) (walk_root win p)) eq_refl).
  rewrite Eh. fold win. rewrite Eparts.
  assert (Hnone : (forall lk es, FS.lookup p (w_fs w) <> Some (Dir lk es)) ->
            forall (suffix : list string) (name : string) (rest : list string)
                   (lkq : bool),
              FS.lookup ((p ++ suffix) ++ name :: rest) (w_fs w)
              <> Some (File lkq)).
  { intros Hnd suffix name rest lkq Hl. rewrite <- app_assoc in Hl.
    destruct (suffix ++ name :: rest) as [|c r] eqn:Es;
      [destruct suffix; discriminate|].
    destruct (lookup_below_dir p c r _ _ Hl) as (lk' & es' & Hd & _).
    exact (Hnd _ _ Hd). }
  destruct (FS.lookup p (w_fs w)) as [[lk|lk es]|] eqn:Edir.
  - exists w. split; [reflexivity|]. split; [apply steps_refl; exact Hg|].
    split; [apply R_refl|].
    intros suffix name rest lkq _ Hl. exfalso.
    exact (Hnone ltac:(discriminate) suffix name rest lkq Hl).
  - pose proof (wf_lookup win p _ _
                  ltac:(unfold good in Hg; rewrite Eh in Hg; exact Hg) Edir)
      as Hwd.
    pose proof (proj1 (wf_dir win lk es) Hwd) as [Hnd Hall].
    rewrite List.Forall_forall in Hall.
    destruct (body_runs p w lk es S0 Hp Edir) as (w1 & E1 & S1 & R1 & G1).
    destruct (for_each_related
                (fun (i : string * list string * string * list string * bool)
                     w2 =>
                   T (p ++ i.1.1.1.1 :: i.1.1.1.2) i.1.1.2 i.1.2 ->
                   FS.lookup ((p ++ i.1.1.1.1 :: i.1.1.1.2) ++ i.1.1.2 :: i.1.2)
                     (w_fs w) = Some (File i.2) ->
                   settled ((p ++ i.1.1.1.1 :: i.1.1.1.2) ++ i.1.1.2 :: i.1.2)
                     (line (p ++ i.1.1.1.1 :: i.1.1.1.2) i.1.1.2 i.1.2)
                     i.2 w2)
                (fun i d => d = i.1.1.1.1)
                (FS.dirs_of es)
                (fun d => walk_from fuel (Path.join win (walk_root win p) d) body)
                w1) as (w2 & E2 & S2 & R2 & G2).
    { intros i wa wb Sab H Ht Hl. eapply settled_stable; eauto. }
    { intros d Hd wa Sa _.
      pose proof (steps_trans _ _ _ S1 Sa) as Swa.
      apply In_dirs_of in Hd. destruct Hd as (lkd & esd & Hin).
      destruct (Hall (d, Dir lkd esd) Hin) as [Hname _]. cbn [fst] in Hname.
      assert (Hd : FS.lookup (p ++ [d]) (w_fs w) = Some (Dir lkd esd)).
      { rewrite lookup_app, Edir. cbn [FS.lookup].
        rewrite (In_child es d _ Hnd Hin). reflexivity. }
      assert (Hdeep : (length (p ++ [d]) < FS.height (w_fs w0))%nat).
      { destruct S0 as (_ & _ & _ & _ & [K _]).
        destruct (K _ _ Hd) as (n0 & Hn0 & Hk).
        destruct n0 as [|lk0 es0]; [contradiction|].
        exact (lookup_dir_depth _ _ _ _ Hn0). }
      rewrite length_app in Hdeep. cbn [length] in Hdeep.
      rewrite <- walk_root_snoc.
      destruct (IH (p ++ [d]) wa) as (wb & Eb & Sb & Rb & Gb).
      - apply Forall_app. split; [exact Hp|].
        constructor; [exact Hname|constructor].
      - exact (steps_trans _ _ _ S0 Swa).
      - rewrite length_app. cbn [length]. lia.
      - rewrite length_app. cbn [length]. lia.
      - exists wb. split; [exact Eb|]. split; [exact Sb|]. split; [exact Rb|].
        intros [[[[d' suffix] name] rest] lkq] Hq Ht Hl.
        cbn [fst snd] in *. subst d'.
        assert (Ea : (p ++ [d]) ++ suffix = p ++ d :: suffix)
          by (rewrite <- app_assoc; reflexivity).
        specialize (Gb suffix name rest lkq). rewrite Ea in Gb.
        destruct (shrinks_file (w_fs w) (w_fs wa) _ lkq ltac:(apply Swa) Hl)
          as [Hn|Hf].
        + unfold settled. destruct lkq.
          * rewrite (steps_locked w wa _ Swa Hl) in Hn. discriminate.
          * apply (steps_gone wa wb _ Sb Hn).
        + apply (Gb Ht Hf). }
    { apply S1. }
    exists w2. split; [|split; [|split]].
    + rewrite (bind_runs _ _ _ _ _ E1). exact E2.
    + exact (steps_trans _ _ _ S1 S2).
    + exact (R_trans _ _ _ R1 R2).
    + intros suffix name rest lkq Ht Hl.
      destruct suffix as [|d suffix].
      * rewrite app_nil_r in *.
        apply (settled_stable _ _ _ w1 w2 S2).
        exact (G1 name rest lkq Ht Hl).
      * apply (G2 (d, suffix, name, rest, lkq)); [|exact Ht | exact Hl].
        right. exists d. split; [|reflexivity].
        rewrite <- app_assoc in Hl. cbn [app] in Hl.
        destruct (lookup_dir_child p d _ _ _ lk es Edir Hl) as (m & Hc & Hr).
        destruct m as [lkm|lkm esm].
        -- destruct suffix; discriminate.
        -- apply In_dirs_of. exists lkm, esm. apply child_In. exact Hc.
  - exists w. split; [reflexivity|]. split; [apply steps_refl; exact Hg|].
    split; [apply R_refl|].
    intros suffix name rest lkq _ Hl. exfalso.
    exact (Hnone ltac:(discriminate) suffix name rest lkq Hl).
Qed.

(** The whole walk, from the current directory. *)
Lemma os_walk_related :
  exists w',
    os_walk body w0 = (Ret tt, w') /\ steps w0 w' /\ R w0 w' /\
    forall (dir : list string) (name : string) (rest : list string)
           (lkq : bool),
      T dir name rest ->
      FS.lookup (dir ++ name :: rest) (w_fs w0) = Some (File lkq) ->
      settled (dir ++ name :: rest) (line dir name rest) lkq w'.
Proof.
  destruct (walk_related (S (FS.height (w_fs w0))) [] w0)
    as (w' & E & S & Rw & G).
  - constructor.
  - apply steps_refl. exact w0_good.
  - cbn [length]. lia.
  - cbn [length]. lia.
  - exists w'. split; [|split; [exact S|split; [exact Rw|exact G]]].
    unfold os_walk. rewrite (bind_runs get _ w0 w0 w0 eq_refl). exact E.
Qed.

End Related.

(** ** Removal by pattern *)

Lemma rm_wildcard (pattern : string) (directory : bool) :
  Str.has_char "*" pattern = true ->
  rm pattern directory = os_walk (rm_body pattern directory).
Proof. intros H. unfold rm. rewrite H. reflexivity. Qed.

(** The tree that [safe_remove] leaves. *)
Lemma safe_remove_fs (path : string) (w : World) :
  w_fs (safe_remove path w).2
  = match FS.lookup (Path.parts (h_windows (w_host w)) path) (w_fs w) with
    | Some (File false) =>
        FS.alter (Path.parts (h_windows (w_host w)) path) (fun _ => None)
          (w_fs w)
    | _ => w_fs w
    end.
Proof.
  unfold safe_remove, try_except, os_remove, resolve, safe_print, print. run.
  destruct (FS.lookup (Path.parts (h_windows (w_host w)) path) (w_fs w))
    as [[[|]|lk es]|]; try reflexivity.
  destruct (h_windows (w_host w)); reflexivity.
Qed.

(** The tree that [safe_rmtree] leaves. *)
Lemma safe_rmtree_fs (path : string) (w : World) :
  good w ->
  Path.parts (h_windows (w_host w)) path <> [] ->
  w_fs (safe_rmtree path w).2
  = match FS.lookup (Path.parts (h_windows (w_host w)) path) (w_fs w) with
    | Some (Dir lk es) =>
        FS.alter (Path.parts (h_windows (w_host w)) path)
          (fun _ => (FS.rmtree_node (h_windows (w_host w)) path (Dir lk es)).2)
          (w_fs w)
    | _ => w_fs w
    end.
Proof.
  intros Hg Hne.
  destruct (FS.lookup (Path.parts (h_windows (w_host w)) path) (w_fs w))
    as [[lk|lk es]|] eqn:E.
  - unfold safe_rmtree, isdir, shutil_rmtree, resolve, safe_print, print. run.
    rewrite E. reflexivity.
  - rewrite (safe_rmtree_dir path w lk es Hg Hne E). cbv zeta. cbn [snd].
    destruct (FS.rmtree_node _ _ _).2;
      cbn [w_fs add_out]; rewrite (proj2 (proj2 (add_outs_rest _ _)));
      reflexivity.
  - unfold safe_rmtree, isdir, shutil_rmtree, resolve, safe_print, print. run.
    rewrite E. destruct (h_windows (w_host w)); reflexivity.
Qed.

Section Kept.

Variable windows : bool.

(** Removing a file keeps every other file, and every directory. *)
Lemma remove_keeps (p q : list string) (t : node) (lkq : bool) :
  wf windows t -> p <> [] -> q <> p ->
  FS.lookup q t = Some (File lkq) ->
  FS.lookup q
    match FS.lookup p t with
    | Some (File false) => FS.alter p (fun _ => None) t
    | _ => t
    end = Some (File lkq).
Proof.
  intros Hwf Hne Hqp Hq.
  destruct (FS.lookup p t) as [[[|]|lk es]|] eqn:E; try exact Hq.
  destruct (decide (p `prefix_of` q)) as [[r ->]|Hpq].
  - rewrite lookup_app, E in Hq. destruct r as [|c r]; [|discriminate].
    exfalso. apply Hqp. rewrite app_nil_r. reflexivity.
  - rewrite (lookup_alter_apart windows p q _ t Hwf); [exact Hq|].
    split; [exact Hpq|]. intros [r ->].
    rewrite lookup_app, Hq in E. destruct r as [|c r]; [|discriminate].
    apply Hqp. rewrite app_nil_r. reflexivity.
Qed.

Lemma remove_keeps_dirs (p q : list string) (t : node) (lk : bool)
    (es : FS.entries) :
  wf windows t -> p <> [] ->
  FS.lookup q t = Some (Dir lk es) ->
  exists es',
    FS.lookup q
      match FS.lookup p t with
      | Some (File false) => FS.alter p (fun _ => None) t
      | _ => t
      end = Some (Dir lk es').
Proof.
  intros Hwf Hne Hq.
  destruct (FS.lookup p t) as [[[|]|lk0 es0]|] eqn:E; eauto.
  destruct (decide (q `prefix_of` p)) as [[r ->]|Hqp].
  - apply (lookup_alter_above windows q r _ t lk es Hwf); [|exact Hq].
    intros ->. rewrite app_nil_r, Hq in E. discriminate.
  - rewrite (lookup_alter_apart windows p q _ t Hwf); [eauto|].
    split; [|exact Hqp]. intros [r ->].
    rewrite lookup_app, E in Hq. destruct r; discriminate.
Qed.

(** Removing a directory keeps every file that is not below it. *)
Lemma rmtree_keeps (p q : list string) (t : node) (lkq : bool)
    (remains : bool -> FS.entries -> option node) :
  wf windows t -> p <> [] ->
  (forall r, r <> [] -> q <> p ++ r) ->
  FS.lookup q t = Some (File lkq) ->
  FS.lookup q
    match FS.lookup p t with
    | Some (Dir lk es) => FS.alter p (fun _ => remains lk es) t
    | _ => t
    end = Some (File lkq).
Proof.
  intros Hwf Hne Hbelow Hq.
  destruct (FS.lookup p t) as [[lk|lk es]|] eqn:E; try exact Hq.
  rewrite (lookup_alter_apart windows p q _ t Hwf); [exact Hq|]. split.
  - intros [r ->]. destruct r as [|c r].
    + rewrite app_nil_r, E in Hq. discriminate.
    + exact (Hbelow (c :: r) ltac:(discriminate) eq_refl).
  - intros [r ->]. rewrite lookup_app, Hq in E.
    destruct r; discriminate.
Qed.

End Kept.

Lemma kept_files_refl (h : host) (pattern : string) (t : node) :
  kept_files h pattern t t.
Proof. split; eauto. Qed.

Lemma kept_files_trans (h : host) (pattern : string) (a b c : node) :
  kept_files h pattern a b -> kept_files h pattern b c ->
  kept_files h pattern a c.
Proof.
  intros [F1 D1] [F2 D2]. split.
  - intros q name lk Hm Hq. exact (F2 q name lk Hm (F1 q name lk Hm Hq)).
  - intros q lk es Hq. destruct (D1 q lk es Hq) as [es1 H1].
    exact (D2 q lk es1 H1).
Qed.

Lemma kept_outside_refl (h : host) (pattern : string) (t : node) :
  kept_outside h pattern t t.
Proof. intros d name lk _ H. exact H. Qed.

Lemma kept_outside_trans (h : host) (pattern : string) (a b c : node) :
  kept_outside h pattern a b -> kept_outside h pattern b c ->
  kept_outside h pattern a c.
Proof.
  intros F1 F2 d name lk Hd Hq. exact (F2 d name lk Hd (F1 d name lk Hd Hq)).
Qed.

(** One round of [rm] on files, at the directory [p]. *)
Lemma rm_files_round (pattern : string) (w0 : World) (p : list string)
    (w : World) (lk : bool) (es : FS.entries) :
  steps w0 w ->
  names_ok (h_windows (w_host w0)) p ->
  FS.lookup p (w_fs w) = Some (Dir lk es) ->
  exists w',
    rm_body pattern false (walk_root (h_windows (w_host w0)) p)
      (FS.dirs_of es) (FS.files_of es) w = (Ret tt, w') /\
    steps w w' /\
    kept_files (w_host w0) pattern (w_fs w) (w_fs w') /\
    forall (name : string) (rest : list string) (lkq : bool),
      rest = [] /\ h_fnmatch (w_host w0) name pattern = true /\
      String.prefix ".git/"
        (Path.normpath (h_windows (w_host w0))
           (walk_root (h_windows (w_host w0)) p)) = false ->
      FS.lookup (p ++ name :: rest) (w_fs w) = Some (File lkq) ->
      settled (p ++ name :: rest)
        (Path.join (h_windows (w_host w0))
           (Path.normpath (h_windows (w_host w0))
              (walk_root (h_windows (w_host w0)) p)) name)
        lkq w'.
Proof.
  intros S0 Hp Edir.
  set (win := h_windows (w_host w0)) in *.
  assert (Eh : w_host w = w_host w0) by exact (steps_host _ _ S0).
  assert (Hg : good w) by apply S0.
  assert (Hwf : wf win (w_fs w))
    by (unfold good in Hg; rewrite Eh in Hg; exact Hg).
  pose proof (wf_lookup win p _ _ Hwf Edir) as Hwd.
  pose proof (proj1 (wf_dir win lk es) Hwd) as [Hnd Hall].
  rewrite List.Forall_forall in Hall.
  unfold rm_body. rewrite (bind_runs get _ w w w eq_refl). cbv zeta.
  rewrite Eh. fold win.
  set (root := Path.normpath win (walk_root win p)).
  destruct (String.prefix ".git/" root) eqn:Esk.
  - exists w. split; [reflexivity|]. split; [apply steps_refl; exact Hg|].
    split; [apply kept_files_refl|].
    intros name rest lkq (_ & _ & Hf). discriminate.
  - destruct (for_each_related
                (fun a b => kept_files (w_host w0) pattern (w_fs a) (w_fs b))
                (fun a => kept_files_refl _ _ (w_fs a))
                (fun a b c => kept_files_trans _ _ (w_fs a) (w_fs b) (w_fs c))
                (fun (i : string * bool) w2 =>
                   FS.lookup (p ++ [i.1]) (w_fs w) = Some (File i.2) ->
                   settled (p ++ [i.1]) (Path.join win root i.1) i.2 w2)
                (fun i x => x = i.1)
                (List.filter (fun name => h_fnmatch (w_host w0) name pattern)
                   (FS.files_of es))
                (fun name =>
                   safe_print ("rm " +:+ Path.join win root name) ;;
                   safe_remove (Path.join win root name))
                w) as (w' & E & S & K & G).
    + intros i wa wb Sab H Hl. eapply settled_stable; eauto.
    + intros x Hx w1 S1 _.
      apply filter_In in Hx. destruct Hx as [Hx Hm].
      apply In_files_of in Hx. destruct Hx as [lkx Hin].
      destruct (Hall (x, File lkx) Hin) as [Hname _]. cbn [fst] in Hname.
      set (path := Path.join win root x).
      assert (Eparts : Path.parts win path = p ++ [x])
        by exact (parts_target win p x Hp Hname).
      assert (Hx0 : FS.lookup (p ++ [x]) (w_fs w) = Some (File lkx)).
      { rewrite lookup_app, Edir. cbn [FS.lookup].
        rewrite (In_child es x _ Hnd Hin). reflexivity. }
      set (w1a := add_out (Stdout, Text ("rm " +:+ path)) w1).
      assert (S1a : steps w1 w1a) by (apply steps_add_out; apply S1).
      pose proof (steps_trans _ _ _ S1 S1a) as Swa.
      assert (Eha : h_windows (w_host w1a) = win).
      { rewrite (steps_host _ _ Swa), Eh. reflexivity. }
      destruct (safe_remove_runs path w1a ltac:(apply S1a))
        as (w2 & E2 & S2 & Rm1 & Rm2).
      { rewrite Eha, Eparts.
        apply (shrinks_not_dir (w_fs w) (w_fs w1a) (p ++ [x])); [apply Swa|].
        intros lk' es'. rewrite Hx0. discriminate. }
      rewrite Eha, Eparts in Rm1, Rm2.
      exists w2. split; [|split; [|split]].
      * rewrite (bind_runs (safe_print ("rm " +:+ path)) _ w1 w1a tt eq_refl).
        exact E2.
      * exact (steps_trans _ _ _ S1a S2).
      * assert (Efs : w_fs w2 = w_fs (safe_remove path w1a).2)
          by (rewrite E2; reflexivity).
        rewrite safe_remove_fs, Eha, Eparts in Efs.
        change (w_fs w1a) with (w_fs w1) in Efs. rewrite Efs.
        assert (Hwf1 : wf win (w_fs w1)).
        { destruct S1 as (G1 & H1 & _). unfold good in G1.
          rewrite H1, Eh in G1. exact G1. }
        split.
        -- intros q name lkq Hnm Hq.
           apply (remove_keeps win); [exact Hwf1| | |exact Hq].
           ++ destruct p; discriminate.
           ++ intros Heq. apply app_inj_tail in Heq. destruct Heq as [_ ->].
              congruence.
        -- intros q lkq esq Hq.
           apply (remove_keeps_dirs win _ q _ lkq esq); [exact Hwf1| |exact Hq].
           destruct p; discriminate.
      * intros [name lkq] Hq Hl. cbn [fst snd] in *. subst name.
        unfold settled. destruct lkq.
        -- apply Rm2. apply (steps_locked w w1a _ Swa Hl).
        -- destruct (shrinks_file (w_fs w) (w_fs w1a) _ false
                       ltac:(apply Swa) Hl) as [Hn|Hf].
           ++ apply (steps_gone w1a w2 _ S2 Hn).
           ++ apply Rm1; [destruct p; discriminate | exact Hf].
    + exact Hg.
    + exists w'. split; [exact E|]. split; [exact S|]. split; [exact K|].
      intros name rest lkq (-> & Hm & _) Hl.
      apply (G (name, lkq)); [|exact Hl].
      right. exists name. split; [|reflexivity].
      apply filter_In. split; [|exact Hm].
      destruct (lookup_dir_child p name [] _ _ lk es Edir Hl) as (m & Hc & Hr).
      cbn [FS.lookup] in Hr. injection Hr as ->.
      apply In_files_of. exists lkq. apply child_In. exact Hc.
Qed.

(** X12: [rm] on files by a pattern with [*]: it returns on every tree and
    spawns nothing; it removes no file whose name does not match the
    pattern, and no directory; and of the matching files in the
    directories that the walk does not skip, every one that can be
    removed is gone at the end, and every one that cannot is still there
    and was reported. *)
Theorem rm_files_by_pattern (pattern : string) (w : World) :
  Str.has_char "*" pattern = true ->
  good w ->
  exists w',
    rm pattern false w = (Ret tt, w') /\
    w_children w' = w_children w /\
    (forall (q : list string) (name : string) (lk : bool),
       h_fnmatch (w_host w) name pattern = false ->
       FS.lookup (q ++ [name]) (w_fs w) = Some (File lk) ->
       FS.lookup (q ++ [name]) (w_fs w') = Some (File lk)) /\
    (forall (q : list string) (lk : bool) (es : FS.entries),
       FS.lookup q (w_fs w) = Some (Dir lk es) ->
       exists es', FS.lookup q (w_fs w') = Some (Dir lk es')) /\
    (forall (dir : list string) (name : string),
       h_fnmatch (w_host w) name pattern = true ->
       String.prefix ".git/"
         (Path.normpath (h_windows (w_host w))
            (walk_root (h_windows (w_host w)) dir)) = false ->
       (FS.lookup (dir ++ [name]) (w_fs w) = Some (File false) ->
        FS.lookup (dir ++ [name]) (w_fs w') = None) /\
       (FS.lookup (dir ++ [name]) (w_fs w) = Some (File true) ->
        FS.lookup (dir ++ [name]) (w_fs w') = Some (File true) /\
        In (Stdout,
            ErrStr (PermissionError
              (Path.join (h_windows (w_host w))
                 (Path.normpath (h_windows (w_host w))
                    (walk_root (h_windows (w_host w)) dir)) name)))
           (w_out w'))).
Proof.
  intros Hstar Hg. rewrite (rm_wildcard pattern false Hstar).
  destruct (os_walk_related
              (fun a b => kept_files (w_host w) pattern (w_fs a) (w_fs b))
              (fun a => kept_files_refl _ _ (w_fs a))
              (fun a b c => kept_files_trans _ _ (w_fs a) (w_fs b) (w_fs c))
              (rm_body pattern false)
              (fun p name rest =>
                 rest = [] /\ h_fnmatch (w_host w) name pattern = true /\
                 String.prefix ".git/"
                   (Path.normpath (h_windows (w_host w))
                      (walk_root (h_windows (w_host w)) p)) = false)
              (fun p name rest =>
                 Path.join (h_windows (w_host w))
                   (Path.normpath (h_windows (w_host w))
                      (walk_root (h_windows (w_host w)) p)) name)
              w Hg (rm_files_round pattern w))
    as (w' & E & S & [KF KD] & G).
  exists w'. split; [exact E|]. split; [apply S|].
  split; [exact KF|]. split; [exact KD|].
  intros dir name Hm Hs. split.
  - intros Hl. exact (G dir name [] false (conj eq_refl (conj Hm Hs)) Hl).
  - intros Hl. split.
    + exact (steps_locked w w' _ S Hl).
    + exact (G dir name [] true (conj eq_refl (conj Hm Hs)) Hl).
Qed.

Lemma rm_files_by_pattern_witness :
  let w := start calm_host ∅ "/repo" locked_tree in
  exists w',
    rm "*.pyc" false w = (Ret tt, w') /\
    FS.lookup ["z.pyc"] (w_fs w') = None /\
    FS.lookup ["pkg"; "__pycache__"; "d.pyc"] (w_fs w') = None /\
    FS.lookup ["a.pyc"] (w_fs w') = Some (File true) /\
    FS.lookup ["pkg"; "mod.py"] (w_fs w') = Some (File false) /\
    exists es', FS.lookup ["pkg"; "__pycache__"] (w_fs w') = Some (Dir false es').
Proof.
  intros w.
  assert (Hg : good w).
  { unfold good. cbn.
    repeat match goal with
           | |- _ /\ _ => split
           | |- True => exact I
           | |- _ = true => reflexivity
           | |- List.NoDup _ =>
               apply NoDup_ListNoDup; apply (bool_decide_unpack _);
               vm_compute; exact I
           end. }
  destruct (rm_files_by_pattern "*.pyc" w eq_refl Hg)
    as (w' & E & _ & KF & KD & G).
  exists w'. split; [exact E|].
  split; [exact (proj1 (G [] "z.pyc" eq_refl eq_refl) eq_refl)|].
  split; [exact (proj1 (G ["pkg"; "__pycache__"] "d.pyc" eq_refl eq_refl)
                   eq_refl)|].
  split; [exact (proj1 (proj2 (G [] "a.pyc" eq_refl eq_refl) eq_refl))|].
  split; [exact (KF ["pkg"] "mod.py" false eq_refl eq_refl)|].
  exact (KD ["pkg"; "__pycache__"] false _ eq_refl).
Defined.

(** One round of [rm] on directories, at the directory [p]. *)
Lemma rm_dirs_round (pattern : string) (w0 : World) (p : list string)
    (w : World) (lk : bool) (es : FS.entries) :
  steps w0 w ->
  names_ok (h_windows (w_host w0)) p ->
  FS.lookup p (w_fs w) = Some (Dir lk es) ->
  exists w',
    rm_body pattern true (walk_root (h_windows (w_host w0)) p)
      (FS.dirs_of es) (FS.files_of es) w = (Ret tt, w') /\
    steps w w' /\
    kept_outside (w_host w0) pattern (w_fs w) (w_fs w') /\
    forall (name : string) (rest : list string) (lkq : bool),
      rest <> [] /\ h_fnmatch (w_host w0) name pattern = true /\
      String.prefix ".git/"
        (Path.normpath (h_windows (w_host w0))
           (walk_root (h_windows (w_host w0)) p)) = false ->
      FS.lookup (p ++ name :: rest) (w_fs w) = Some (File lkq) ->
      settled (p ++ name :: rest)
        (below (h_windows (w_host w0))
           (Path.join (h_windows (w_host w0))
              (Path.normpath (h_windows (w_host w0))
                 (walk_root (h_windows (w_host w0)) p)) name) rest)
        lkq w'.
Proof.
  intros S0 Hp Edir.
  set (win := h_windows (w_host w0)) in *.
  assert (Eh : w_host w = w_host w0) by exact (steps_host _ _ S0).
  assert (Hg : good w) by apply S0.
  assert (Hwf : wf win (w_fs w))
    by (unfold good in Hg; rewrite Eh in Hg; exact Hg).
  pose proof (wf_lookup win p _ _ Hwf Edir) as Hwd.
  pose proof (proj1 (wf_dir win lk es) Hwd) as [Hnd Hall].
  rewrite List.Forall_forall in Hall.
  unfold rm_body. rewrite (bind_runs get _ w w w eq_refl). cbv zeta.
  rewrite Eh. fold win.
  set (root := Path.normpath win (walk_root win p)).
  destruct (String.prefix ".git/" root) eqn:Esk.
  - exists w. split; [reflexivity|]. split; [apply steps_refl; exact Hg|].
    split; [apply kept_outside_refl|].
    intros name rest lkq (_ & _ & Hf). discriminate.
  - destruct (for_each_related
                (fun a b => kept_outside (w_host w0) pattern (w_fs a) (w_fs b))
                (fun a => kept_outside_refl _ _ (w_fs a))
                (fun a b c => kept_outside_trans _ _ (w_fs a) (w_fs b) (w_fs c))
                (fun (i : string * string * list string * bool) w2 =>
                   FS.lookup (p ++ i.1.1.1 :: i.1.1.2 :: i.1.2) (w_fs w)
                   = Some (File i.2) ->
                   settled (p ++ i.1.1.1 :: i.1.1.2 :: i.1.2)
                     (below win (Path.join win root i.1.1.1)
                        (i.1.1.2 :: i.1.2))
                     i.2 w2)
                (fun i x => x = i.1.1.1)
                (List.filter (fun name => h_fnmatch (w_host w0) name pattern)
                   (FS.dirs_of es))
                (fun name =>
                   safe_print ("rmdir -f " +:+ Path.join win root name) ;;
                   safe_rmtree (Path.join win root name))
                w) as (w' & E & S & K & G).
    + intros i wa wb Sab H Hl. eapply settled_stable; eauto.
    + intros x Hx w1 S1 _.
      apply filter_In in Hx. destruct Hx as [Hx Hm].
      apply In_dirs_of in Hx. destruct Hx as (lkx & esx & Hin).
      destruct (Hall (x, Dir lkx esx) Hin) as [Hname _]. cbn [fst] in Hname.
      set (path := Path.join win root x).
      assert (Eparts : Path.parts win path = p ++ [x])
        by exact (parts_target win p x Hp Hname).
      set (w1a := add_out (Stdout, Text ("rmdir -f " +:+ path)) w1).
      assert (S1a : steps w1 w1a) by (apply steps_add_out; apply S1).
      pose proof (steps_trans _ _ _ S1 S1a) as Swa.
      assert (Eha : h_windows (w_host w1a) = win).
      { rewrite (steps_host _ _ Swa), Eh. reflexivity. }
      assert (Hne : Path.parts (h_windows (w_host w1a)) path <> []).
      { rewrite Eha, Eparts. destruct p; discriminate. }
      destruct (safe_rmtree_runs path w1a ltac:(apply S1a) Hne)
        as (w2 & E2 & S2 & Rm).
      rewrite Eha, Eparts in Rm.
      exists w2. split; [|split; [|split]].
      * rewrite (bind_runs (safe_print ("rmdir -f " +:+ path)) _ w1 w1a tt
                   eq_refl).
        exact E2.
      * exact (steps_trans _ _ _ S1a S2).
      * assert (Efs : w_fs w2 = w_fs (safe_rmtree path w1a).2)
          by (rewrite E2; reflexivity).
        rewrite (safe_rmtree_fs path w1a ltac:(apply S1a) Hne) in Efs.
        rewrite Eha, Eparts in Efs.
        change (w_fs w1a) with (w_fs w1) in Efs. rewrite Efs.
        assert (Hwf1 : wf win (w_fs w1)).
        { destruct S1 as (G1 & H1 & _). unfold good in G1.
          rewrite H1, Eh in G1. exact G1. }
        intros d name lkq Hd Hq.
        apply (rmtree_keeps win (p ++ [x]) (d ++ [name]) (w_fs w1) lkq
                 (fun lk0 es0 => (FS.rmtree_node win path (Dir lk0 es0)).2));
          [exact Hwf1| | |exact Hq].
        -- destruct p; discriminate.
        -- intros r Hr Heq.
           destruct r as [|z r _] using rev_ind; [contradiction|].
           rewrite app_assoc in Heq. apply app_inj_tail in Heq.
           destruct Heq as [-> _].
           rewrite List.Forall_forall in Hd.
           rewrite (Hd x) in Hm; [discriminate|].
           apply in_or_app. left. apply in_or_app. right. left. reflexivity.
      * intros [[[name c] rest] lkq] Hq Hl. cbn [fst snd] in *. subst name.
        assert (Ea : (p ++ [x]) ++ c :: rest = p ++ x :: c :: rest)
          by (rewrite <- app_assoc; reflexivity).
        destruct (shrinks_file (w_fs w) (w_fs w1a) _ lkq ltac:(apply Swa) Hl)
          as [Hn|Hf].
        -- unfold settled. destruct lkq.
           ++ rewrite (steps_locked w w1a _ Swa Hl) in Hn. discriminate.
           ++ apply (steps_gone w1a w2 _ S2 Hn).
        -- rewrite <- Ea in Hf.
           destruct (lookup_below_dir (p ++ [x]) c rest _ _ Hf)
             as (lk' & es' & Hd & Hr).
           destruct (Rm lk' es' Hd) as [R1 R2].
           unfold settled. destruct lkq.
           ++ exact (R2 _ Hr).
           ++ rewrite <- Ea. exact (R1 _ Hr).
    + exact Hg.
    + exists w'. split; [exact E|]. split; [exact S|]. split; [exact K|].
      intros name rest lkq (Hrest & Hm & _) Hl.
      destruct rest as [|c rest]; [contradiction|].
      apply (G (name, c, rest, lkq)); [|exact Hl].
      right. exists name. split; [|reflexivity].
      apply filter_In. split; [|exact Hm].
      destruct (lookup_dir_child p name (c :: rest) _ _ lk es Edir Hl)
        as (m & Hc & Hr).
      destruct m as [lkm|lkm esm]; [discriminate|].
      apply In_dirs_of. exists lkm, esm. apply child_In. exact Hc.
Qed.



(** ** What cleanup keeps *)

Lemma kept_unmatched_refl (h : host) (patterns : list string) (t : node) :
  kept_unmatched h patterns t t.
Proof. intros d name lk _ H. exact H. Qed.

Lemma kept_unmatched_trans (h : host) (patterns : list string)
    (a b c : node) :
  kept_unmatched h patterns a b -> kept_unmatched h patterns b c ->
  kept_unmatched h patterns a c.
Proof.
  intros F1 F2 d name lk Hd Hq. exact (F2 d name lk Hd (F1 d name lk Hd Hq)).
Qed.

Lemma unmatched_matches (h : host) (patterns : list string) (c : string) :
  unmatched h patterns c -> ~ matches h patterns c.
Proof.
  intros Hu (pat & Hin & Hm). unfold unmatched in Hu.
  rewrite List.Forall_forall in Hu. rewrite (Hu pat Hin) in Hm. discriminate.
Qed.

(** The loop of [recursive_rm] over the patterns for one file: it keeps
    every other file. *)
Lemma remove_loop_keeps (h : host) (patterns : list string)
    (name path : string) (w : World) :
  good w ->
  Path.parts (h_windows (w_host w)) path <> [] ->
  (forall lk es,
     FS.lookup (Path.parts (h_windows (w_host w)) path) (w_fs w)
     <> Some (Dir lk es)) ->
  exists w',
    for_each patterns (fun pattern =>
      if h_fnmatch h name pattern then safe_remove path else ret tt) w
    = (Ret tt, w') /\ steps w w' /\
    forall (q : list string) (lkq : bool),
      (matches h patterns name ->
       q <> Path.parts (h_windows (w_host w)) path) ->
      FS.lookup q (w_fs w) = Some (File lkq) ->
      FS.lookup q (w_fs w') = Some (File lkq).
Proof.
  intros Hg Hne Hnd.
  set (win := h_windows (w_host w)) in *.
  set (p := Path.parts win path) in *.
  destruct (for_each_related
              (fun a b =>
                 forall q lkq, (matches h patterns name -> q <> p) ->
                   FS.lookup q (w_fs a) = Some (File lkq) ->
                   FS.lookup q (w_fs b) = Some (File lkq))
              (fun a q lkq _ H => H)
              (fun a b c F1 F2 q lkq Hq H => F2 q lkq Hq (F1 q lkq Hq H))
              (fun (_ : unit) (_ : World) => True)
              (fun _ (_ : string) => True)
              patterns
              (fun pattern =>
                 if h_fnmatch h name pattern then safe_remove path else ret tt)
              w) as (w' & E & S & K & _).
  - intros _ _ _ _ _. exact I.
  - intros pat Hin w1 S1 _.
    destruct (h_fnmatch h name pat) eqn:Em.
    + pose proof (steps_parts w w1 path S1) as Ep. fold win in Ep. fold p in Ep.
      destruct (safe_remove_runs path w1 ltac:(apply S1))
        as (w2 & E2 & S2 & _).
      { rewrite Ep. apply (shrinks_not_dir (w_fs w) (w_fs w1) p); [apply S1|].
        exact Hnd. }
      exists w2. split; [exact E2|]. split; [exact S2|]. split; [|intros; exact I].
      intros q lkq Hq Hl.
      assert (Efs : w_fs w2 = w_fs (safe_remove path w1).2)
        by (rewrite E2; reflexivity).
      rewrite safe_remove_fs, Ep in Efs. rewrite Efs.
      assert (Hwf1 : wf win (w_fs w1)).
      { destruct S1 as (G1 & H1 & _). unfold good in G1.
        rewrite H1 in G1. exact G1. }
      apply (remove_keeps win); [exact Hwf1|exact Hne| |exact Hl].
      apply Hq. exists pat. split; assumption.
    + exists w1. split; [reflexivity|]. split; [apply steps_refl, S1|].
      split; [|intros; exact I]. intros q lkq _ H. exact H.
  - exact Hg.
  - exists w'. split; [exact E|]. split; [exact S|]. exact K.
Qed.

(** The loop of [recursive_rm] over the patterns for one directory: it
    keeps every file that is not below the directory. *)
Lemma rmtree_loop_keeps (h : host) (patterns : list string)
    (name path : string) (w : World) :
  good w ->
  Path.parts (h_windows (w_host w)) path <> [] ->
  exists w',
    for_each patterns (fun pattern =>
      if h_fnmatch h name pattern then safe_rmtree path else ret tt) w
    = (Ret tt, w') /\ steps w w' /\
    forall (q : list string) (lkq : bool),
      (matches h patterns name ->
       forall r, r <> [] -> q <> Path.parts (h_windows (w_host w)) path ++ r) ->
      FS.lookup q (w_fs w) = Some (File lkq) ->
      FS.lookup q (w_fs w') = Some (File lkq).
Proof.
  intros Hg Hne.
  set (win := h_windows (w_host w)) in *.
  set (p := Path.parts win path) in *.
  destruct (for_each_related
              (fun a b =>
                 forall q lkq,
                   (matches h patterns name ->
                    forall r, r <> [] -> q <> p ++ r) ->
                   FS.lookup q (w_fs a) = Some (File lkq) ->
                   FS.lookup q (w_fs b) = Some (File lkq))
              (fun a q lkq _ H => H)
              (fun a b c F1 F2 q lkq Hq H => F2 q lkq Hq (F1 q lkq Hq H))
              (fun (_ : unit) (_ : World) => True)
              (fun _ (_ : string) => True)
              patterns
              (fun pattern =>
                 if h_fnmatch h name pattern then safe_rmtree path else ret tt)
              w) as (w' & E & S & K & _).
  - intros _ _ _ _ _. exact I.
  - intros pat Hin w1 S1 _.
    destruct (h_fnmatch h name pat) eqn:Em.
    + pose proof (steps_parts w w1 path S1) as Ep. fold win in Ep. fold p in Ep.
      assert (Hne1 : Path.parts (h_windows (w_host w1)) path <> [])
        by (rewrite Ep; exact Hne).
      destruct (safe_rmtree_runs path w1 ltac:(apply S1) Hne1)
        as (w2 & E2 & S2 & _).
      exists w2. split; [exact E2|]. split; [exact S2|]. split; [|intros; exact I].
      intros q lkq Hq Hl.
      assert (Efs : w_fs w2 = w_fs (safe_rmtree path w1).2)
        by (rewrite E2; reflexivity).
      rewrite (safe_rmtree_fs path w1 ltac:(apply S1) Hne1), Ep in Efs.
      rewrite Efs.
      assert (Hwf1 : wf win (w_fs w1)).
      { destruct S1 as (G1 & H1 & _). unfold good in G1.
        rewrite H1 in G1. exact G1. }
      apply (rmtree_keeps win p q (w_fs w1) lkq
               (fun lk0 es0 =>
                  (FS.rmtree_node (h_windows (w_host w1)) path
                     (Dir lk0 es0)).2));
        [exact Hwf1|exact Hne| |exact Hl].
      apply Hq. exists pat. split; assumption.
    + exists w1. split; [reflexivity|]. split; [apply steps_refl, S1|].
      split; [|intros; exact I]. intros q lkq _ H. exact H.
  - exact Hg.
  - exists w'. split; [exact E|]. split; [exact S|]. exact K.
Qed.

(** One round of [recursive_rm], at the directory [p]: what it keeps. *)
Lemma recursive_rm_round_keeps (patterns : list string) (w0 : World)
    (p : list string) (w : World) (lk : bool) (es : FS.entries) :
  steps w0 w ->
  names_ok (h_windows (w_host w0)) p ->
  FS.lookup p (w_fs w) = Some (Dir lk es) ->
  exists w',
    recursive_rm_body patterns (walk_root (h_windows (w_host w0)) p)
      (FS.dirs_of es) (FS.files_of es) w = (Ret tt, w') /\
    steps w w' /\
    kept_unmatched (w_host w0) patterns (w_fs w) (w_fs w') /\
    forall (name : string) (rest : list string) (lkq : bool),
      False ->
      FS.lookup (p ++ name :: rest) (w_fs w) = Some (File lkq) ->
      settled (p ++ name :: rest) "" lkq w'.
Proof.
  intros S0 Hp Edir.
  set (win := h_windows (w_host w0)) in *.
  assert (Eh : w_host w = w_host w0) by exact (steps_host _ _ S0).
  assert (Hg : good w) by apply S0.
  assert (Hwf : wf win (w_fs w))
    by (unfold good in Hg; rewrite Eh in Hg; exact Hg).
  pose proof (wf_lookup win p _ _ Hwf Edir) as Hwd.
  pose proof (proj1 (wf_dir win lk es) Hwd) as [Hnd Hall].
  rewrite List.Forall_forall in Hall.
  unfold recursive_rm_body. rewrite (bind_runs get _ w w w eq_refl). cbv zeta.
  rewrite Eh. fold win.
  set (root := Path.normpath win (walk_root win p)).
  destruct (String.prefix ".git/" root) eqn:Esk.
  { exists w. split; [reflexivity|]. split; [apply steps_refl; exact Hg|].
    split; [apply kept_unmatched_refl|]. intros name rest lkq []. }
  (* the files *)
  destruct (for_each_related
              (fun a b => kept_unmatched (w_host w0) patterns (w_fs a) (w_fs b))
              (fun a => kept_unmatched_refl _ _ (w_fs a))
              (fun a b c => kept_unmatched_trans _ _ (w_fs a) (w_fs b) (w_fs c))
              (fun (_ : unit) (_ : World) => True)
              (fun _ (_ : string) => True)
              (FS.files_of es)
              (fun file =>
                 for_each patterns (fun pattern =>
                   if h_fnmatch (w_host w0) file pattern
                   then safe_remove (Path.join win root file)
                   else ret tt))
              w) as (w1 & E1 & S1 & K1 & _).
  { intros _ _ _ _ _. exact I. }
  { intros file Hfile wa Sa _.
    apply In_files_of in Hfile. destruct Hfile as (lkf & Hin).
    destruct (Hall (file, File lkf) Hin) as [Hname _]. cbn [fst] in Hname.
    pose proof (parts_target win p file Hp Hname) as Eparts. fold root in Eparts.
    assert (Hfile : FS.lookup (p ++ [file]) (w_fs w) = Some (File lkf)).
    { rewrite lookup_app, Edir. cbn [FS.lookup].
      rewrite (In_child es file _ Hnd Hin). reflexivity. }
    assert (Eha : h_windows (w_host wa) = win)
      by (rewrite (steps_host w wa Sa), Eh; reflexivity).
    destruct (remove_loop_keeps (w_host w0) patterns file
                (Path.join win root file) wa) as (wb & Eb & Sb & Kb).
    - apply Sa.
    - rewrite Eha, Eparts. destruct p; discriminate.
    - rewrite Eha, Eparts.
      apply (shrinks_not_dir (w_fs w) (w_fs wa)); [apply Sa|].
      intros lk' es'. rewrite Hfile. discriminate.
    - exists wb. split; [exact Eb|]. split; [exact Sb|].
      split; [|intros; exact I].
      intros d name lkq Hd Hq. apply Kb; [|exact Hq].
      rewrite Eha, Eparts. intros Hm Heq.
      apply app_inj_tail in Heq. destruct Heq as [_ ->].
      apply Forall_app in Hd. destruct Hd as [_ Hd].
      apply Forall_cons_iff in Hd. destruct Hd as [Hu _].
      exact (unmatched_matches _ _ _ Hu Hm). }
  { exact Hg. }
  (* the directories *)
  destruct (for_each_related
              (fun a b => kept_unmatched (w_host w0) patterns (w_fs a) (w_fs b))
              (fun a => kept_unmatched_refl _ _ (w_fs a))
              (fun a b c => kept_unmatched_trans _ _ (w_fs a) (w_fs b) (w_fs c))
              (fun (_ : unit) (_ : World) => True)
              (fun _ (_ : string) => True)
              (FS.dirs_of es)
              (fun dir =>
                 for_each patterns (fun pattern =>
                   if h_fnmatch (w_host w0) dir pattern
                   then safe_rmtree (Path.join win root dir)
                   else ret tt))
              w1) as (w2 & E2 & S2 & K2 & _).
  { intros _ _ _ _ _. exact I. }
  { intros dir Hd wa Sa _.
    pose proof (steps_trans _ _ _ S1 Sa) as Swa.
    apply In_dirs_of in Hd. destruct Hd as (lkd & esd & Hin).
    destruct (Hall (dir, Dir lkd esd) Hin) as [Hname _]. cbn [fst] in Hname.
    pose proof (parts_target win p dir Hp Hname) as Eparts. fold root in Eparts.
    assert (Eha : h_windows (w_host wa) = win)
      by (rewrite (steps_host w wa Swa), Eh; reflexivity).
    destruct (rmtree_loop_keeps (w_host w0) patterns dir
                (Path.join win root dir) wa) as (wb & Eb & Sb & Kb).
    - apply Sa.
    - rewrite Eha, Eparts. destruct p; discriminate.
    - exists wb. split; [exact Eb|]. split; [exact Sb|].
      split; [|intros; exact I].
      intros d name lkq Hd Hq. apply Kb; [|exact Hq].
      rewrite Eha, Eparts. intros Hm r Hr Heq.
      destruct r as [|z r _] using rev_ind; [contradiction|].
      rewrite app_assoc in Heq. apply app_inj_tail in Heq.
      destruct Heq as [-> _].
      apply Forall_app in Hd. destruct Hd as [Hd _].
      apply Forall_app in Hd. destruct Hd as [Hd _].
      apply Forall_app in Hd. destruct Hd as [_ Hd].
      apply Forall_cons_iff in Hd. destruct Hd as [Hu _].
      exact (unmatched_matches _ _ _ Hu Hm). }
  { apply S1. }
  exists w2. split; [|split; [|split]].
  - rewrite (bind_runs _ _ _ _ _ E1). exact E2.
  - exact (steps_trans _ _ _ S1 S2).
  - exact (kept_unmatched_trans _ _ _ _ _ K1 K2).
  - intros name rest lkq [].
Qed.

(** [recursive_rm] with what it keeps. *)
Lemma recursive_rm_keeps (patterns : list string) (w : World) :
  good w ->
  exists w',
    recursive_rm patterns w = (Ret tt, w') /\ steps w w' /\
    kept_unmatched (w_host w) patterns (w_fs w) (w_fs w').
Proof.
  intros Hg. rewrite recursive_rm_unfold.
  destruct (os_walk_related
              (fun a b => kept_unmatched (w_host w) patterns (w_fs a) (w_fs b))
              (fun a => kept_unmatched_refl _ _ (w_fs a))
              (fun a b c => kept_unmatched_trans _ _ (w_fs a) (w_fs b) (w_fs c))
              (recursive_rm_body patterns)
              (fun _ _ _ => False) (fun _ _ _ => "")
              w Hg (recursive_rm_round_keeps patterns w))
    as (w' & E & S & K & _).
  exists w'. split; [exact E|]. split; [exact S|exact K].
Qed.

(** [safe_rmtree] keeps every file that does not lie at or below its
    path. *)
Lemma safe_rmtree_keeps (path : string) (w : World) :
  good w ->
  Path.parts (h_windows (w_host w)) path <> [] ->
  exists w',
    safe_rmtree path w = (Ret tt, w') /\ steps w w' /\
    forall (q : list string) (lkq : bool),
      ~ Path.parts (h_windows (w_host w)) path `prefix_of` q ->
      FS.lookup q (w_fs w) = Some (File lkq) ->
      FS.lookup q (w_fs w') = Some (File lkq).
Proof.
  intros Hg Hne.
  destruct (safe_rmtree_runs path w Hg Hne) as (w' & E & S & _).
  exists w'. split; [exact E|]. split; [exact S|].
  intros q lkq Hq Hl.
  assert (Efs : w_fs w' = w_fs (safe_rmtree path w).2)
    by (rewrite E; reflexivity).
  rewrite (safe_rmtree_fs path w Hg Hne) in Efs. rewrite Efs.
  apply (rmtree_keeps (h_windows (w_host w)) _ q (w_fs w) lkq
           (fun lk0 es0 =>
              (FS.rmtree_node (h_windows (w_host w)) path (Dir lk0 es0)).2));
    [exact Hg|exact Hne| |exact Hl].
  intros r _ ->. apply Hq. exists r. reflexivity.
Qed.

(** X14: [recursive_rm] only removes, and only what a pattern reaches: it
    keeps every file of which neither the name nor the name of a
    directory above it matches one of the patterns, also inside [.git];
    every entry of the tree it leaves was in the tree before, as an entry
    of the same kind; and every file that cannot be removed is still
    there. *)
Theorem recursive_rm_keeps_unmatched (patterns : list string) (w : World) :
  good w ->
  exists w',
    recursive_rm patterns w = (Ret tt, w') /\
    (forall (d : list string) (name : string) (lk : bool),
       Forall (unmatched (w_host w) patterns) (d ++ [name]) ->
       FS.lookup (d ++ [name]) (w_fs w) = Some (File lk) ->
       FS.lookup (d ++ [name]) (w_fs w') = Some (File lk)) /\
    (forall (q : list string) (n' : node),
       FS.lookup q (w_fs w') = Some n' ->
       exists n, FS.lookup q (w_fs w) = Some n /\ same_kind n n') /\
    (forall q : list string,
       FS.lookup q (w_fs w) = Some (File true) ->
       FS.lookup q (w_fs w') = Some (File true)).
Proof.
  intros Hg.
  destruct (recursive_rm_keeps patterns w Hg) as (w' & E & S & K).
  exists w'. split; [exact E|]. split; [exact K|].
  destruct S as (_ & _ & _ & _ & [S1 S2]). split; assumption.
Qed.

Lemma recursive_rm_keeps_unmatched_witness :
  let w := start calm_host ∅ "/repo" source_tree in
  exists w',
    recursive_rm ["*.pyc"; "*__pycache__"] w = (Ret tt, w') /\
    FS.lookup ["psutil"; "__init__.py"] (w_fs w') = Some (File false) /\
    FS.lookup ["build"; "lib"; "psutil.py"] (w_fs w') = Some (File false).
Proof.
  intros w.
  assert (Hg : good w).
  { unfold good. cbn.
    repeat match goal with
           | |- _ /\ _ => split
           | |- True => exact I
           | |- _ = true => reflexivity
           | |- List.NoDup _ =>
               apply NoDup_ListNoDup; apply (bool_decide_unpack _);
               vm_compute; exact I
           end. }
  destruct (recursive_rm_keeps_unmatched ["*.pyc"; "*__pycache__"] w Hg)
    as (w' & E & K & _).
  exists w'. split; [exact E|]. split.
  - apply (K ["psutil"] "__init__.py" false); [|reflexivity].
    repeat (constructor; try reflexivity).
  - apply (K ["build"; "lib"] "psutil.py" false); [|reflexivity].
    repeat (constructor; try reflexivity).
Defined.

Lemma clean_unfold :
  clean
  = (recursive_rm clean_patterns ;;
     safe_rmtree "build" ;; safe_rmtree ".coverage" ;; safe_rmtree "dist" ;;
     safe_rmtree "docs/_build" ;; safe_rmtree "htmlcov" ;; safe_rmtree "tmp").
Proof. reflexivity. Qed.



(** ** What a run leaves of the environment *)


(** ** Building twice *)

(** X17: [test_last_failed] builds twice: it calls [build] and then [test],
    which builds again.  When every child ends with 0 it spawns the three
    children of the build, the same three once more, and then pytest with
    [--last-failed]. *)
Theorem test_last_failed_builds_twice (w : World) :
  calm (w_host w) ->
  let py := w_PYTHON w in
  let b := [[py; "-c"; "import setuptools"];
            build_ext_cmd py (h_cpu_count (w_host w));
            [py; "-c"; "import psutil"]] in
  (test_last_failed w).1 = Ret tt /\
  map c_cmd (w_children (test_last_failed w).2)
  = map c_cmd (w_children w) ++ b ++ b ++
    [[py; "-m"; "pytest"; "--ignore=psutil/tests/test_memleaks.py";
      "--last-failed"]].
Proof.
  intros Hc py b.
  destruct (build_succeeds w Hc) as (w1 & E1 & X1).
  assert (H1 : w_host w1 = w_host w) by apply X1.
  assert (P1 : w_PYTHON w1 = py) by apply X1.
  destruct (build_succeeds w1 ltac:(rewrite H1; exact Hc)) as (w2 & E2 & X2).
  assert (H2 : w_host w2 = w_host w)
    by (destruct X2 as [B _]; congruence).
  assert (P2 : w_PYTHON w2 = py)
    by (destruct X2 as (_ & B & _); congruence).
  destruct (sh_calm
              [py; "-m"; "pytest"; "--ignore=psutil/tests/test_memleaks.py";
               "--last-failed"]
              w2 ltac:(rewrite H2; exact Hc)) as (w3 & E3 & X3).
  assert (Et : test_last_failed w = (Ret tt, w3)).
  { unfold test_last_failed, test.
    rewrite (bind_runs _ _ _ _ _ E1), (bind_runs _ _ _ _ _ E2). cbv zeta.
    rewrite (bind_runs PYTHON _ w2 w2 (w_PYTHON w2) eq_refl), P2.
    exact E3. }
  rewrite Et. split; [reflexivity|]. cbn [snd].
  destruct X1 as (_ & _ & _ & _ & C1), X2 as (_ & _ & _ & _ & C2),
    X3 as (_ & _ & _ & _ & C3).
  rewrite C3, C2, C1, P1, H1. unfold b, build_ext_cmd.
  repeat rewrite <- app_assoc. reflexivity.
Qed.

Lemma test_last_failed_builds_twice_witness :
  length (w_children (test_last_failed (start calm_host ∅ "/repo" demo_tree)).2)
  = 7%nat.
Proof.
  destruct (test_last_failed_builds_twice (start calm_host ∅ "/repo" demo_tree))
    as [_ C].
  - intros n cmd. exists []. reflexivity.
  - rewrite <- (length_map c_cmd), C. reflexivity.
Defined.
